(** * Statistics.cc: share statistics of the pool

    A shallow embedding of the aggregation core of [src/Statistics.cc]:
    [WorkerShares], [StatsServer] (the live registry), [ShareLogWriter],
    [ShareStatsDay] and [ShareLogParser], with the properties the
    specification states about them.

    Conventions.
    - Integers are [Z].  [Statistics.h] and [Stratum.h], which declare the
      structs, their field types and the macros, are not among the sources.
      Where [Statistics.cc] shows the width of a value (a cast, a typed
      local, an unsigned literal, a format macro such as [PRIu64], the
      32-bit timestamp and the 64-bit weight of the record of a share)
      arithmetic on it wraps around as in C, written out with [u32] and
      [u64].  The counters of the registry, whose widths only the headers
      declare, count entries of maps held in memory and shares received and
      are carried without wrap-around.
    - [double] is the kernel's binary64 [float].
    - Every call of [time(nullptr)] is a reading of the clock of its own.
      A method that calls it once takes the reading as its argument [now];
      [StatsServer::processShare] and [removeExpiredWorkers], whose callees
      read the clock again, and the turns of the loops of the threads take
      the readings of all these calls.  The status queries and the flush
      to redis hand the clock to the sums of the windows and print it,
      and compare it with nothing: they are written for a clock that does
      not advance within them.
    - [LOG(FATAL)] ends the process.  An operation that can reach it
      returns an [option]: [None] when the process has ended.
    - [fwrite] can fail and its result is discarded: whether a call
      succeeds is an argument of the operations that write.
    - The locks ([ScopeLock], [pthread_rwlock_t]) are not modelled: operations
      are the sequential bodies of the methods. *)

From Stdlib Require Import ZArith List Bool Lia Sorted Floats.
From Stdlib.Strings Require Import Byte.
From Stdlib Require String Ascii DecimalString DecimalZ.
From stdpp Require Import base option list gmap fin_maps.

Local Open Scope Z_scope.

(** ** Machine integers *)

(** Conversion to [uint32_t]. *)
Definition u32 (z : Z) : Z := z mod 2 ^ 32.

(** Conversion to [uint64_t]. *)
Definition u64 (z : Z) : Z := z mod 2 ^ 64.

(** ** Share *)

Module Share.

(** Modelled from the spec: the [Share] record of [Stratum.h] (section 3 and
    the byte layout of section 6): [int32 user_id | int64 worker_hash_id |
    uint32 ip | uint32 timestamp | uint64 share_weight | double score |
    uint32 result_tag].  [score_] stands for the value of [share.score()]. *)
Record t := mk {
  userId_ : Z;
  workerHashId_ : Z;
  ip_ : Z;
  timestamp_ : Z;
  share_ : Z;
  score_ : float;
  result_ : Z
}.

(** Modelled from the spec: the tags of [Share::Result] (section 6). *)
Definition ACCEPT : Z := 1.
Definition REJECT : Z := 2.

(** Modelled from the spec: [Share::isValid] (section 3): the result is one
    of the two tags, the timestamp is nonzero and the weight is positive. *)
Definition isValid (s : t) : bool :=
  (bool_decide (result_ s = ACCEPT) || bool_decide (result_ s = REJECT))
  && negb (bool_decide (timestamp_ s = 0))
  && bool_decide (0 < share_ s).

(** [sizeof(Share)]: the layout above with natural alignment; the source
    notes it as [2000000 * 48 = 96,000,000 Bytes]. *)
Definition sizeof : Z := 48.

End Share.

(** Modelled from the spec: the macro [STATS_SLIDING_WINDOW_SECONDS] of
    [Statistics.h], the one-hour horizon; the constructor of [WorkerShares]
    asserts that it is at least 3600. *)
Definition STATS_SLIDING_WINDOW_SECONDS : Z := 3600.

(** ** StatsWindow *)

Module StatsWindow.

(** Modelled from the spec: [StatsWindow<T>] of [Statistics.h], the sliding
    counter of section 3: a ring of [windowSize_] buckets addressed by the
    slot key modulo the size, each bucket a pair (slot key, accumulated
    value); a bucket that was never written is absent. *)
Record t := mk {
  windowSize_ : Z;
  elements_ : gmap Z (Z * Z)
}.

Definition new (windowSize : Z) : t := mk windowSize ∅.

(** Modelled from the spec: insertion with slot key [ringIdx] replaces a
    bucket whose stored key differs (stale eviction) and adds to it when the
    key is the same. *)
Definition insert (w : t) (ringIdx val : Z) : t :=
  let pos := ringIdx mod windowSize_ w in
  match elements_ w !! pos with
  | Some (key, acc) =>
      if decide (key = ringIdx)
      then mk (windowSize_ w) (<[pos := (ringIdx, acc + val)]> (elements_ w))
      else mk (windowSize_ w) (<[pos := (ringIdx, val)]> (elements_ w))
  | None => mk (windowSize_ w) (<[pos := (ringIdx, val)]> (elements_ w))
  end.

End StatsWindow.

(** ** WorkerShares *)

Module WorkerShares.

Record t := mk {
  workerId_ : Z;
  userId_ : Z;
  acceptCount_ : Z;
  lastShareIP_ : Z;
  lastShareTime_ : Z;
  acceptShareSec_ : StatsWindow.t;
  rejectShareMin_ : StatsWindow.t
}.

(** [WorkerShares::WorkerShares(workerId, userId)]. *)
Definition new (workerId userId : Z) : t :=
  mk workerId userId 0 0 0
     (StatsWindow.new STATS_SLIDING_WINDOW_SECONDS)
     (StatsWindow.new (STATS_SLIDING_WINDOW_SECONDS / 60)).

(** [WorkerShares::processShare]; [now] is the reading of the clock of the
    call.  The sum of the guard is the sum of the [uint32_t] timestamp and
    the macro: it is taken in 32 bits and then compared with the [time_t]. *)
Definition processShare (now : Z) (share : Share.t) (ws : t) : t :=
  if decide (now > u32 (Share.timestamp_ share + STATS_SLIDING_WINDOW_SECONDS))
  then ws
  else
    let ws1 :=
      if decide (Share.result_ share = Share.ACCEPT)
      then mk (workerId_ ws) (userId_ ws) (acceptCount_ ws + 1)
              (lastShareIP_ ws) (lastShareTime_ ws)
              (StatsWindow.insert (acceptShareSec_ ws)
                 (Share.timestamp_ share) (Share.share_ share))
              (rejectShareMin_ ws)
      else mk (workerId_ ws) (userId_ ws) (acceptCount_ ws)
              (lastShareIP_ ws) (lastShareTime_ ws)
              (acceptShareSec_ ws)
              (StatsWindow.insert (rejectShareMin_ ws)
                 (Share.timestamp_ share / 60) (Share.share_ share)) in
    mk (workerId_ ws1) (userId_ ws1) (acceptCount_ ws1)
       (Share.ip_ share) (Share.timestamp_ share)
       (acceptShareSec_ ws1) (rejectShareMin_ ws1).

(** [WorkerShares::isExpired]: the clock is cast to [uint32_t] and
    compared with the 32-bit sum of [lastShareTime_] and the macro. *)
Definition isExpired (now : Z) (ws : t) : bool :=
  bool_decide (u32 (lastShareTime_ ws + STATS_SLIDING_WINDOW_SECONDS) < u32 now).

End WorkerShares.

(** ** WorkerStatus *)

Module WorkerStatus.

Record t := mk {
  accept1m_ : Z;
  accept5m_ : Z;
  accept15m_ : Z;
  reject15m_ : Z;
  accept1h_ : Z;
  reject1h_ : Z;
  acceptCount_ : Z;
  lastShareIP_ : Z;
  lastShareTime_ : Z
}.

(** Modelled from the spec: the default constructor of [WorkerStatus]
    ([Statistics.h]) gives the zero-valued status. *)
Definition new : t := mk 0 0 0 0 0 0 0 0 0.

End WorkerStatus.

(** ** WorkerKey *)

(** [WorkerKey(userId, workerId)]: the pair of its two fields. *)
Module WorkerKey.
Abbreviation t := (Z * Z)%type.
Definition userId_ (k : t) : Z := fst k.
Definition workerId_ (k : t) : Z := snd k.
End WorkerKey.

(** ** The readings of the clock within [StatsServer::processShare] *)

(** [StatsServer::processShare] reads the clock for its own guard, and
    each of the three calls of [WorkerShares::processShare] that follow (on
    the aggregate of the pool, of the worker and of the user) reads it
    again. *)
Module Clock.
Record t := mk {
  server : Z;
  pool : Z;
  worker : Z;
  user : Z
}.

(** A clock that does not advance within the call. *)
Definition steady (now : Z) : t := mk now now now now.
End Clock.

(** ** StatsServer: the live registry *)

Module StatsServer.

(** The fields of [StatsServer] that hold the registry.  [workerSet_] and
    [userSet_] map to [shared_ptr<WorkerShares>]; every aggregate is owned
    by exactly one entry, so the maps hold the aggregates themselves and an
    update through the pointer is an update of the entry. *)
Record t := mk {
  totalWorkerCount_ : Z;
  totalUserCount_ : Z;
  poolWorker_ : WorkerShares.t;
  workerSet_ : gmap WorkerKey.t WorkerShares.t;
  userSet_ : gmap Z WorkerShares.t;
  userWorkerCount_ : gmap Z Z;
  lastShareTime_ : Z
}.

(** The registry part of the constructor [StatsServer::StatsServer]. *)
Definition new : t :=
  mk 0 0 (WorkerShares.new 0 0) ∅ ∅ ∅ 0.

(** [StatsServer::_processShare]; [nowWorker] and [nowUser] are the
    readings of the clock in the call of [WorkerShares::processShare] on the
    aggregate of the worker and on the aggregate of the user. *)
Definition _processShare (nowWorker nowUser : Z) (key : WorkerKey.t)
    (share : Share.t) (s : t) : t :=
  let userId := WorkerKey.userId_ key in
  let workerItr := workerSet_ s !! key in
  let userItr := userSet_ s !! userId in
  (* found: the aggregate is updated in place; not found: a fresh one *)
  let workerSet1 :=
    match workerItr with
    | Some w =>
        <[key := WorkerShares.processShare nowWorker share w]> (workerSet_ s)
    | None => workerSet_ s
    end in
  let workerShare :=
    match workerItr with
    | Some _ => None
    | None =>
        Some (WorkerShares.processShare nowWorker share
                (WorkerShares.new (Share.workerHashId_ share)
                                  (Share.userId_ share)))
    end in
  let userSet1 :=
    match userItr with
    | Some u =>
        <[userId := WorkerShares.processShare nowUser share u]> (userSet_ s)
    | None => userSet_ s
    end in
  let userShare :=
    match userItr with
    | Some _ => None
    | None =>
        Some (WorkerShares.processShare nowUser share
                (WorkerShares.new (Share.workerHashId_ share)
                                  (Share.userId_ share)))
    end in
  (* under the write lock *)
  let s1 := mk (totalWorkerCount_ s) (totalUserCount_ s) (poolWorker_ s)
               workerSet1 userSet1 (userWorkerCount_ s) (lastShareTime_ s) in
  let s2 :=
    match workerShare with
    | Some w =>
        mk (totalWorkerCount_ s1 + 1) (totalUserCount_ s1) (poolWorker_ s1)
           (<[key := w]> (workerSet_ s1)) (userSet_ s1)
           (<[WorkerKey.userId_ key :=
                default 0 (userWorkerCount_ s1 !! WorkerKey.userId_ key) + 1]>
              (userWorkerCount_ s1))
           (lastShareTime_ s1)
    | None => s1
    end in
  match userShare with
  | Some u =>
      mk (totalWorkerCount_ s2) (totalUserCount_ s2 + 1) (poolWorker_ s2)
         (workerSet_ s2) (<[userId := u]> (userSet_ s2))
         (userWorkerCount_ s2) (lastShareTime_ s2)
  | None => s2
  end.

(** [StatsServer::processShare]; the sum of the guard is taken in 32 bits,
    as in [WorkerShares::processShare]. *)
Definition processShare (clock : Clock.t) (share : Share.t) (s : t) : t :=
  let now := Clock.server clock in
  let s1 := mk (totalWorkerCount_ s) (totalUserCount_ s) (poolWorker_ s)
               (workerSet_ s) (userSet_ s) (userWorkerCount_ s)
               (Share.timestamp_ share) in
  (* ignore too old shares *)
  if decide (now > u32 (Share.timestamp_ share + STATS_SLIDING_WINDOW_SECONDS))
  then s1
  else
    let s2 := mk (totalWorkerCount_ s1) (totalUserCount_ s1)
                 (WorkerShares.processShare (Clock.pool clock) share
                    (poolWorker_ s1))
                 (workerSet_ s1) (userSet_ s1) (userWorkerCount_ s1)
                 (lastShareTime_ s1) in
    _processShare (Clock.worker clock) (Clock.user clock)
      (Share.userId_ share, Share.workerHashId_ share) share s2.

(** One turn of the first loop of [removeExpiredWorkers], at the entry
    [(key, workerShare)] of [workerSet_].  Every [isExpired] reads the
    clock; the loop visits an entry once, so that the reading at its visit
    is given by its key: [now key]. *)
Definition eraseWorker (now : WorkerKey.t -> Z) (s : t)
    (itr : WorkerKey.t * WorkerShares.t) : t :=
  let userId := WorkerKey.userId_ (fst itr) in
  if WorkerShares.isExpired (now (fst itr)) (snd itr) then
    (* userWorkerCount_[userId]--, erased when it is <= 0 *)
    let count := default 0 (userWorkerCount_ s !! userId) - 1 in
    mk (totalWorkerCount_ s - 1) (totalUserCount_ s) (poolWorker_ s)
       (delete (fst itr) (workerSet_ s)) (userSet_ s)
       (if decide (count <= 0)
        then delete userId (userWorkerCount_ s)
        else <[userId := count]> (userWorkerCount_ s))
       (lastShareTime_ s)
  else s.

(** One turn of the second loop, at the entry [(userId, workerShare)] of
    [userSet_]; [now userId] is the reading of the clock at its visit. *)
Definition eraseUser (now : Z -> Z) (s : t) (itr : Z * WorkerShares.t) : t :=
  if WorkerShares.isExpired (now (fst itr)) (snd itr) then
    mk (totalWorkerCount_ s) (totalUserCount_ s - 1) (poolWorker_ s)
       (workerSet_ s) (delete (fst itr) (userSet_ s))
       (userWorkerCount_ s) (lastShareTime_ s)
  else s.

(** [StatsServer::removeExpiredWorkers]: both loops visit every entry of
    their map once, in the map's iteration order. *)
Definition removeExpiredWorkers (nowWorker : WorkerKey.t -> Z)
    (nowUser : Z -> Z) (s : t) : t :=
  let s1 := foldl (eraseWorker nowWorker) s (map_to_list (workerSet_ s)) in
  foldl (eraseUser nowUser) s1 (map_to_list (userSet_ s1)).

(** One turn of the loop of [mergeWorkerStatus].  The six sums of the
    windows are [uint64_t] values and [acceptCount_] a [uint32_t] value
    (the status page prints them with [PRIu64] and [PRIu32]): [+=] wraps
    around. *)
Definition mergeStep (s w : WorkerStatus.t) : WorkerStatus.t :=
  let s1 :=
    WorkerStatus.mk
      (u64 (WorkerStatus.accept1m_ s + WorkerStatus.accept1m_ w))
      (u64 (WorkerStatus.accept5m_ s + WorkerStatus.accept5m_ w))
      (u64 (WorkerStatus.accept15m_ s + WorkerStatus.accept15m_ w))
      (u64 (WorkerStatus.reject15m_ s + WorkerStatus.reject15m_ w))
      (u64 (WorkerStatus.accept1h_ s + WorkerStatus.accept1h_ w))
      (u64 (WorkerStatus.reject1h_ s + WorkerStatus.reject1h_ w))
      (u32 (WorkerStatus.acceptCount_ s + WorkerStatus.acceptCount_ w))
      (WorkerStatus.lastShareIP_ s) (WorkerStatus.lastShareTime_ s) in
  if decide (WorkerStatus.lastShareTime_ w > WorkerStatus.lastShareTime_ s1)
  then WorkerStatus.mk
         (WorkerStatus.accept1m_ s1) (WorkerStatus.accept5m_ s1)
         (WorkerStatus.accept15m_ s1) (WorkerStatus.reject15m_ s1)
         (WorkerStatus.accept1h_ s1) (WorkerStatus.reject1h_ s1)
         (WorkerStatus.acceptCount_ s1)
         (WorkerStatus.lastShareIP_ w) (WorkerStatus.lastShareTime_ w)
  else s1.

(** [StatsServer::mergeWorkerStatus]. *)
Definition mergeWorkerStatus (workerStatus : list WorkerStatus.t)
    : WorkerStatus.t :=
  let s := WorkerStatus.new in
  if decide (length workerStatus = 0%nat) then s
  else foldl mergeStep s workerStatus.

End StatsServer.

(** ** Conversions between integers and [double] *)

(** The conversion of an integer to [double], rounding to nearest even
    (the specification of the kernel's own [of_uint63], at any integer). *)
Definition double_of_Z (z : Z) : float :=
  SF2Prim (binary_normalize prec emax z 0 false).

Definition INT64_MIN : Z := - 2 ^ 63.

(** The conversion of a [double] to [int64_t]: truncation toward zero.
    Outside the range of [int64_t] (and at NaN) the conversion is undefined
    in C; the value x86-64 gives there is written out. *)
Definition double_to_int64 (f : float) : Z :=
  match Prim2SF f with
  | S754_zero _ => 0
  | S754_finite sign m e =>
      let a := if decide (0 <= e) then Z.pos m * 2 ^ e
               else Z.pos m / 2 ^ (- e) in
      let v := if sign then - a else a in
      if decide (INT64_MIN <= v < 2 ^ 63) then v else INT64_MIN
  | _ => INT64_MIN
  end.

(** ** ShareStats *)

Module ShareStats.

Record t := mk {
  shareAccept_ : Z;
  shareReject_ : Z;
  rejectRate_ : float;
  earn_ : Z
}.

End ShareStats.

(** ** ShareStatsDay *)

Module ShareStatsDay.

(** The three arrays have 24 entries, one per hour. *)
Record t := mk {
  shareAccept1h_ : list Z;
  shareReject1h_ : list Z;
  score1h_ : list float;
  shareAccept1d_ : Z;
  shareReject1d_ : Z;
  score1d_ : float;
  modifyHoursFlag_ : Z
}.

(** [ShareStatsDay::ShareStatsDay]. *)
Definition new : t :=
  mk (replicate 24 0) (replicate 24 0) (replicate 24 0%float)
     0 0 0%float 0.

(** [ShareStatsDay::processShare].  [hourIdx] is a [uint32_t] below 24
    ([getHourIdx]); an index outside the arrays, which C leaves undefined,
    updates no entry here.  The counts of the hours and of the day are
    [uint64_t] values (the generators of the rows read them into
    [uint64_t] locals): [+=] wraps around. *)
Definition processShare (hourIdx : Z) (share : Share.t) (d : t) : t :=
  let i := Z.to_nat hourIdx in
  let flag := Z.lor (modifyHoursFlag_ d) (u32 (Z.shiftl 1 hourIdx)) in
  if decide (Share.result_ share = Share.ACCEPT)
  then mk (alter (fun a => u64 (a + Share.share_ share)) i (shareAccept1h_ d))
          (shareReject1h_ d)
          (alter (fun a => PrimFloat.add a (Share.score_ share)) i (score1h_ d))
          (u64 (shareAccept1d_ d + Share.share_ share))
          (shareReject1d_ d)
          (PrimFloat.add (score1d_ d) (Share.score_ share))
          flag
  else mk (shareAccept1h_ d)
          (alter (fun a => u64 (a + Share.share_ share)) i (shareReject1h_ d))
          (score1h_ d)
          (shareAccept1d_ d)
          (u64 (shareReject1d_ d + Share.share_ share))
          (score1d_ d)
          flag.

Section Earn.
(** The macro [BLOCK_REWARD], an integer constant of a header that is not
    among the sources. *)
Variable BLOCK_REWARD : Z.

(** The assignments shared by the two queries: the reject rate from the
    two counts just stored.  The counts are [uint64_t] fields (printed
    with [PRIu64]): their sum is taken in 64 bits before it is converted
    to [double]. *)
Definition rejectRate (shareAccept shareReject : Z) : float :=
  if decide (shareReject <> 0)
  then PrimFloat.div (PrimFloat.mul (double_of_Z shareReject) 1%float)
                     (double_of_Z (u64 (shareAccept + shareReject)))
  else 0%float.

(** [ShareStatsDay::getShareStatsHour]: [stats] is the caller's record,
    left as it is when [hourIdx > 23]. *)
Definition getShareStatsHour (hourIdx : Z) (d : t) (stats : ShareStats.t)
    : ShareStats.t :=
  if decide (hourIdx > 23) then stats
  else
    let i := Z.to_nat hourIdx in
    let shareAccept := default 0 (shareAccept1h_ d !! i) in
    let shareReject := default 0 (shareReject1h_ d !! i) in
    let earn :=
      double_to_int64
        (PrimFloat.mul (default 0%float (score1h_ d !! i))
                       (double_of_Z BLOCK_REWARD)) in
    ShareStats.mk shareAccept shareReject
                  (rejectRate shareAccept shareReject) earn.

(** [ShareStatsDay::getShareStatsDay]. *)
Definition getShareStatsDay (d : t) (stats : ShareStats.t) : ShareStats.t :=
  let shareAccept := shareAccept1d_ d in
  let shareReject := shareReject1d_ d in
  let earn :=
    double_to_int64
      (PrimFloat.mul (score1d_ d) (double_of_Z BLOCK_REWARD)) in
  ShareStats.mk shareAccept shareReject
                (rejectRate shareAccept shareReject) earn.
End Earn.

End ShareStatsDay.

(** ** ShareLogWriter *)

(** [getStatsFilePath(dataDir, ts)]: the file [sharelog-YYYY-MM-DD.bin] of
    the UTC day of [ts] in the data directory.  The path is represented by
    the number of the day, which the date in the name renders. *)
Definition getStatsFilePath (ts : Z) : Z := ts / 86400.

Module ShareLogWriter.

(** The writer with the files of its data directory.  [fileHandlers_] is
    the ordered [std::map<uint32_t, FILE*>]; a [FILE*] is represented by the
    path it was opened on.  [files_] maps a path to the records of the file.
    The buffering of stdio is not modelled: [fwrite] reaches the file at
    once, so that the [fflush] of the used handles and the flush inside
    [fclose] have nothing left to do. *)
Record t := mk {
  shares_ : list Share.t;
  fileHandlers_ : gmap Z Z;
  files_ : gmap Z (list Share.t)
}.

Definition fileContent (w : t) (path : Z) : list Share.t :=
  default [] (files_ w !! path).

(** [fwrite(&share, sizeof(Share), 1, f)] on a handle opened in append
    mode; [ok] is whether the call succeeds.  A call that fails adds no
    record to the file.  The source does not look at the result of the
    call. *)
Definition fwrite (ok : bool) (f : Z) (share : Share.t) (w : t) : t :=
  if ok
  then mk (shares_ w) (fileHandlers_ w)
          (<[f := fileContent w f ++ [share]]> (files_ w))
  else w.

Section Flush.
(** Whether [fopen(path, "ab")] succeeds. *)
Variable fopen_ok : Z -> bool.

(** [ShareLogWriter::getFileHandler]: the cached handle, or a new one
    opened in append mode (which creates the file when it is missing).
    When [fopen] fails the method runs [LOG(FATAL)]: [None].  A call that
    returns does not return [nullptr]. *)
Definition getFileHandler (ts : Z) (w : t) : option (Z * t) :=
  match fileHandlers_ w !! ts with
  | Some f => Some (f, w)
  | None =>
      let filePath := getStatsFilePath ts in
      if fopen_ok filePath
      then Some (filePath,
                 mk (shares_ w) (<[ts := filePath]> (fileHandlers_ w))
                    (<[filePath := fileContent w filePath]> (files_ w)))
      else None
  end.

(** Whether the [fwrite] of the share at index [i] of the buffer
    succeeds. *)
Variable fwrite_ok : nat -> bool.

(** The first loop of [flushToDisk], over the buffered shares from index
    [i] on.  [ts] is a [uint32_t]. *)
Fixpoint writeShares (i : nat) (shares : list Share.t) (w : t) : option t :=
  match shares with
  | [] => Some w
  | share :: rest =>
      let ts := u32 (Share.timestamp_ share - Share.timestamp_ share mod 86400) in
      match getFileHandler ts w with
      | None => None
      | Some (f, w1) =>
          writeShares (S i) rest (fwrite (fwrite_ok i) f share w1)
      end
  end.

(** The smallest key of the map: [fileHandlers_.begin()]. *)
Definition smallest (keys : list Z) : option Z :=
  foldr (fun k acc => Some (match acc with
                            | None => k
                            | Some a => Z.min k a
                            end)) None keys.

Definition begin (handlers : gmap Z Z) : option Z :=
  smallest (fst <$> map_to_list handlers).

(** The loop of [tryCloseOldHanders]: the keys whose handles are closed,
    in the order of the [fclose] calls, and the handles left.  Every turn
    erases an entry, so the size of the map bounds the turns. *)
Fixpoint closeOld (turns : nat) (handlers : gmap Z Z) : list Z * gmap Z Z :=
  match turns with
  | O => ([], handlers)
  | S turns' =>
      if decide (3 < size handlers)%nat then
        match begin handlers with
        | Some key =>
            let r := closeOld turns' (delete key handlers) in
            (key :: fst r, snd r)
        | None => ([], handlers)
        end
      else ([], handlers)
  end.

(** [ShareLogWriter::tryCloseOldHanders]. *)
Definition tryCloseOldHanders (w : t) : list Z * t :=
  let r := closeOld (size (fileHandlers_ w)) (fileHandlers_ w) in
  (fst r, mk (shares_ w) (snd r) (files_ w)).

(** [ShareLogWriter::flushToDisk]: the result, the keys of the handles
    closed at the end, and the writer; [None] when a [fopen] has failed
    and the process has ended.  ([getFileHandler] does not return
    [nullptr], so that the [return false] of the loop is not reached.) *)
Definition flushToDisk (w : t) : option (bool * list Z * t) :=
  match writeShares 0 (shares_ w) w with
  | None => None
  | Some w1 =>
      let w2 := mk [] (fileHandlers_ w1) (files_ w1) in
      let c := tryCloseOldHanders w2 in
      Some (true, fst c, snd c)
  end.
End Flush.

End ShareLogWriter.

(** ** ShareLogParser *)

(** Modelled from the spec: [getHourIdx] (a helper that is not among the
    sources), the hour of the UTC day: [(timestamp mod 86400) / 3600]. *)
Definition getHourIdx (ts : Z) : Z := (ts mod 86400) / 3600.

(** A stream opened for reading: its own file position indicator. *)
Module FILE.
Record t := mk {
  pos : Z
}.
End FILE.

(** [fseek(f, offset, SEEK_SET)]. *)
Definition fseek (f : FILE.t) (offset : Z) : FILE.t := FILE.mk offset.

(** The number of whole records of [size] bytes that [fread] delivers from
    position [pos] of a file of [len] bytes, [nmemb] at most.  A read error
    is [fault = Some (k, p)]: it strikes after [k] whole records and leaves
    the position indicator of the stream at an indeterminate [p]. *)
Definition freadCount (len pos size nmemb : Z) (fault : option (Z * Z)) : Z :=
  let present := Z.max 0 (Z.min nmemb ((len - pos) / size)) in
  match fault with
  | Some (k, _) => Z.min present (Z.max 0 k)
  | None => present
  end.

(** [fread(buf, size, nmemb, f)] on a file holding [content]: the number of
    whole records read, their bytes, and the stream.  Without an error the
    position of the stream has moved over every byte consumed, those of a
    trailing partial record included; after an error it is indeterminate. *)
Definition fread (content : list Byte.byte) (size nmemb : Z)
    (fault : option (Z * Z)) (f : FILE.t) : Z * list Byte.byte * FILE.t :=
  let len := Z.of_nat (length content) in
  let readNum := freadCount len (FILE.pos f) size nmemb fault in
  let consumed := Z.max 0 (Z.min (nmemb * size) (len - FILE.pos f)) in
  (readNum,
   take (Z.to_nat (readNum * size)) (drop (Z.to_nat (FILE.pos f)) content),
   match fault with
   | Some (_, p) => FILE.mk p
   | None => FILE.mk (FILE.pos f + consumed)
   end).

Module ShareLogParser.

Record t := mk {
  f_ : option FILE.t;
  lastPosition_ : Z;
  workersStats_ : gmap WorkerKey.t ShareStatsDay.t
}.

(** The constructor: no stream yet, the cursor at 0, and the entry of the
    pool. *)
Definition new : t := mk None 0 {[ (0, 0) := ShareStatsDay.new ]}.

(** [workersStats_[key]->processShare(hourIdx, share)]; the entry is
    created by [operator[]] when it is missing. *)
Definition processAt (key : WorkerKey.t) (hourIdx : Z) (share : Share.t)
    (stats : gmap WorkerKey.t ShareStatsDay.t) : gmap WorkerKey.t ShareStatsDay.t :=
  <[key := ShareStatsDay.processShare hourIdx share
             (default ShareStatsDay.new (stats !! key))]> stats.

(** [ShareLogParser::parseShare]. *)
Definition parseShare (share : Share.t)
    (stats : gmap WorkerKey.t ShareStatsDay.t) : gmap WorkerKey.t ShareStatsDay.t :=
  if negb (Share.isValid share) then stats
  else
    let wkey := (Share.userId_ share, Share.workerHashId_ share) in
    let ukey := (Share.userId_ share, 0) in
    let pkey := (0, 0) in
    let stats1 :=
      match stats !! wkey with
      | None => <[wkey := ShareStatsDay.new]> stats
      | Some _ => stats
      end in
    let stats2 :=
      match stats1 !! ukey with
      | None => <[ukey := ShareStatsDay.new]> stats1
      | Some _ => stats1
      end in
    let hourIdx := getHourIdx (Share.timestamp_ share) in
    processAt pkey hourIdx share
      (processAt ukey hourIdx share
         (processAt wkey hourIdx share stats2)).

Section Parser.
(** [kMaxElementsNum_], a constant of the class declaration. *)
Variable kMaxElementsNum_ : Z.
(** The share whose image the [sizeof(Share)] bytes are: the cast of
    [buf + sizeof(Share) * i] to a pointer to [Share]. *)
Variable decode : list Byte.byte -> Share.t.

(** [ShareLogParser::parseShareLog]: the loop over the [size] records of
    the buffer. *)
Fixpoint parseRecords (size : nat) (buf : list Byte.byte)
    (stats : gmap WorkerKey.t ShareStatsDay.t)
    : gmap WorkerKey.t ShareStatsDay.t :=
  match size with
  | O => stats
  | S size' =>
      parseRecords size' (drop (Z.to_nat Share.sizeof) buf)
        (parseShare (decode (take (Z.to_nat Share.sizeof) buf)) stats)
  end.

Definition parseShareLog (buf : list Byte.byte) (len : Z)
    (stats : gmap WorkerKey.t ShareStatsDay.t)
    : gmap WorkerKey.t ShareStatsDay.t :=
  parseRecords (Z.to_nat (len / Share.sizeof)) buf stats.

(** [ShareLogParser::processGrowingShareLog], on the file as it is at
    this tick: [file] is [None] when the file cannot be opened, [fault] is
    the read error of this tick, if any. *)
Definition processGrowingShareLog (file : option (list Byte.byte))
    (fault : option (Z * Z)) (p : t) : Z * t :=
  let opened :=
    match f_ p with
    | Some f => Some f
    | None =>
        match file with
        | Some _ => Some (FILE.mk 0)
        | None => None
        end
    end in
  match opened with
  | None => (-1, p)
  | Some f =>
      (* seek to last position. we manager the file indicator by our own. *)
      let f1 := fseek f (lastPosition_ p) in
      let r := fread (default [] file) Share.sizeof kMaxElementsNum_ fault f1 in
      let readNum := fst (fst r) in
      let buf_ := snd (fst r) in
      if decide (readNum = 0)
      then (0, mk (Some (snd r)) (lastPosition_ p) (workersStats_ p))
      else
        let bufSize := readNum * Share.sizeof in
        (readNum,
         mk (Some (snd r)) (lastPosition_ p + bufSize)
            (parseShareLog buf_ bufSize (workersStats_ p)))
  end.

(** The parser after the ticks that saw the files and read errors of
    [world], one pair per tick. *)
Definition ticks (world : list (option (list Byte.byte) * option (Z * Z))) : t :=
  foldl (fun p w => snd (processGrowingShareLog (fst w) (snd w) p)) new world.
End Parser.

End ShareLogParser.

(** ** Messages of the share-log topic *)

Module KafkaMessage.

(** The values of [rkmessage->err] that the consumers tell apart. *)
Inductive err_t :=
| RD_KAFKA_RESP_ERR_NO_ERROR
| RD_KAFKA_RESP_ERR__PARTITION_EOF
| RD_KAFKA_RESP_ERR__UNKNOWN_PARTITION
| RD_KAFKA_RESP_ERR__UNKNOWN_TOPIC
| RD_KAFKA_RESP_ERR_other.

(** The fields of [rd_kafka_message_t] that the consumers read. *)
Record t := mk {
  err : err_t;
  len : Z;
  payload : list Byte.byte
}.

End KafkaMessage.

(** ** StatsServer: status queries *)

Module StatsServerQuery.
Import StatsServer.

Section Sum.
(** [StatsWindow<T>::sum(beginRingIdx, len)], declared in [Statistics.h];
    the queries are those of the source for any such function. *)
Variable sum : StatsWindow.t -> Z -> Z -> Z.

(** [WorkerShares::getWorkerStatus], in both its forms: the one that fills
    the caller's record assigns every field of it.  [now / 60] is the
    division of C, which truncates. *)
Definition getWorkerStatus (now : Z) (ws : WorkerShares.t) : WorkerStatus.t :=
  WorkerStatus.mk
    (sum (WorkerShares.acceptShareSec_ ws) now 60)
    (sum (WorkerShares.acceptShareSec_ ws) now 300)
    (sum (WorkerShares.acceptShareSec_ ws) now 900)
    (sum (WorkerShares.rejectShareMin_ ws) (Z.quot now 60) 15)
    (sum (WorkerShares.acceptShareSec_ ws) now 3600)
    (sum (WorkerShares.rejectShareMin_ ws) (Z.quot now 60) 60)
    (WorkerShares.acceptCount_ ws)
    (WorkerShares.lastShareIP_ ws)
    (WorkerShares.lastShareTime_ ws).

(** The first loop of [getWorkerStatusBatch], at one key: the pointer
    stored in [ptrs], [None] for [nullptr].  A key whose worker id is 0 is
    looked up in [userSet_], any other in [workerSet_]. *)
Definition findShares (s : t) (key : WorkerKey.t) : option WorkerShares.t :=
  if decide (WorkerKey.workerId_ key = 0)
  then userSet_ s !! WorkerKey.userId_ key
  else workerSet_ s !! key.

(** [StatsServer::getWorkerStatusBatch]; [workerStatus] is the caller's
    vector.  [resize] keeps the entries the vector holds already and
    appends default-constructed ones; the second loop assigns the entries
    whose pointer is not null.  The clock does not advance within a
    batch. *)
Definition getWorkerStatusBatch (now : Z) (s : t) (keys : list WorkerKey.t)
    (workerStatus : list WorkerStatus.t) : list WorkerStatus.t :=
  let workerStatus1 := resize (length keys) WorkerStatus.new workerStatus in
  let ptrs := findShares s <$> keys in
  zip_with (fun ptr status =>
              match ptr with
              | Some ws => getWorkerStatus now ws
              | None => status
              end) ptrs workerStatus1.
(** One object of the reply of [StatsServer::getWorkerStatus]: the id it
    is printed under, the status, and the number after ["workers":] when
    [extraInfo] is not empty. *)
Record entry := mkEntry {
  entry_workerId : Z;
  entry_status : WorkerStatus.t;
  entry_workers : option Z
}.

(** The turn of the last loop of [getWorkerStatus] for the key
    [(userId, workerId)] and its status: [userWorkerCount_[userId]] is
    [operator[]] of the map, which adds the entry 0 when the user has
    none. *)
Definition replyEntry (isMerge : bool) (userId : Z)
    (acc : list entry * t) (ks : Z * WorkerStatus.t) : list entry * t :=
  let s := snd acc in
  if negb isMerge && bool_decide (fst ks = 0) then
    let count := default 0 (userWorkerCount_ s !! userId) in
    (fst acc ++ [mkEntry (fst ks) (snd ks) (Some count)],
     mk (totalWorkerCount_ s) (totalUserCount_ s) (poolWorker_ s)
        (workerSet_ s) (userSet_ s)
        (<[userId := count]> (userWorkerCount_ s)) (lastShareTime_ s))
  else
    (fst acc ++ [mkEntry (if isMerge then 0 else fst ks) (snd ks) None], s).

(** [StatsServer::getWorkerStatus(evb, pUserId, pWorkerId, pIsMerge)],
    from the parsed arguments on: [userId], the worker ids in the order
    of the request, and [isMerge]; the result lists the objects printed
    into the reply.  With [isMerge] the only status is the merged one, it
    is printed under the id 0 and [keys[0]] is not read. *)
Definition getWorkerStatusReply (now : Z) (userId : Z) (workerIds : list Z)
    (isMerge : bool) (s : t) : list entry * t :=
  let keys := pair userId <$> workerIds in
  let workerStatus := getWorkerStatusBatch now s keys [] in
  let workerStatus1 :=
    if isMerge then [mergeWorkerStatus workerStatus] else workerStatus in
  let ids := if isMerge then [0] else workerIds in
  foldl (replyEntry isMerge userId) ([], s) (zip ids workerStatus1).
End Sum.

(** [s.uptime_] of [getServerStatus] (of [StatsServer] and of
    [ShareLogParserServer]): the cast [(uint32_t)(time(nullptr) - uptime_)]. *)
Definition uptime (now uptime_ : Z) : Z := u32 (now - uptime_).

(** The four numbers that [httpdServerStatus] prints as
    ["%04u d %02u h %02u m %02u s"]. *)
Definition uptimeFields (uptime_ : Z) : Z * Z * Z * Z :=
  (uptime_ / 86400, (uptime_ mod 86400) / 3600, (uptime_ mod 3600) / 60,
   uptime_ mod 60).

End StatsServerQuery.

(** ** StatsServer: the shards of the flush to redis *)

Module StatsServerRedis.

(** [stepSize] of [flushWorkersToRedis] and [flushUsersToRedis]: the size
    of the map divided by [redisConcurrency_], plus one when the division
    leaves a remainder.  ([redisConcurrency_] is the number of connections,
    at least one where a flush is started.) *)
Definition stepSize (size redisConcurrency_ : nat) : nat :=
  let stepSize := (size / redisConcurrency_)%nat in
  if decide (size mod redisConcurrency_ <> 0)%nat then S stepSize else stepSize.

(** The entries that thread [threadStep] flushes, [entries] being the map
    in its iteration order: the first loop moves the iterator
    [offsetBegin] entries on, or to the end of the map; the second visits
    [stepSize] entries, or those that are left.  (The counts are [size_t];
    they are bounded by the size of a map held in memory.) *)
Definition flushedEntries {A} (entries : list A)
    (redisConcurrency_ threadStep : nat) : list A :=
  let stepSize := stepSize (length entries) redisConcurrency_ in
  let offsetBegin := (stepSize * threadStep)%nat in
  take stepSize (drop offsetBegin entries).

Import String.

(** [std::to_string] of an integer: its decimal digits, after a minus sign
    when it is negative. *)
Definition to_string (z : Z) : String.string :=
  DecimalString.NilZero.string_of_int (Z.to_int z).

Section Keys.
Variable redisKeyPrefix_ : String.string.

(** [StatsServer::getRedisKeyMiningWorker(userId, workerId)]. *)
Definition getRedisKeyMiningWorker (userId workerId : Z) : String.string :=
  (redisKeyPrefix_ ++ "mining_workers/pu/" ++ to_string userId
     ++ "/wk/" ++ to_string workerId)%string.

(** [StatsServer::getRedisKeyMiningWorker(userId)], the key of the user. *)
Definition getRedisKeyMiningWorkerAll (userId : Z) : String.string :=
  (redisKeyPrefix_ ++ "mining_workers/pu/" ++ to_string userId ++ "/all")%string.

(** [StatsServer::getRedisKeyIndex]. *)
Definition getRedisKeyIndex (userId : Z) (indexName : String.string)
    : String.string :=
  (redisKeyPrefix_ ++ "mining_workers/pu/" ++ to_string userId
     ++ "/sort/" ++ indexName)%string.
End Keys.

End StatsServerRedis.

(** ** StatsServer: the flush of the users to redis *)

Module StatsServerRedisUsers.
Import String StatsServer StatsServerRedis.

(** The calls on the connection: [redis->prepare(command)], and
    [redis->execute()] with the command whose reply the source checks the
    result as. *)
Inductive call :=
| prepare (command : list String.string)
| execute (checkedAs : String.string).

Section Flush.
Variable sum : StatsWindow.t -> Z -> Z -> Z.
(** [inet_ntop(AF_INET, ...)]: the text of an address. *)
Variable inet_ntop : Z -> String.string.
Variable redisKeyPrefix_ : String.string.
Variable redisKeyExpire_ : Z.
Variable redisPublishPolicy_ : Z.
(** A constant of [Statistics.h]. *)
Variable REDIS_PUBLISH_USER_UPDATE : Z.
Variable redisConcurrency_ : nat.

(** The turn of the first loop of [flushUsersToRedis] at the entry
    [(userId, workerShare)] of [userSet_].  [userWorkerCount_[userId]] is
    [operator[]] of the map, which adds the entry 0 when there is none. *)
Definition flushUser (now : Z) (acc : list call * t)
    (itr : Z * WorkerShares.t) : list call * t :=
  let s := snd acc in
  let userId := fst itr in
  let status := StatsServerQuery.getWorkerStatus sum now (snd itr) in
  let workerCount := default 0 (userWorkerCount_ s !! userId) in
  let key := getRedisKeyMiningWorkerAll redisKeyPrefix_ userId in
  (fst acc
     ++ [prepare
           [ "HMSET"%string; key;
             "worker_count"%string; to_string workerCount;
             "accept_1m"%string; to_string (WorkerStatus.accept1m_ status);
             "accept_5m"%string; to_string (WorkerStatus.accept5m_ status);
             "accept_15m"%string; to_string (WorkerStatus.accept15m_ status);
             "reject_15m"%string; to_string (WorkerStatus.reject15m_ status);
             "accept_1h"%string; to_string (WorkerStatus.accept1h_ status);
             "reject_1h"%string; to_string (WorkerStatus.reject1h_ status);
             "accept_count"%string; to_string (WorkerStatus.acceptCount_ status);
             "last_share_ip"%string; inet_ntop (WorkerStatus.lastShareIP_ status);
             "last_share_time"%string;
             to_string (WorkerStatus.lastShareTime_ status);
             "updated_at"%string; to_string now ]]
     ++ (if decide (redisKeyExpire_ > 0)
         then [prepare ["EXPIRE"%string; key; to_string redisKeyExpire_]]
         else [])
     ++ (if decide (Z.land redisPublishPolicy_ REDIS_PUBLISH_USER_UPDATE <> 0)
         then [prepare ["PUBLISH"%string; key; to_string workerCount]]
         else []),
   mk (totalWorkerCount_ s) (totalUserCount_ s) (poolWorker_ s)
      (workerSet_ s) (userSet_ s)
      (<[userId := workerCount]> (userWorkerCount_ s)) (lastShareTime_ s)).

(** The turn of the second loop: the replies of one user are read. *)
Definition readUser : list call :=
  [execute "HMSET"%string]
    ++ (if decide (redisKeyExpire_ > 0) then [execute "EXPIRE"%string] else [])
    ++ (if decide (Z.land redisPublishPolicy_ REDIS_PUBLISH_USER_UPDATE <> 0)
        then [execute "PUBLISH"%string] else []).

(** [StatsServer::flushUsersToRedis], by thread [threadStep]: the calls
    on the connection of the thread, in their order, and the server.  The
    clock does not advance within the flush. *)
Definition flushUsersToRedis (now : Z) (threadStep : nat) (s : t)
    : list call * t :=
  let entries :=
    flushedEntries (map_to_list (userSet_ s)) redisConcurrency_ threadStep in
  let r := foldl (flushUser now) ([], s) entries in
  let userCounter := List.length entries in
  if decide (userCounter = 0)%nat then r
  else (fst r ++ mjoin (replicate userCounter readUser), snd r).
End Flush.

End StatsServerRedisUsers.

(** ** StatsServer: the consumer thread *)

Module StatsServerThread.
Import StatsServer.

Section Consume.
(** The share whose image the payload is ([memcpy] into a [Share]). *)
Variable decode : list Byte.byte -> Share.t.

(** [StatsServer::consumeShareLog]; [clock] holds the readings of the
    clock within [processShare].  An unknown partition and an unknown topic
    run [LOG(FATAL)]: [None].  [LOG(ERROR)] and [LOG(INFO)] are not
    modelled. *)
Definition consumeShareLog (clock : Clock.t) (rkmessage : KafkaMessage.t)
    (s : t) : option t :=
  match KafkaMessage.err rkmessage with
  | KafkaMessage.RD_KAFKA_RESP_ERR_NO_ERROR =>
      if decide (KafkaMessage.len rkmessage <> Share.sizeof) then Some s
      else
        let share :=
          decode (take (Z.to_nat (KafkaMessage.len rkmessage))
                       (KafkaMessage.payload rkmessage)) in
        if negb (Share.isValid share) then Some s
        else Some (processShare clock share s)
  | KafkaMessage.RD_KAFKA_RESP_ERR__PARTITION_EOF => Some s
  | KafkaMessage.RD_KAFKA_RESP_ERR__UNKNOWN_PARTITION
  | KafkaMessage.RD_KAFKA_RESP_ERR__UNKNOWN_TOPIC => None
  | KafkaMessage.RD_KAFKA_RESP_ERR_other => Some s
  end.

(** The server with the locals of [runThreadConsume]; [isInitializing_] is
    a field of the server, set by the constructor. *)
Record loop := mkLoop {
  server : t;
  isInitializing_ : bool;
  lastCleanTime : Z;
  lastFlushDBTime : Z
}.

(** The flushes that the loop starts. *)
Inductive flush :=
| flushWorkersAndUsersToDB
| flushWorkersAndUsersToRedis.

(** The readings of the clock in one turn of the loop of
    [runThreadConsume], one for each call of [time(nullptr)] that the turn
    can reach: those within [consumeShareLog]; the test of
    [lastFlushDBTime] (one of the two tests is reached, by
    [isInitializing_]); the test of [lastShareTime_]; the test of
    [lastCleanTime]; those of [isExpired] within [removeExpiredWorkers],
    one for each entry; and the two assigned to [lastCleanTime] and to
    [lastFlushDBTime]. *)
Record readings := mkReadings {
  consuming : Clock.t;
  flushDue : Z;
  history : Z;
  cleanDue : Z;
  expiredWorker : WorkerKey.t -> Z;
  expiredUser : Z -> Z;
  cleaned : Z;
  flushed : Z
}.

(** The clock does not advance within the turn. *)
Definition steady (now : Z) : readings :=
  mkReadings (Clock.steady now) now now now (fun _ => now) (fun _ => now)
             now now.

Variable kFlushDBInterval_ : Z.
(** [poolDB_ != nullptr] and [redisGroup_.size()]. *)
Variable poolDB_ : bool.
Variable redisGroup_size : nat.

Definition kExpiredCleanInterval : Z := 60 * 30.

(** The rest of a turn of the loop, once the message is consumed and the
    server is [s1]. *)
Definition afterConsume (c : readings) (noNewShares : bool) (s1 : t) (l : loop)
    : list flush * loop :=
  if isInitializing_ l then
    if decide (lastFlushDBTime l + kFlushDBInterval_ < flushDue c) then
      if negb noNewShares && bool_decide (lastShareTime_ s1 + 60 < history c)
      then ([], mkLoop s1 true (lastCleanTime l) (flushed c))
      else ([], mkLoop s1 false (lastCleanTime l) (lastFlushDBTime l))
    else ([], mkLoop s1 true (lastCleanTime l) (lastFlushDBTime l))
  else
    let clean :=
      if decide (lastCleanTime l + kExpiredCleanInterval < cleanDue c)
      then (removeExpiredWorkers (expiredWorker c) (expiredUser c) s1,
            cleaned c)
      else (s1, lastCleanTime l) in
    if decide (lastFlushDBTime l + kFlushDBInterval_ < flushDue c) then
      ((if poolDB_ then [flushWorkersAndUsersToDB] else [])
         ++ (if decide (0 < redisGroup_size)%nat
             then [flushWorkersAndUsersToRedis] else []),
       mkLoop (fst clean) false (snd clean) (flushed c))
    else ([], mkLoop (fst clean) false (snd clean) (lastFlushDBTime l)).

(** One turn of the loop of [runThreadConsume]: [c] holds the readings of
    the clock, [rkmessage] is what the consumer returned, [None] at a
    timeout; the result lists the flushes started in this turn, and it is
    [None] when [consumeShareLog] has ended the process. *)
Definition turn (c : readings) (rkmessage : option KafkaMessage.t) (l : loop)
    : option (list flush * loop) :=
  match rkmessage with
  | Some m =>
      (fun s1 => afterConsume c false s1 l)
        <$> consumeShareLog (consuming c) m (server l)
  | None => Some (afterConsume c true (server l) l)
  end.

(** The turns of the loop at the clock readings and consumer results of
    [events], with the flushes started in their order. *)
Definition turns (events : list (readings * option KafkaMessage.t)) (l : loop)
    : option (list flush * loop) :=
  foldl (fun acc ev =>
           acc ≫= fun a =>
             (fun r => (fst a ++ fst r, snd r))
               <$> turn (fst ev) (snd ev) (snd a))
        (Some ([], l)) events.
End Consume.

End StatsServerThread.

(** ** ShareLogWriter: the consumer thread *)

Module ShareLogWriterThread.
Import ShareLogWriter.

Section Consume.
Variable decode : list Byte.byte -> Share.t.
Variable fopen_ok : Z -> bool.

(** [ShareLogWriter::consumeShareLog]: the share is pushed on the buffer
    first and popped again when it is not valid.  An unknown partition
    and an unknown topic run [LOG(FATAL)]: [None]. *)
Definition consumeShareLog (rkmessage : KafkaMessage.t) (w : t) : option t :=
  match KafkaMessage.err rkmessage with
  | KafkaMessage.RD_KAFKA_RESP_ERR_NO_ERROR =>
      if decide (KafkaMessage.len rkmessage <> Share.sizeof) then Some w
      else
        let share :=
          decode (take (Z.to_nat (KafkaMessage.len rkmessage))
                       (KafkaMessage.payload rkmessage)) in
        let w1 := mk (shares_ w ++ [share]) (fileHandlers_ w) (files_ w) in
        if negb (Share.isValid share)
        then Some (mk (removelast (shares_ w1)) (fileHandlers_ w1) (files_ w1))
        else Some w1
  | KafkaMessage.RD_KAFKA_RESP_ERR__PARTITION_EOF => Some w
  | KafkaMessage.RD_KAFKA_RESP_ERR__UNKNOWN_PARTITION
  | KafkaMessage.RD_KAFKA_RESP_ERR__UNKNOWN_TOPIC => None
  | KafkaMessage.RD_KAFKA_RESP_ERR_other => Some w
  end.

Definition kFlushDiskInterval : Z := 2.

(** The writer with the local [lastFlushTime] of [run]. *)
Record loop := mkLoop {
  writer : t;
  lastFlushTime : Z
}.

(** What one turn of the loop of [run] meets: the reading of the clock
    at the test of [lastFlushTime]; the outcomes of the [fwrite]s of the
    flush, by index in the buffer, and the reading of the clock assigned
    to [lastFlushTime] after it; and what the consumer returns, [None] at
    a timeout. *)
Record event := mkEvent {
  flushDue : Z;
  fwrite_ok : nat -> bool;
  flushed : Z;
  rkmessage : option KafkaMessage.t
}.

(** One turn of the loop of [run]: the flush when it is due, then the
    message, if the consumer returned one; [None] when the process has
    ended in the turn. *)
Definition turn (ev : event) (l : loop) : option loop :=
  let flushedLoop :=
    if bool_decide (0 < length (shares_ (writer l)))%nat
       && bool_decide (flushDue ev > kFlushDiskInterval + lastFlushTime l)
    then (fun r : bool * list Z * t => mkLoop (snd r) (flushed ev))
           <$> flushToDisk fopen_ok (fwrite_ok ev) (writer l)
    else Some l in
  flushedLoop ≫= fun l1 =>
    match rkmessage ev with
    | None => Some l1
    | Some m =>
        (fun w => mkLoop w (lastFlushTime l1)) <$> consumeShareLog m (writer l1)
    end.

(** [ShareLogWriter::run], started at [start], until [running_] is
    cleared after the turns of [events]: the writer it leaves, [None]
    when the process has ended before.  [setup_ok] is the result of
    [hlConsumer_.setup()]; [fwrite_left] gives the outcomes of the
    [fwrite]s of the flush of the shares left when the loop has ended. *)
Definition run (setup_ok : bool) (start : Z) (events : list event)
    (fwrite_left : nat -> bool) (w : t) : option t :=
  if negb setup_ok then Some w
  else
    foldl (fun acc ev => acc ≫= turn ev) (Some (mkLoop w start)) events
    ≫= fun l =>
      (* flush left shares *)
      if bool_decide (0 < length (shares_ (writer l)))%nat
      then (fun r : bool * list Z * t => snd r)
             <$> flushToDisk fopen_ok fwrite_left (writer l)
      else Some (writer l).
End Consume.

End ShareLogWriterThread.

(** ** ShareLogParser: the bulk mode and the end of the file *)

Module ShareLogParserBulk.
Import ShareLogParser.

(** [ShareLogParser::getShareStatsDayHandler]; [None] is [nullptr]. *)
Definition getShareStatsDayHandler (key : WorkerKey.t) (p : t)
    : option ShareStatsDay.t :=
  workersStats_ p !! key.

(** [ShareLogParser::isReachEOF]: [file] is the file as [fstat] sees it,
    [None] when [open] or [fstat] fails, which counts as the end. *)
Definition isReachEOF (file : option (list Byte.byte)) (p : t) : bool :=
  match file with
  | None => true
  | Some content => bool_decide (lastPosition_ p = Z.of_nat (length content))
  end.

(** Whether a call of [fread] sets the end-of-file indicator of the
    stream: it was asked for more bytes than the file holds from the
    position on.  A call that fails sets the error indicator instead. *)
Definition hitsEOF (len pos size nmemb : Z) (fault : option (Z * Z)) : bool :=
  match fault with
  | Some _ => false
  | None => bool_decide (len - pos < nmemb * size)
  end.

Section Bulk.
Variable decode : list Byte.byte -> Share.t.

Definition kElements : Z := 2000000.

(** The loop of [processUnchangedShareLog]: [turns] bounds the calls of
    [fread], [faults] lists the read errors of the calls in their order
    (none once the list is used up), [eof] is the end-of-file indicator
    of the stream, which stays set.  [None]: the loop has not ended
    within [turns] calls. *)
Fixpoint readAll (turns : nat) (content : list Byte.byte)
    (faults : list (option (Z * Z))) (f : FILE.t) (eof : bool)
    (stats : gmap WorkerKey.t ShareStatsDay.t)
    : option (gmap WorkerKey.t ShareStatsDay.t) :=
  match turns with
  | O => None
  | S turns' =>
      let fault := default None (head faults) in
      let r := fread content Share.sizeof kElements fault f in
      let readNum := fst (fst r) in
      let eof1 :=
        eof || hitsEOF (Z.of_nat (length content)) (FILE.pos f)
                 Share.sizeof kElements fault in
      if decide (readNum = 0) then
        if eof1 then Some stats
        else readAll turns' content (tail faults) (snd r) eof1 stats
      else
        readAll turns' content (tail faults) (snd r) eof1
          (parseShareLog decode (snd (fst r)) (readNum * Share.sizeof) stats)
  end.

(** [ShareLogParser::processUnchangedShareLog]: [file] is [None] when the
    file cannot be opened.  The stream is a local of the method; [f_] and
    [lastPosition_] are not used. *)
Definition processUnchangedShareLog (turns : nat)
    (file : option (list Byte.byte)) (faults : list (option (Z * Z)))
    (p : t) : option (bool * t) :=
  match file with
  | None => Some (false, p)
  | Some content =>
      (fun stats => (true, mk (f_ p) (lastPosition_ p) stats))
        <$> readAll turns content faults (FILE.mk 0) false (workersStats_ p)
  end.

Variable kMaxElementsNum_ : Z.

(** The inner loop of [runThreadShareLogParser]: calls of
    [processGrowingShareLog] until one returns 0 or less.  [world] gives
    the file and the read error that each call meets; [None]: the loop
    has not ended within these calls. *)
Fixpoint drain (world : list (option (list Byte.byte) * option (Z * Z)))
    (p : t) : option t :=
  match world with
  | [] => None
  | w :: rest =>
      let r := processGrowingShareLog kMaxElementsNum_ decode (fst w) (snd w) p in
      if decide (fst r <= 0) then Some (snd r) else drain rest (snd r)
  end.
End Bulk.

End ShareLogParserBulk.

(** ** ShareLogParser: the rows flushed to the database *)

Module ShareLogParserFlush.
Import ShareStatsDay.

(** The values that [generateHoursData] and [generateDailyData] format
    into the text of one row: the ids of [extraValues], the index of the
    hour ([None] in a row of the day; the text has the date in front of
    it), the two counts, the reject rate, the score and earn.  The two
    timestamps of the row are left out. *)
Record row := mkRow {
  row_userId : Z;
  row_workerId : Z;
  row_hour : option Z;
  row_accept : Z;
  row_reject : Z;
  row_rejectRate : float;
  row_score : float;
  row_earn : Z
}.

(** The table the rows of a key go to. *)
Inductive table := stats_workers | stats_users | stats_pool.

Definition tableOf (userId workerId : Z) : option table :=
  if decide (userId <> 0 /\ workerId <> 0) then Some stats_workers
  else if decide (userId <> 0 /\ workerId = 0) then Some stats_users
  else if decide (userId = 0 /\ workerId = 0) then Some stats_pool
  else None.

(** The six vectors of [flushToDB]. *)
Record values := mkValues {
  valuesWorkersHour : list row;
  valuesUsersHour : list row;
  valuesPoolHour : list row;
  valuesWorkersDay : list row;
  valuesUsersDay : list row;
  valuesPoolDay : list row
}.

Definition noValues : values := mkValues [] [] [] [] [] [].

(** [push_back] on the hour vector of the table. *)
Definition pushHour (tb : table) (r : row) (v : values) : values :=
  match tb with
  | stats_workers =>
      mkValues (valuesWorkersHour v ++ [r]) (valuesUsersHour v) (valuesPoolHour v)
               (valuesWorkersDay v) (valuesUsersDay v) (valuesPoolDay v)
  | stats_users =>
      mkValues (valuesWorkersHour v) (valuesUsersHour v ++ [r]) (valuesPoolHour v)
               (valuesWorkersDay v) (valuesUsersDay v) (valuesPoolDay v)
  | stats_pool =>
      mkValues (valuesWorkersHour v) (valuesUsersHour v) (valuesPoolHour v ++ [r])
               (valuesWorkersDay v) (valuesUsersDay v) (valuesPoolDay v)
  end.

(** [push_back] on the day vector of the table. *)
Definition pushDay (tb : table) (r : row) (v : values) : values :=
  match tb with
  | stats_workers =>
      mkValues (valuesWorkersHour v) (valuesUsersHour v) (valuesPoolHour v)
               (valuesWorkersDay v ++ [r]) (valuesUsersDay v) (valuesPoolDay v)
  | stats_users =>
      mkValues (valuesWorkersHour v) (valuesUsersHour v) (valuesPoolHour v)
               (valuesWorkersDay v) (valuesUsersDay v ++ [r]) (valuesPoolDay v)
  | stats_pool =>
      mkValues (valuesWorkersHour v) (valuesUsersHour v) (valuesPoolHour v)
               (valuesWorkersDay v) (valuesUsersDay v) (valuesPoolDay v ++ [r])
  end.

Section Rows.
Variable BLOCK_REWARD : Z.

(** [rejectRate] of the two generators: [(double)reject / (accept +
    reject)] when [reject] is not 0; [accept] and [reject] are [uint64_t]
    locals, and their sum is taken in 64 bits. *)
Definition rejectRate (accept reject : Z) : float :=
  if decide (reject <> 0)
  then PrimFloat.div (double_of_Z reject) (double_of_Z (u64 (accept + reject)))
  else 0%float.

(** The turn of the loop of [generateHoursData] at hour [i]. *)
Definition generateHour (d : ShareStatsDay.t) (userId workerId : Z)
    (tb : table) (v : values) (i : Z) : values :=
  let flag := u32 (Z.shiftl 1 i) in
  if decide (Z.land (modifyHoursFlag_ d) flag = 0) then v
  else
    let accept := default 0 (shareAccept1h_ d !! Z.to_nat i) in
    let reject := default 0 (shareReject1h_ d !! Z.to_nat i) in
    let score := default 0%float (score1h_ d !! Z.to_nat i) in
    let earn :=
      double_to_int64 (PrimFloat.mul score (double_of_Z BLOCK_REWARD)) in
    pushHour tb
      (mkRow userId workerId (Some i) accept reject
             (rejectRate accept reject) score earn) v.

(** [ShareLogParser::generateHoursData]: one row for every hour from 0
    to 23 whose bit is set in [modifyHoursFlag_]; nothing for a key that
    is none of worker, user and pool. *)
Definition generateHoursData (d : ShareStatsDay.t) (userId workerId : Z)
    (v : values) : values :=
  match tableOf userId workerId with
  | None => v
  | Some tb => foldl (generateHour d userId workerId tb) v (seqZ 0 24)
  end.

(** [ShareLogParser::generateDailyData]. *)
Definition generateDailyData (d : ShareStatsDay.t) (userId workerId : Z)
    (v : values) : values :=
  match tableOf userId workerId with
  | None => v
  | Some tb =>
      let accept := shareAccept1d_ d in
      let reject := shareReject1d_ d in
      let earn :=
        double_to_int64 (PrimFloat.mul (score1d_ d) (double_of_Z BLOCK_REWARD)) in
      pushDay tb
        (mkRow userId workerId None accept reject
               (rejectRate accept reject) (score1d_ d) earn) v
  end.

(** [stats[i]->modifyHoursFlag_ = 0x0u]. *)
Definition resetFlag (d : ShareStatsDay.t) : ShareStatsDay.t :=
  mk (shareAccept1h_ d) (shareReject1h_ d) (score1h_ d)
     (shareAccept1d_ d) (shareReject1d_ d) (score1d_ d) 0.

(** [ShareLogParser::flushToDB]: [ping] is the answer of the database.
    The entries with a nonzero [modifyHoursFlag_] are taken in the
    iteration order of the map; for each of them the rows are generated
    and the flag is reset.  The result holds the six vectors as they are
    handed to [flushHourOrDailyData], which talks to the database. *)
Definition flushToDB (ping : bool) (p : ShareLogParser.t)
    : bool * values * ShareLogParser.t :=
  if negb ping then (false, noValues, p)
  else
    let dirty :=
      filter (fun kv : WorkerKey.t * ShareStatsDay.t =>
                modifyHoursFlag_ (snd kv) <> 0)
             (map_to_list (ShareLogParser.workersStats_ p)) in
    let r :=
      foldl (fun acc (kv : WorkerKey.t * ShareStatsDay.t) =>
               let userId := WorkerKey.userId_ (fst kv) in
               let workerId := WorkerKey.workerId_ (fst kv) in
               (generateDailyData (snd kv) userId workerId
                  (generateHoursData (snd kv) userId workerId (fst acc)),
                <[fst kv := resetFlag (snd kv)]> (snd acc)))
            (noValues, ShareLogParser.workersStats_ p) dirty in
    (true, fst r,
     ShareLogParser.mk (ShareLogParser.f_ p) (ShareLogParser.lastPosition_ p)
                       (snd r)).
End Rows.

End ShareLogParserFlush.

(** ** ShareLogParserServer *)

Module ShareLogParserServer.

(** The fields of the server that the parser thread and the queries use. *)
Record t := mk {
  date_ : Z;
  shareLogParser_ : option ShareLogParser.t
}.

(** [ShareLogParserServer::initShareLogParser]: [init_ok] is the result
    of [parser->init()].  [%] is the remainder of C, which truncates. *)
Definition initShareLogParser (init_ok : bool) (datets : Z) (srv : t)
    : bool * t :=
  let date := datets - Z.rem datets 86400 in
  if init_ok then (true, mk date (Some ShareLogParser.new))
  else (false, mk date None).

Section Stats.
Variable BLOCK_REWARD : Z.

(** The assignment through [stats = &shareStats[i * hours.size() + j]]
    in the inner loop of [_getShareStats]. *)
Definition getShareStatsAt (currentHour : Z) (statsDay : ShareStatsDay.t)
    (hour : Z) (stats : ShareStats.t) : ShareStats.t :=
  if decide (hour = 24)
  then ShareStatsDay.getShareStatsDay BLOCK_REWARD statsDay stats
  else if decide (hour <= 0 /\ hour >= -23) then
    (* const uint32_t hourIdx = atoi(date("%H").c_str()) + hour; *)
    let hourIdx := u32 (currentHour + hour) in
    ShareStatsDay.getShareStatsHour BLOCK_REWARD hourIdx statsDay stats
  else stats.

(** [ShareLogParserServer::_getShareStats]: [currentHour] is the hour
    that [date("%H")] prints, [shareStats] the caller's vector, which
    [getShareStats] has resized to [keys.size() * hours.size()]. *)
Definition _getShareStats (currentHour : Z) (srv : t)
    (keys : list WorkerKey.t) (hours : list Z)
    (shareStats : list ShareStats.t) : list ShareStats.t :=
  match shareLogParser_ srv with
  | None => shareStats
  | Some shareLogParser =>
      foldl (fun acc (ik : nat * WorkerKey.t) =>
               match ShareLogParserBulk.getShareStatsDayHandler (snd ik) shareLogParser with
               | None => acc
               | Some statsDay =>
                   foldl (fun acc (jh : nat * Z) =>
                            alter (getShareStatsAt currentHour statsDay (snd jh))
                                  (fst ik * length hours + fst jh)%nat acc)
                         acc (imap pair hours)
               end)
            shareStats (imap pair keys)
  end.
End Stats.

Section Switch.
Variable BLOCK_REWARD : Z.

(** [ShareLogParserServer::trySwithBinFile]: [shareLogParser] is the
    parser of the thread, [oldFile] its file as [isReachEOF] finds it,
    [newFileExists] whether the file of the day of [now] exists, [ping]
    the answer of the database to [flushToDB] and [init_ok] the result of
    the [init] of the new parser.  The first component is [None] when
    [flushToDB] is not called, and otherwise the rows it generates. *)
Definition trySwithBinFile (now : Z) (oldFile : option (list Byte.byte))
    (newFileExists ping init_ok : bool)
    (shareLogParser : ShareLogParser.t) (srv : t)
    : option ShareLogParserFlush.values * t :=
  let beginTs := now - Z.rem now 86400 in
  if decide (beginTs = date_ srv) then (None, srv)
  else if bool_decide (now > beginTs + 5)
          && ShareLogParserBulk.isReachEOF oldFile shareLogParser
          && newFileExists
  then (Some (snd (fst (ShareLogParserFlush.flushToDB BLOCK_REWARD ping
                          shareLogParser))),
        snd (initShareLogParser init_ok now srv))
  else (None, srv).
End Switch.

(** [rejectRate0] and [rejectRate1] of [httpdServerStatus]: the quotient
    of the two [uint64_t] counts by their 64-bit sum, an integer division,
    converted to [double].  When the sum wraps around to 0 the division
    is by zero, which C leaves undefined: [None]. *)
Definition statusRejectRate (stats : ShareStats.t) : option float :=
  if decide (ShareStats.shareReject_ stats <> 0)
  then
    let sum :=
      u64 (ShareStats.shareAccept_ stats + ShareStats.shareReject_ stats) in
    if decide (sum = 0) then None
    else Some (double_of_Z (ShareStats.shareReject_ stats / sum))
  else Some 0%float.

(** The two lengths of time that [httpdServerStatus] hands to
    [share2HashrateT]: [now % 86400] and [now % 3600], after [now] was
    moved by two seconds when it is a multiple of 3600. *)
Definition statusWindows (now : Z) : Z * Z :=
  let now1 := if decide (Z.rem now 3600 = 0) then now + 2 else now in
  (Z.rem now1 86400, Z.rem now1 3600).

End ShareLogParserServer.

(** * Specification notions and sample inputs *)

Module WorkerSharesSpec.
Import WorkerShares.

(** A share of user 1, worker 5, sent from 10.0.0.1. *)
Definition share_at (ts result weight : Z) : Share.t :=
  Share.mk 1 5 167772161 ts weight 1%float result.

(** The aggregate of worker (1, 5) after one accepted share stamped 1059. *)
Definition ws_1059 : t :=
  processShare 1060 (share_at 1059 Share.ACCEPT 1) (new 5 1).

(** The share passes the guard of [processShare] at the reading [now] of
    the clock: it is within the horizon as the code measures it, with the
    sum of the timestamp and the horizon taken in 32 bits. *)
Definition withinHorizon (now : Z) (share : Share.t) : Prop :=
  now <= u32 (Share.timestamp_ share + STATS_SLIDING_WINDOW_SECONDS).

(** The last second of the 32-bit range of timestamps, and a clock reading
    of the year 2023. *)
Definition ts_last : Z := 2 ^ 32 - 1.
Definition now_2023 : Z := 1700000000.

End WorkerSharesSpec.

Module StatsServerSpec.
Import StatsServer.

(** The aggregates and the registry maps of [s'] are those of [s]. *)
Definition registry_unchanged (s s' : t) : Prop :=
  poolWorker_ s' = poolWorker_ s
  /\ workerSet_ s' = workerSet_ s
  /\ userSet_ s' = userSet_ s
  /\ userWorkerCount_ s' = userWorkerCount_ s
  /\ totalWorkerCount_ s' = totalWorkerCount_ s
  /\ totalUserCount_ s' = totalUserCount_ s.

(** The share reached the three aggregates of [s']: the pool's, the
    worker's and the user's, each the previous aggregate (a fresh one when
    the key was unseen) after [WorkerShares::processShare] of the share at
    its own reading of the clock. *)
Definition share_processed (clock : Clock.t) (share : Share.t) (s s' : t)
    : Prop :=
  let fresh := WorkerShares.new (Share.workerHashId_ share) (Share.userId_ share) in
  poolWorker_ s'
    = WorkerShares.processShare (Clock.pool clock) share (poolWorker_ s)
  /\ workerSet_ s' !! (Share.userId_ share, Share.workerHashId_ share)
     = Some (WorkerShares.processShare (Clock.worker clock) share
               (default fresh
                  (workerSet_ s !! (Share.userId_ share, Share.workerHashId_ share))))
  /\ userSet_ s' !! Share.userId_ share
     = Some (WorkerShares.processShare (Clock.user clock) share
               (default fresh (userSet_ s !! Share.userId_ share))).

(** The number of entries of [workerSet_] whose key has user id [u]. *)
Definition workersOf (u : Z) (m : gmap WorkerKey.t WorkerShares.t) : Z :=
  Z.of_nat (size (filter (fun kv : WorkerKey.t * WorkerShares.t =>
                            WorkerKey.userId_ (fst kv) = u) m)).

(** The sum of the values of [userWorkerCount_]. *)
Definition sumCounts (m : gmap Z Z) : Z :=
  map_fold (fun _ c acc => c + acc) 0 m.

(** The entry of [userWorkerCount_] for a user with [n] workers: none when
    the user has no worker. *)
Definition countEntry (n : Z) : option Z :=
  if decide (n = 0) then None else Some n.

(** The invariant of the registry: the totals are the sizes of the maps and
    [userWorkerCount_] counts the workers of every user. *)
Definition registry_inv (s : t) : Prop :=
  totalWorkerCount_ s = Z.of_nat (size (workerSet_ s))
  /\ totalUserCount_ s = Z.of_nat (size (userSet_ s))
  /\ forall u, userWorkerCount_ s !! u = countEntry (workersOf u (workerSet_ s)).

(** The states the server reaches from its constructor. *)
Inductive reachable : t -> Prop :=
| reachable_new : reachable new
| reachable__processShare nowWorker nowUser key share s :
    reachable s -> reachable (_processShare nowWorker nowUser key share s)
| reachable_processShare clock share s :
    reachable s -> reachable (processShare clock share s)
| reachable_removeExpiredWorkers nowWorker nowUser s :
    reachable s -> reachable (removeExpiredWorkers nowWorker nowUser s).


(** The registry after one accepted share of worker (1, 5) stamped 1059 and
    received at 1060. *)
Definition registry_1059 : t :=
  processShare (Clock.steady 1060)
    (WorkerSharesSpec.share_at 1059 Share.ACCEPT 1) new.


(** A status whose last share came from [ip] at time [ts]. *)
Definition status_at (ip ts : Z) : WorkerStatus.t :=
  WorkerStatus.mk 1 1 1 0 1 0 1 ip ts.

End StatsServerSpec.

Module ShareStatsDaySpec.
Import ShareStatsDay.

(** The sum over an hour array. *)
Definition sumHours (l : list Z) : Z := foldr Z.add 0 l.

(** The sum over the score array, added up from hour 0 to hour 23. *)
Definition sumScores (l : list float) : float := foldl PrimFloat.add 0%float l.

(** The days reached from the constructor by [processShare] with an hour
    index in [0, 23]. *)
Definition run (ops : list (Z * Share.t)) : t :=
  foldl (fun d op => processShare (fst op) (snd op) d) new ops.

Definition hours_ok (ops : list (Z * Share.t)) : Prop :=
  Forall (fun op : Z * Share.t => 0 <= fst op <= 23) ops.

(** The scores of the accepted shares of [ops], in arrival order. *)
Definition acceptedScores (ops : list (Z * Share.t)) : list float :=
  (fun op : Z * Share.t => Share.score_ (snd op))
    <$> filter (fun op : Z * Share.t => Share.result_ (snd op) = Share.ACCEPT) ops.

(** The shares of [ops] that fall in hour [h]. *)
Definition inHour (h : Z) (ops : list (Z * Share.t)) : list (Z * Share.t) :=
  filter (fun op : Z * Share.t => fst op = h) ops.

(** An accepted share of weight [w] and score [sc]. *)
Definition accepted (w : Z) (sc : float) : Share.t :=
  Share.mk 1 5 167772161 86400 w sc Share.ACCEPT.

Definition rejected (w : Z) : Share.t :=
  Share.mk 1 5 167772161 86400 w 0%float Share.REJECT.

(** Three accepted shares with scores 0.1 (hour 0), 0.2 and 0.3 (hour 1),
    the quotients 1/10, 1/5 and 3/10 rounded to [double]. *)
Definition ops_rounding : list (Z * Share.t) :=
  [ (0, accepted 1 0x1.999999999999ap-4%float);
    (1, accepted 2 0x1.999999999999ap-3%float);
    (1, accepted 3 0x1.3333333333333p-2%float) ].

(** The [double] nearest to an integer, ties to even: the conversion of
    IEEE 754, as [SpecFloat] specifies it. *)
Definition nearest (z : Z) : float :=
  SF2Prim (binary_normalize prec emax z 0 false).

(** The [double] that the processor gives for an unsigned integer below
    [2 ^ 63]: the kernel's own conversion. *)
Definition toDouble (z : Z) : float := PrimFloat.of_uint63 (Uint63.of_Z z).

(** The reject rate in the words of the specification: the quotient, in
    [double], of the reject count by the sum of the two counts when the
    reject count is nonzero, and 0 otherwise. *)
Definition rejectRateSpec (accept reject : Z) : float :=
  if decide (reject = 0) then 0%float
  else PrimFloat.div (nearest reject) (nearest (accept + reject)).

(** The same quotient with the sum of the two counts taken in 64 bits. *)
Definition rejectRate64 (accept reject : Z) : float :=
  if decide (reject = 0) then 0%float
  else PrimFloat.div (nearest reject) (nearest (u64 (accept + reject))).

(** The quotient by the 64-bit sum, with the conversions of the
    processor. *)
Definition rejectRateKernel (accept reject : Z) : float :=
  if decide (reject = 0) then 0%float
  else PrimFloat.div (toDouble reject) (toDouble (u64 (accept + reject))).

(** [n] is [f] truncated to an integer: [f] is finite, [n] has the sign of
    [f] (or is 0) and [|n| <= |f| < |n| + 1], where [|f| = m * 2 ^ e] is
    read from the IEEE 754 representation of [f]; both sides of the
    comparison are scaled by [2 ^ k] to stay in the integers. *)
Definition truncated (f : float) (n : Z) : Prop :=
  match Prim2SF f with
  | S754_zero _ => n = 0
  | S754_finite sign m e =>
      let k := Z.max 0 (- e) in
      let a := if sign then - n else n in
      0 <= a /\ a * 2 ^ k <= Z.pos m * 2 ^ (e + k) < (a + 1) * 2 ^ k
  | _ => False
  end.

(** The reject rate of a record of statistics is the one of its two
    counts: the quotient by their 64-bit sum; for a reject count and a
    64-bit sum below [2 ^ 63] the conversions to [double] are those of the
    kernel; and when the sum of the counts is below [2 ^ 64] the rate is
    the quotient of the specification. *)
Definition rate_ok (r : ShareStats.t) : Prop :=
  let accept := ShareStats.shareAccept_ r in
  let reject := ShareStats.shareReject_ r in
  ShareStats.rejectRate_ r = rejectRate64 accept reject
  /\ (0 <= reject < 2 ^ 63 -> u64 (accept + reject) < 2 ^ 63 ->
      ShareStats.rejectRate_ r = rejectRateKernel accept reject)
  /\ (0 <= accept -> 0 <= reject -> accept + reject < 2 ^ 64 ->
      ShareStats.rejectRate_ r = rejectRateSpec accept reject).

(** Earn of a record of statistics is the [double] product of [score] and
    [BLOCK_REWARD], truncated to an integer (when that is an [int64_t]
    value). *)
Definition earn_ok (BLOCK_REWARD : Z) (score : float) (r : ShareStats.t)
    : Prop :=
  forall n,
    truncated (PrimFloat.mul score (toDouble BLOCK_REWARD)) n ->
    - 2 ^ 63 <= n < 2 ^ 63 ->
    ShareStats.earn_ r = n.

(** The total weight of the accepted shares of [ops], and of the others. *)
Definition acceptedWeight (ops : list (Z * Share.t)) : Z :=
  foldr (fun op acc =>
           (if decide (Share.result_ (snd op) = Share.ACCEPT)
            then Share.share_ (snd op) else 0) + acc) 0 ops.

Definition rejectedWeight (ops : list (Z * Share.t)) : Z :=
  foldr (fun op acc =>
           (if decide (Share.result_ (snd op) = Share.ACCEPT)
            then 0 else Share.share_ (snd op)) + acc) 0 ops.

(** The weights of the shares are not negative. *)
Definition weights_ok (ops : list (Z * Share.t)) : Prop :=
  Forall (fun op : Z * Share.t => 0 <= Share.share_ (snd op)) ops.

(** A day with 3 accepted units and 1 rejected unit in hour 2, score 0.5. *)
Definition day_quarter : t :=
  run [ (2, accepted 3 0.5%float); (2, rejected 1) ].

(** A day with an accepted and a rejected share of weight [2 ^ 63] each in
    hour 0: their 64-bit sum is 0. *)
Definition day_wrapped : t :=
  run [ (0, accepted (2 ^ 63) 0.5%float); (0, rejected (2 ^ 63)) ].

(** Two accepted shares of weight [2 ^ 63], in the hours 0 and 1. *)
Definition ops_wrapped : list (Z * Share.t) :=
  [ (0, accepted (2 ^ 63) 0.5%float); (1, accepted (2 ^ 63) 0.5%float) ].

End ShareStatsDaySpec.

Module ShareLogWriterSpec.
Import ShareLogWriter.

(** The day-bucket key of a timestamp, in the words of the specification. *)
Definition dayKey (ts : Z) : Z := ts - ts mod 86400.

(** Every cached handle is open on the file of its key. *)
Definition handlers_wf (w : t) : Prop :=
  forall key f, fileHandlers_ w !! key = Some f -> f = getStatsFilePath key.

(** The timestamps are 32-bit values. *)
Definition timestamps32 (shares : list Share.t) : Prop :=
  Forall (fun share => 0 <= Share.timestamp_ share < 2 ^ 32) shares.

(** The shares of a buffer that belong to the file [path], in buffer order. *)
Definition sharesOfFile (path : Z) (shares : list Share.t) : list Share.t :=
  filter (fun share => getStatsFilePath (dayKey (Share.timestamp_ share)) = path)
         shares.

(** The shares of a buffer whose [fwrite] succeeds, the first share of
    [shares] being at index [i] of the buffer. *)
Fixpoint writtenFrom (fwrite_ok : nat -> bool) (i : nat)
    (shares : list Share.t) : list Share.t :=
  match shares with
  | [] => []
  | share :: rest =>
      (if fwrite_ok i then [share] else [])
        ++ writtenFrom fwrite_ok (S i) rest
  end.

Definition written (fwrite_ok : nat -> bool) (shares : list Share.t)
    : list Share.t :=
  writtenFrom fwrite_ok 0 shares.

(** The keys that the cache holds once the shares of the buffer are
    written, before old handles are closed: those it held and the
    day-bucket keys of the shares. *)
Definition cached (w : t) (key : Z) : Prop :=
  is_Some (fileHandlers_ w !! key)
  \/ exists share, share ∈ shares_ w /\ key = dayKey (Share.timestamp_ share).

(** A share of user 1 stamped [ts]. *)
Definition logged (ts : Z) : Share.t :=
  Share.mk 1 5 167772161 ts 1 1%float Share.ACCEPT.

(** Scenario 4 of section 8: three shares stamped 1000, 90000 and 100000. *)
Definition writer_3 : t := mk [logged 1000; logged 90000; logged 100000] ∅ ∅.

(** Five days in one buffer: the handles of the two oldest days are closed,
    the oldest first. *)
Definition writer_5 : t :=
  mk [logged 400000; logged 1000; logged 90000; logged 200000; logged 300000] ∅ ∅.

End ShareLogWriterSpec.

Module ShareLogParserSpec.
Import ShareLogParser.

(** A file of [n] zero bytes. *)
Definition zeros (n : nat) : list Byte.byte := replicate n x00.

End ShareLogParserSpec.

Module StatsServerQuerySpec.

(** The sum of a field over the statuses. *)
Definition total (f : WorkerStatus.t -> Z) (l : list WorkerStatus.t) : Z :=
  foldr (fun w acc => f w + acc) 0 l.

(** The latest [lastShareTime_] among the statuses and 0. *)
Definition latest (l : list WorkerStatus.t) : Z :=
  foldr Z.max 0 (WorkerStatus.lastShareTime_ <$> l).

(** A window summation that returns the length of the window asked for. *)
Definition sum_len : StatsWindow.t -> Z -> Z -> Z := fun _ _ len => len.

End StatsServerQuerySpec.

Module StatsServerRedisSpec.
Import String Ascii.

(** No character of the string is a slash. *)
Fixpoint no_slash (s : string) : Prop :=
  match s with
  | EmptyString => True
  | String c t => c <> "/"%char /\ no_slash t
  end.

End StatsServerRedisSpec.

Module ConsumerSpec.

(** The share that a message of the share-log topic carries: the message
    has no error and the size of a [Share], and the share passes
    [isValid]. *)
Definition shareOf (decode : list Byte.byte -> Share.t) (m : KafkaMessage.t)
    : option Share.t :=
  match KafkaMessage.err m with
  | KafkaMessage.RD_KAFKA_RESP_ERR_NO_ERROR =>
      if decide (KafkaMessage.len m = Share.sizeof) then
        let share :=
          decode (take (Z.to_nat Share.sizeof) (KafkaMessage.payload m)) in
        if Share.isValid share then Some share else None
      else None
  | _ => None
  end.

(** The errors at which the consumers end the process. *)
Definition fatal (m : KafkaMessage.t) : bool :=
  match KafkaMessage.err m with
  | KafkaMessage.RD_KAFKA_RESP_ERR__UNKNOWN_PARTITION
  | KafkaMessage.RD_KAFKA_RESP_ERR__UNKNOWN_TOPIC => true
  | _ => false
  end.

(** None of the messages that the consumer returned is fatal. *)
Definition no_fatal (messages : list (option KafkaMessage.t)) : Prop :=
  Forall (fun rkmessage : option KafkaMessage.t =>
            forall m, rkmessage = Some m -> fatal m = false) messages.

(** A decoder that reads the timestamp from the first byte of the image
    and the weight from the second.  *)
Definition decode_ts (buf : list Byte.byte) : Share.t :=
  Share.mk 1 5 167772161
    (Z.of_N (Byte.to_N (default x00 (buf !! 0%nat))) * 10000)
    (Z.of_N (Byte.to_N (default x00 (buf !! 1%nat))))
    1%float Share.ACCEPT.

(** A message of 48 bytes whose first two bytes are [b0] and [b1]. *)
Definition message (b0 b1 : Byte.byte) : KafkaMessage.t :=
  KafkaMessage.mk KafkaMessage.RD_KAFKA_RESP_ERR_NO_ERROR 48
    (b0 :: b1 :: replicate 46 x00).

(** A message that is one byte short, and the end of the partition. *)
Definition message_short : KafkaMessage.t :=
  KafkaMessage.mk KafkaMessage.RD_KAFKA_RESP_ERR_NO_ERROR 47 (replicate 47 x01).

Definition message_eof : KafkaMessage.t :=
  KafkaMessage.mk KafkaMessage.RD_KAFKA_RESP_ERR__PARTITION_EOF 0 [].

(** The topic is unknown to the broker. *)
Definition message_unknown_topic : KafkaMessage.t :=
  KafkaMessage.mk KafkaMessage.RD_KAFKA_RESP_ERR__UNKNOWN_TOPIC 0 [].

(** A turn of the loop of the writer at which the clock reads [now] and
    every [fwrite] succeeds. *)
Definition at_time (now : Z) (rkmessage : option KafkaMessage.t)
    : ShareLogWriterThread.event :=
  ShareLogWriterThread.mkEvent now (fun _ => true) now rkmessage.

(** Turns of the loop of the writer: a share of day 0, a short message, a
    share of day 1, the end of the partition, a timeout, and a second
    share of day 0. *)
Definition events_6 : list ShareLogWriterThread.event :=
  [ at_time 5 (Some (message x01 x01)); at_time 6 (Some message_short);
    at_time 9 (Some (message x09 x01)); at_time 9 (Some message_eof);
    at_time 12 None; at_time 13 (Some (message x01 x02)) ].

End ConsumerSpec.

Module ShareLogParserReplaySpec.
Import ShareStatsDay ShareStatsDaySpec.

(** The integer part of the invariant of a day: three arrays of 24 hours,
    and the totals of the day are the sums over the hours, taken in 64
    bits as the counters are. *)
Definition day_ok (d : ShareStatsDay.t) : Prop :=
  length (shareAccept1h_ d) = 24%nat
  /\ length (shareReject1h_ d) = 24%nat
  /\ length (score1h_ d) = 24%nat
  /\ u64 (sumHours (shareAccept1h_ d)) = shareAccept1d_ d
  /\ u64 (sumHours (shareReject1h_ d)) = shareReject1d_ d.

(** The statistics after [parseShare] of the shares, one after the other. *)
Definition replay (shares : list Share.t)
    (stats : gmap WorkerKey.t ShareStatsDay.t) : gmap WorkerKey.t ShareStatsDay.t :=
  foldl (fun stats share => ShareLogParser.parseShare share stats) stats shares.

(** The valid shares among [shares], each with the index of its hour. *)
Definition opsOf (shares : list Share.t) : list (Z * Share.t) :=
  (fun share => (getHourIdx (Share.timestamp_ share), share))
    <$> filter (fun share => Share.isValid share = true) shares.

(** A share of user [u] and worker [w], accepted, of weight 2, stamped
    90000 (hour 1). *)
Definition share_of (u w : Z) : Share.t :=
  Share.mk u w 167772161 90000 2 0.5%float Share.ACCEPT.

End ShareLogParserReplaySpec.

Module ShareLogParserFlushSpec.
Import ShareStatsDay ShareLogParserFlush.

(** The vector of the table that takes the rows of the hours, and the one
    that takes the row of the day. *)
Definition hourVector (tb : table) (v : values) : list row :=
  match tb with
  | stats_workers => valuesWorkersHour v
  | stats_users => valuesUsersHour v
  | stats_pool => valuesPoolHour v
  end.

Definition dayVector (tb : table) (v : values) : list row :=
  match tb with
  | stats_workers => valuesWorkersDay v
  | stats_users => valuesUsersDay v
  | stats_pool => valuesPoolDay v
  end.


(** The numbers of a row as a record of [ShareStats]. *)
Definition numbers (r : row) : ShareStats.t :=
  ShareStats.mk (row_accept r) (row_reject r) (row_rejectRate r) (row_earn r).

(** A parser that holds the pool, user 7 and worker (7, 3) after one
    share, and user 0 worker 9 after another. *)
Definition parser_2 : ShareLogParser.t :=
  ShareLogParser.mk None 96
    (ShareLogParser.parseShare (ShareLogParserReplaySpec.share_of 0 9)
       (ShareLogParser.parseShare (ShareLogParserReplaySpec.share_of 7 3)
          (ShareLogParser.workersStats_ ShareLogParser.new))).

End ShareLogParserFlushSpec.

Module ShareLogParserBulkSpec.

(** The number of whole records of a file. *)
Definition records (content : list Byte.byte) : nat :=
  Z.to_nat (Z.of_nat (length content) / Share.sizeof).

(** The same file and no read error at each of [k] calls. *)
Definition steady (k : nat) (content : list Byte.byte)
    : list (option (list Byte.byte) * option (Z * Z)) :=
  replicate k (Some content, None).

End ShareLogParserBulkSpec.

Module ShareLogParserServerSpec.
Import ShareLogParserServer.

(** A server whose parser holds the day [ShareStatsDaySpec.day_quarter]
    for the pool. *)
Definition server_quarter : t :=
  mk 86400
     (Some (ShareLogParser.mk None 96
              {[ (0, 0) := ShareStatsDaySpec.day_quarter ]})).

(** The day, the hour three hours back and the hour six hours back. *)
Definition hours_3 : list Z := [24; -3; -6].

(** A record that no query has written. *)
Definition untouched : ShareStats.t := ShareStats.mk 7 7 1%float 7.

End ShareLogParserServerSpec.

Module StatsServerReplySpec.
Import StatsServer.

(** The server [s] with [userWorkerCount_] replaced. *)
Definition withCounts (s : t) (counts : gmap Z Z) : t :=
  mk (totalWorkerCount_ s) (totalUserCount_ s) (poolWorker_ s)
     (workerSet_ s) (userSet_ s) counts (lastShareTime_ s).

End StatsServerReplySpec.

Module StatsServerRedisUsersSpec.
Import String StatsServerRedisUsers.

(** The name of the command that a call prepares. *)
Definition prepared (c : call) : option string :=
  match c with
  | prepare command => head command
  | execute _ => None
  end.

(** The command as whose reply a call checks what it reads. *)
Definition checked (c : call) : option string :=
  match c with
  | prepare _ => None
  | execute checkedAs => Some checkedAs
  end.

(** The key of an [HMSET] that a call prepares. *)
Definition keyOf (c : call) : option string :=
  match c with
  | prepare (name :: key :: _) =>
      if String.eqb name "HMSET" then Some key else None
  | _ => None
  end.

(** A registry with the users 1, 2 and 3. *)
Definition registry_3 : StatsServer.t :=
  StatsServer.processShare (Clock.steady 1060)
    (Share.mk 3 5 167772161 1059 1 1%float Share.ACCEPT)
    (StatsServer.processShare (Clock.steady 1060)
       (Share.mk 2 5 167772161 1059 1 1%float Share.ACCEPT)
       (StatsServer.processShare (Clock.steady 1060)
          (Share.mk 1 5 167772161 1059 1 1%float Share.ACCEPT) StatsServer.new)).

End StatsServerRedisUsersSpec.

(** * Properties *)

Module WorkerSharesFacts.
Import WorkerShares WorkerSharesSpec.

Example processShare_accept_1059 :
  acceptCount_ ws_1059 = 1 /\ lastShareTime_ ws_1059 = 1059.
Proof. split; reflexivity. Qed.

(** The guard of [processShare] in the form the specification uses, for
    a timestamp that leaves room for the horizon below [2 ^ 32]. *)
Lemma withinHorizon_horizon now share :
  0 <= Share.timestamp_ share ->
  Share.timestamp_ share + STATS_SLIDING_WINDOW_SECONDS < 2 ^ 32 ->
  withinHorizon now share
  <-> now - Share.timestamp_ share <= STATS_SLIDING_WINDOW_SECONDS.
Proof.
  intros Hts Hfit. unfold withinHorizon, u32.
  rewrite Z.mod_small; [lia|].
  unfold STATS_SLIDING_WINDOW_SECONDS in *. lia.
Qed.

(** In the last hour of the 32-bit range the sum of the guard wraps
    around: the share is within the horizon only for a clock reading of
    the first hour of 1970. *)
Lemma withinHorizon_wrapped now share :
  2 ^ 32 - STATS_SLIDING_WINDOW_SECONDS <= Share.timestamp_ share < 2 ^ 32 ->
  withinHorizon now share
  <-> now <= Share.timestamp_ share + STATS_SLIDING_WINDOW_SECONDS - 2 ^ 32.
Proof.
  intros Hts. unfold withinHorizon, u32, STATS_SLIDING_WINDOW_SECONDS in *.
  replace (Share.timestamp_ share + 3600)
    with (Share.timestamp_ share + 3600 - 2 ^ 32 + 1 * 2 ^ 32) by lia.
  rewrite Z.mod_add, Z.mod_small by lia. lia.
Qed.

Lemma processShare_skip now share ws :
  ~ withinHorizon now share -> processShare now share ws = ws.
Proof.
  unfold withinHorizon. intros Hold. unfold processShare.
  destruct (decide _) as [_|Hn]; [reflexivity | lia].
Qed.

Lemma processShare_within now share ws :
  withinHorizon now share ->
  processShare now share ws =
    if decide (Share.result_ share = Share.ACCEPT)
    then mk (workerId_ ws) (userId_ ws) (acceptCount_ ws + 1)
            (Share.ip_ share) (Share.timestamp_ share)
            (StatsWindow.insert (acceptShareSec_ ws)
               (Share.timestamp_ share) (Share.share_ share))
            (rejectShareMin_ ws)
    else mk (workerId_ ws) (userId_ ws) (acceptCount_ ws)
            (Share.ip_ share) (Share.timestamp_ share)
            (acceptShareSec_ ws)
            (StatsWindow.insert (rejectShareMin_ ws)
               (Share.timestamp_ share / 60) (Share.share_ share)).
Proof.
  unfold withinHorizon. intros Hin. unfold processShare.
  destruct (decide (now > _)) as [Hgt|_]; [lia|].
  destruct (decide (Share.result_ share = _)); reflexivity.
Qed.

(** C1, as the code has it: a share that passes the guard (it is within
    the horizon, the sum of the guard being taken in 32 bits) overwrites
    [lastShareTime_] (and [lastShareIP_]) with its own timestamp (and ip),
    whatever the previous value; the result is the maximum of the previous
    value and the timestamp only when the share is not older than the
    previous one.  For a timestamp below [2 ^ 32 - horizon] the guard is
    [now - timestamp <= horizon]. *)
Theorem processShare_lastShareTime now share ws :
  withinHorizon now share ->
  lastShareTime_ (processShare now share ws) = Share.timestamp_ share
  /\ lastShareIP_ (processShare now share ws) = Share.ip_ share
  /\ (lastShareTime_ (processShare now share ws)
        = Z.max (lastShareTime_ ws) (Share.timestamp_ share)
      <-> lastShareTime_ ws <= Share.timestamp_ share)
  /\ (0 <= Share.timestamp_ share ->
      Share.timestamp_ share + STATS_SLIDING_WINDOW_SECONDS < 2 ^ 32 ->
      now - Share.timestamp_ share <= STATS_SLIDING_WINDOW_SECONDS).
Proof.
  intros Hin. rewrite (processShare_within _ _ _ Hin).
  split; [|split; [|split]].
  - destruct (decide _); reflexivity.
  - destruct (decide _); reflexivity.
  - destruct (decide _); simpl; lia.
  - intros Hts Hfit. apply withinHorizon_horizon; assumption.
Qed.

Lemma processShare_lastShareTime_witness :
  lastShareTime_ (processShare 1060 (share_at 1000 Share.ACCEPT 1) ws_1059) = 1000
  /\ lastShareIP_ (processShare 1060 (share_at 1000 Share.ACCEPT 1) ws_1059) = 167772161
  /\ (lastShareTime_ (processShare 1060 (share_at 1000 Share.ACCEPT 1) ws_1059)
        = Z.max (lastShareTime_ ws_1059) 1000
      <-> lastShareTime_ ws_1059 <= 1000)
  /\ (0 <= 1000 -> 1000 + STATS_SLIDING_WINDOW_SECONDS < 2 ^ 32 ->
      1060 - 1000 <= STATS_SLIDING_WINDOW_SECONDS).
Proof.
  apply (processShare_lastShareTime 1060 (share_at 1000 Share.ACCEPT 1) ws_1059).
  vm_compute. discriminate.
Defined.

(** C1 fails as stated: with [lastShareTime_ = 1059], a share stamped 1000
    arriving at 1060 (within the horizon) sets [lastShareTime_] back to
    1000, below the maximum 1059. *)
Lemma lastShareTime_not_clamped :
  1060 - Share.timestamp_ (share_at 1000 Share.ACCEPT 1)
    <= STATS_SLIDING_WINDOW_SECONDS
  /\ lastShareTime_ ws_1059 = 1059
  /\ lastShareTime_ (processShare 1060 (share_at 1000 Share.ACCEPT 1) ws_1059)
       <> Z.max (lastShareTime_ ws_1059)
                (Share.timestamp_ (share_at 1000 Share.ACCEPT 1))
  /\ lastShareTime_ (processShare 1060 (share_at 1000 Share.ACCEPT 1) ws_1059)
       < lastShareTime_ ws_1059.
Proof. vm_compute. repeat split; discriminate. Qed.

(** C3, as the code has it: a share that passes the guard (it is within
    the horizon, the sum of the guard being taken in 32 bits) and is ACCEPT
    raises [acceptCount_] by exactly one and is inserted, with its weight,
    into the per-second accept window at slot [timestamp_]; one that is
    REJECT leaves [acceptCount_] as it was and is inserted into the
    per-minute reject window at slot [timestamp_ / 60].  The other window
    is untouched in each case.  A share that does not pass the guard
    leaves the aggregate as it was.  For a timestamp below
    [2 ^ 32 - horizon] the guard is [now - timestamp <= horizon]. *)
Theorem processShare_counts now share ws :
  (withinHorizon now share ->
   (Share.result_ share = Share.ACCEPT ->
      acceptCount_ (processShare now share ws) = acceptCount_ ws + 1
      /\ acceptShareSec_ (processShare now share ws)
         = StatsWindow.insert (acceptShareSec_ ws)
             (Share.timestamp_ share) (Share.share_ share)
      /\ rejectShareMin_ (processShare now share ws) = rejectShareMin_ ws)
   /\ (Share.result_ share = Share.REJECT ->
      acceptCount_ (processShare now share ws) = acceptCount_ ws
      /\ rejectShareMin_ (processShare now share ws)
         = StatsWindow.insert (rejectShareMin_ ws)
             (Share.timestamp_ share / 60) (Share.share_ share)
      /\ acceptShareSec_ (processShare now share ws) = acceptShareSec_ ws))
  /\ (~ withinHorizon now share -> processShare now share ws = ws)
  /\ (0 <= Share.timestamp_ share ->
      Share.timestamp_ share + STATS_SLIDING_WINDOW_SECONDS < 2 ^ 32 ->
      (withinHorizon now share
       <-> now - Share.timestamp_ share <= STATS_SLIDING_WINDOW_SECONDS)).
Proof.
  split; [|split; [apply processShare_skip | apply withinHorizon_horizon]].
  intros Hin. rewrite (processShare_within _ _ _ Hin).
  split; intros Hres; destruct (decide _) as [Hacc|Hrej]; simpl;
    try (repeat split; reflexivity).
  - congruence.
  - rewrite Hres in Hacc. discriminate.
Qed.

(** An accepted and a rejected share, stamped 1000 and received at 1060,
    on the aggregate last stamped 1059. *)
Lemma processShare_counts_witness :
  (acceptCount_ (processShare 1060 (share_at 1000 Share.ACCEPT 7) ws_1059)
     = acceptCount_ ws_1059 + 1
   /\ acceptShareSec_ (processShare 1060 (share_at 1000 Share.ACCEPT 7) ws_1059)
      = StatsWindow.insert (acceptShareSec_ ws_1059) 1000 7
   /\ rejectShareMin_ (processShare 1060 (share_at 1000 Share.ACCEPT 7) ws_1059)
      = rejectShareMin_ ws_1059)
  /\ (acceptCount_ (processShare 1060 (share_at 1000 Share.REJECT 10) ws_1059)
        = acceptCount_ ws_1059
      /\ rejectShareMin_ (processShare 1060 (share_at 1000 Share.REJECT 10) ws_1059)
         = StatsWindow.insert (rejectShareMin_ ws_1059) (1000 / 60) 10
      /\ acceptShareSec_ (processShare 1060 (share_at 1000 Share.REJECT 10) ws_1059)
         = acceptShareSec_ ws_1059).
Proof.
  split.
  - apply (processShare_counts 1060 (share_at 1000 Share.ACCEPT 7) ws_1059);
      [vm_compute; discriminate | reflexivity].
  - apply (processShare_counts 1060 (share_at 1000 Share.REJECT 10) ws_1059);
      [vm_compute; discriminate | reflexivity].
Defined.

(** C3 fails as stated: an accepted share stamped in the last second of
    the 32-bit range and received in 2023 has [now - timestamp <= horizon]
    (the difference is negative), yet the 32-bit sum of the guard is 3599,
    the share is skipped, and [acceptCount_] stays as it was. *)
Lemma processShare_counts_wrapped :
  now_2023 - Share.timestamp_ (share_at ts_last Share.ACCEPT 1)
    <= STATS_SLIDING_WINDOW_SECONDS
  /\ Share.result_ (share_at ts_last Share.ACCEPT 1) = Share.ACCEPT
  /\ Share.isValid (share_at ts_last Share.ACCEPT 1) = true
  /\ u32 (Share.timestamp_ (share_at ts_last Share.ACCEPT 1)
          + STATS_SLIDING_WINDOW_SECONDS) = 3599
  /\ processShare now_2023 (share_at ts_last Share.ACCEPT 1) ws_1059 = ws_1059
  /\ acceptCount_ (processShare now_2023 (share_at ts_last Share.ACCEPT 1) ws_1059)
     <> acceptCount_ ws_1059 + 1.
Proof.
  split; [vm_compute; discriminate|]. split; [reflexivity|].
  split; [reflexivity|]. split; [reflexivity|].
  assert (Hskip : processShare now_2023 (share_at ts_last Share.ACCEPT 1) ws_1059
                  = ws_1059).
  { apply processShare_skip. vm_compute. intros H. apply H. reflexivity. }
  split; [exact Hskip|]. rewrite Hskip. vm_compute. discriminate.
Qed.

(** Scenario 2 of section 8: rejected shares do not move [acceptCount_]. *)
Example processShare_reject_example :
  acceptCount_ (processShare 1060 (share_at 1057 Share.REJECT 10)
                  (processShare 1060 (share_at 1055 Share.REJECT 10) ws_1059)) = 1
  /\ StatsWindow.elements_
       (rejectShareMin_ (processShare 1060 (share_at 1057 Share.REJECT 10)
                           (processShare 1060 (share_at 1055 Share.REJECT 10) ws_1059)))
     !! 17 = Some (17, 20).
Proof. vm_compute. split; reflexivity. Qed.

End WorkerSharesFacts.

Module StatsWindowFacts.
Import StatsWindow.

(** An insertion of a positive value is visible in the window. *)
Lemma insert_changes w ringIdx val : 0 < val -> insert w ringIdx val <> w.
Proof.
  intros Hval Heq.
  assert (Hl : elements_ (insert w ringIdx val) !! (ringIdx mod windowSize_ w)
               = elements_ w !! (ringIdx mod windowSize_ w)) by (rewrite Heq; reflexivity).
  unfold insert in Hl.
  destruct (elements_ w !! (ringIdx mod windowSize_ w)) as [[key acc]|] eqn:Hb.
  - destruct (decide (key = ringIdx)) as [->|Hne]; simpl in Hl;
      rewrite lookup_insert_eq in Hl; inversion Hl; [lia | congruence].
  - simpl in Hl. rewrite lookup_insert_eq in Hl. discriminate.
Qed.

End StatsWindowFacts.

Module StatsServerFacts.
Import StatsServer StatsServerSpec WorkerSharesSpec.

Lemma processShare_old clock share s :
  ~ withinHorizon (Clock.server clock) share ->
  registry_unchanged s (processShare clock share s)
  /\ lastShareTime_ (processShare clock share s) = Share.timestamp_ share.
Proof.
  unfold withinHorizon. intros Hold. unfold processShare.
  destruct (decide _) as [_|Hn]; [|lia].
  unfold registry_unchanged; simpl. repeat split; reflexivity.
Qed.

Lemma _processShare_lookup nowWorker nowUser key share s :
  let fresh := WorkerShares.new (Share.workerHashId_ share) (Share.userId_ share) in
  workerSet_ (_processShare nowWorker nowUser key share s) !! key
    = Some (WorkerShares.processShare nowWorker share
              (default fresh (workerSet_ s !! key)))
  /\ userSet_ (_processShare nowWorker nowUser key share s) !! WorkerKey.userId_ key
    = Some (WorkerShares.processShare nowUser share
              (default fresh (userSet_ s !! WorkerKey.userId_ key)))
  /\ poolWorker_ (_processShare nowWorker nowUser key share s) = poolWorker_ s.
Proof.
  unfold _processShare.
  destruct (workerSet_ s !! key) as [w|] eqn:Hw;
    destruct (userSet_ s !! WorkerKey.userId_ key) as [u|] eqn:Hu; simpl;
    rewrite ?lookup_insert_eq; repeat split; reflexivity.
Qed.

Lemma processShare_unfold clock share s :
  withinHorizon (Clock.server clock) share ->
  processShare clock share s =
    _processShare (Clock.worker clock) (Clock.user clock)
      (Share.userId_ share, Share.workerHashId_ share) share
      (mk (totalWorkerCount_ s) (totalUserCount_ s)
          (WorkerShares.processShare (Clock.pool clock) share (poolWorker_ s))
          (workerSet_ s) (userSet_ s) (userWorkerCount_ s)
          (Share.timestamp_ share)).
Proof.
  unfold withinHorizon. intros Hin. unfold processShare.
  destruct (decide _) as [Hgt|_]; [lia | reflexivity].
Qed.

Lemma processShare_fresh clock share s :
  withinHorizon (Clock.server clock) share ->
  share_processed clock share s (processShare clock share s).
Proof.
  intros Hin. rewrite (processShare_unfold _ _ _ Hin).
  unfold share_processed.
  match goal with |- context [_processShare ?nw ?nu ?k share ?s2] =>
    destruct (_processShare_lookup nw nu k share s2) as (Hw & Hu & Hp) end.
  simpl in Hw, Hu, Hp. rewrite Hw, Hu, Hp. repeat split; reflexivity.
Qed.

(** A valid share that passes the guard changes the aggregate. *)
Lemma processShare_visible now share ws :
  Share.isValid share = true ->
  withinHorizon now share ->
  WorkerShares.processShare now share ws <> ws.
Proof.
  intros Hvalid Hin Heq.
  rewrite (WorkerSharesFacts.processShare_within _ _ _ Hin) in Heq.
  unfold Share.isValid in Hvalid.
  apply andb_prop in Hvalid as [_ Hweight]. apply bool_decide_eq_true in Hweight.
  destruct (decide _) as [Hacc|Hrej].
  - assert (Hc : WorkerShares.acceptCount_ ws + 1 = WorkerShares.acceptCount_ ws)
      by (rewrite <- Heq at 2; reflexivity).
    lia.
  - assert (Hr : StatsWindow.insert (WorkerShares.rejectShareMin_ ws)
                   (Share.timestamp_ share / 60) (Share.share_ share)
                 = WorkerShares.rejectShareMin_ ws)
      by (rewrite <- Heq at 2; reflexivity).
    exact (StatsWindowFacts.insert_changes _ _ _ Hweight Hr).
Qed.

(** C6, as the code has it: [processShare] skips a share, leaving the
    pool, worker and user aggregates, the registry maps and the counters
    as they were, when the share does not pass the guard at the reading
    [now] of the clock (it is beyond the horizon, the sum of the guard
    being taken in 32 bits), and otherwise hands it to the three
    aggregates, each of which reads the clock again; for a valid share
    that also passes the guard of the pool's aggregate, the registry is
    unchanged exactly when the share is beyond the horizon.  For a
    timestamp below [2 ^ 32 - horizon] the guard is
    [now - timestamp <= horizon]: at the boundary, with a clock that does
    not advance within the call, a share stamped [now - horizon] is applied
    and one stamped [now - horizon - 1] is skipped. *)
Theorem processShare_horizon clock share s :
  let now := Clock.server clock in
  (~ withinHorizon now share ->
     registry_unchanged s (processShare clock share s))
  /\ (withinHorizon now share ->
      share_processed clock share s (processShare clock share s))
  /\ (Share.isValid share = true ->
      withinHorizon (Clock.pool clock) share ->
      (registry_unchanged s (processShare clock share s)
       <-> ~ withinHorizon now share))
  /\ (0 <= Share.timestamp_ share ->
      Share.timestamp_ share + STATS_SLIDING_WINDOW_SECONDS < 2 ^ 32 ->
      (withinHorizon now share
       <-> now - Share.timestamp_ share <= STATS_SLIDING_WINDOW_SECONDS))
  /\ (forall t,
        0 <= Share.timestamp_ share ->
        Share.timestamp_ share + STATS_SLIDING_WINDOW_SECONDS < 2 ^ 32 ->
        (Share.timestamp_ share = t - STATS_SLIDING_WINDOW_SECONDS ->
           share_processed (Clock.steady t) share s
             (processShare (Clock.steady t) share s))
        /\ (Share.timestamp_ share = t - STATS_SLIDING_WINDOW_SECONDS - 1 ->
           registry_unchanged s (processShare (Clock.steady t) share s))).
Proof.
  cbv zeta. split; [|split; [|split; [|split]]].
  - intros Hold. apply processShare_old, Hold.
  - apply processShare_fresh.
  - intros Hvalid Hpool. split.
    + intros Hsame Hin.
      destruct (processShare_fresh clock share s Hin) as (Hpool' & _).
      destruct Hsame as (Hsame & _). rewrite Hpool' in Hsame.
      exact (processShare_visible _ _ _ Hvalid Hpool Hsame).
    + intros Hold. apply processShare_old, Hold.
  - apply WorkerSharesFacts.withinHorizon_horizon.
  - intros t Hts Hfit. split; intros Heq.
    + apply processShare_fresh. simpl.
      apply WorkerSharesFacts.withinHorizon_horizon; [assumption..|lia].
    + apply processShare_old. simpl.
      rewrite WorkerSharesFacts.withinHorizon_horizon by assumption. lia.
Qed.

(** C6 fails as stated: a valid share stamped in the last second of the
    32-bit range and received in 2023 has [now - timestamp <= horizon],
    yet it is skipped: the 32-bit sum of the guard is 3599. *)
Lemma processShare_horizon_wrapped :
  now_2023 - Share.timestamp_ (share_at ts_last Share.ACCEPT 1)
    <= STATS_SLIDING_WINDOW_SECONDS
  /\ Share.isValid (share_at ts_last Share.ACCEPT 1) = true
  /\ registry_unchanged registry_1059
       (processShare (Clock.steady now_2023) (share_at ts_last Share.ACCEPT 1)
          registry_1059).
Proof.
  split; [vm_compute; discriminate|]. split; [reflexivity|].
  apply processShare_old. vm_compute. intros H. apply H. reflexivity.
Qed.

(** *** The registry counters *)

Lemma workersOf_nonneg u m : 0 <= workersOf u m.
Proof. unfold workersOf. lia. Qed.

Lemma workersOf_insert_new u m k w :
  m !! k = None ->
  workersOf u (<[k := w]> m)
  = workersOf u m + (if decide (WorkerKey.userId_ k = u) then 1 else 0).
Proof.
  intros Hk. unfold workersOf. rewrite map_filter_insert. simpl.
  destruct (decide (WorkerKey.userId_ k = u)) as [Hu|Hu].
  - rewrite map_size_insert_None; [lia|].
    apply map_lookup_filter_None. left. exact Hk.
  - rewrite (delete_id _ _ Hk). lia.
Qed.

Lemma workersOf_insert_old u m k w :
  is_Some (m !! k) -> workersOf u (<[k := w]> m) = workersOf u m.
Proof.
  intros [w0 Hk]. unfold workersOf. rewrite map_filter_insert. simpl.
  destruct (decide (WorkerKey.userId_ k = u)) as [Hu|Hu].
  - rewrite map_size_insert_Some; [reflexivity|].
    exists w0. apply map_lookup_filter_Some. split; assumption.
  - rewrite map_filter_delete, delete_id; [reflexivity|].
    apply map_lookup_filter_None. right. intros x _ HP. exact (Hu HP).
Qed.

Lemma workersOf_delete u m k w :
  m !! k = Some w ->
  workersOf u (delete k m)
  = workersOf u m - (if decide (WorkerKey.userId_ k = u) then 1 else 0).
Proof.
  intros Hk. unfold workersOf. rewrite map_filter_delete.
  destruct (decide (WorkerKey.userId_ k = u)) as [Hu|Hu].
  - assert (Hf : filter (fun kv : WorkerKey.t * WorkerShares.t =>
                           WorkerKey.userId_ (fst kv) = u) m !! k = Some w)
      by (apply map_lookup_filter_Some; split; assumption).
    rewrite map_size_delete_Some by (exists w; exact Hf).
    assert (size (filter (fun kv : WorkerKey.t * WorkerShares.t =>
                            WorkerKey.userId_ (fst kv) = u) m) <> 0%nat).
    { intros Hz. apply map_size_empty_inv in Hz. rewrite Hz in Hf.
      rewrite lookup_empty in Hf. discriminate. }
    lia.
  - rewrite delete_id; [lia|].
    apply map_lookup_filter_None. right. intros x _ HP. exact (Hu HP).
Qed.

Lemma workersOf_positive u m k w :
  m !! k = Some w -> WorkerKey.userId_ k = u -> 0 < workersOf u m.
Proof.
  intros Hk Hu. pose proof (workersOf_delete u m k w Hk) as Hd.
  pose proof (workersOf_nonneg u (delete k m)).
  destruct (decide (WorkerKey.userId_ k = u)) as [_|Hn]; [lia | contradiction].
Qed.

Lemma sumCounts_comm (j1 j2 : Z) (z1 z2 y : Z) : z1 + (z2 + y) = z2 + (z1 + y).
Proof. lia. Qed.

Lemma sumCounts_insert m u c :
  m !! u = None -> sumCounts (<[u := c]> m) = c + sumCounts m.
Proof.
  intros Hu. unfold sumCounts.
  rewrite map_fold_insert_L; [reflexivity | | exact Hu].
  intros. apply sumCounts_comm; assumption.
Qed.

Lemma sumCounts_split m u :
  sumCounts m = default 0 (m !! u) + sumCounts (delete u m).
Proof.
  destruct (m !! u) as [c|] eqn:Hu; simpl.
  - rewrite <- (insert_delete_id m u c Hu) at 1.
    apply sumCounts_insert, lookup_delete_eq.
  - rewrite (delete_id _ _ Hu). lia.
Qed.

(** When [userWorkerCount_] counts the workers of every user, its values add
    up to the number of workers. *)
Lemma sumCounts_workers (workers : gmap WorkerKey.t WorkerShares.t) :
  forall counts : gmap Z Z,
  (forall u, counts !! u = countEntry (workersOf u workers)) ->
  sumCounts counts = Z.of_nat (size workers).
Proof.
  induction workers as [|k w m Hk IH] using map_ind; intros counts Hc.
  - assert (counts = ∅) as ->.
    { apply map_eq. intros u. rewrite Hc, lookup_empty. reflexivity. }
    reflexivity.
  - set (u := WorkerKey.userId_ k).
    rewrite (sumCounts_split counts u), map_size_insert_None by exact Hk.
    pose proof (workersOf_nonneg u m) as Hn.
    assert (Hu : counts !! u = Some (workersOf u m + 1)).
    { rewrite Hc, workersOf_insert_new by exact Hk. unfold countEntry.
      fold u. destruct (decide (u = u)) as [_|?]; [|contradiction].
      destruct (decide _) as [?|_]; [lia | reflexivity]. }
    rewrite Hu. simpl.
    destruct (decide (workersOf u m = 0)) as [Hz|Hz].
    + rewrite (IH (delete u counts)); [lia|].
      intros v. destruct (decide (u = v)) as [<-|Hv].
      * rewrite lookup_delete_eq. unfold countEntry.
        destruct (decide _); [reflexivity | contradiction].
      * rewrite lookup_delete_ne by exact Hv.
        rewrite Hc, workersOf_insert_new by exact Hk. fold u.
        destruct (decide (u = v)); [contradiction|]. f_equal. lia.
    + assert (Hi : sumCounts (<[u := workersOf u m]> (delete u counts))
                   = Z.of_nat (size m)).
      { apply IH. intros v. destruct (decide (u = v)) as [<-|Hv].
        - rewrite lookup_insert_eq. unfold countEntry.
          destruct (decide _); [contradiction | reflexivity].
        - rewrite lookup_insert_ne, lookup_delete_ne by exact Hv.
          rewrite Hc, workersOf_insert_new by exact Hk. fold u.
          destruct (decide (u = v)); [contradiction|]. f_equal. lia. }
      rewrite sumCounts_insert in Hi by apply lookup_delete_eq. lia.
Qed.

Lemma default_countEntry n : default 0 (countEntry n) = n.
Proof. unfold countEntry. destruct (decide _); simpl; lia. Qed.

Lemma registry_inv_new : registry_inv new.
Proof.
  unfold registry_inv, new; simpl.
  split; [reflexivity | split; [reflexivity|]].
  intros u. rewrite lookup_empty. reflexivity.
Qed.

(** The counters after a worker key was added to the registry. *)
Lemma counts_insert_new (m : gmap WorkerKey.t WorkerShares.t)
    (counts : gmap Z Z) k w v :
  m !! k = None ->
  (forall u, counts !! u = countEntry (workersOf u m)) ->
  <[WorkerKey.userId_ k :=
      default 0 (counts !! WorkerKey.userId_ k) + 1]> counts !! v
  = countEntry (workersOf v (<[k := w]> m)).
Proof.
  intros Hk Hc. rewrite workersOf_insert_new by exact Hk.
  pose proof (workersOf_nonneg v m).
  destruct (decide (WorkerKey.userId_ k = v)) as [Hv|Hv].
  - rewrite Hv, lookup_insert_eq, Hc, default_countEntry.
    unfold countEntry. destruct (decide _); [lia | reflexivity].
  - rewrite lookup_insert_ne by exact Hv. rewrite Hc. f_equal. lia.
Qed.

Lemma registry_inv__processShare nowWorker nowUser key share s :
  registry_inv s -> registry_inv (_processShare nowWorker nowUser key share s).
Proof.
  intros (Hw & Hu & Hc). unfold registry_inv, _processShare.
  destruct (workerSet_ s !! key) as [w0|] eqn:Hkey;
    destruct (userSet_ s !! WorkerKey.userId_ key) as [u0|] eqn:Huser; simpl.
  - rewrite (map_size_insert_Some key), (map_size_insert_Some (WorkerKey.userId_ key))
      by (eexists; eassumption).
    split; [assumption | split; [assumption|]].
    intros u. rewrite workersOf_insert_old by (eexists; eassumption). apply Hc.
  - rewrite (map_size_insert_Some key) by (eexists; eassumption).
    rewrite (map_size_insert_None (WorkerKey.userId_ key)) by exact Huser.
    split; [assumption | split; [lia|]].
    intros u. rewrite workersOf_insert_old by (eexists; eassumption). apply Hc.
  - rewrite (map_size_insert_Some (WorkerKey.userId_ key)) by (eexists; eassumption).
    rewrite (map_size_insert_None key) by exact Hkey.
    split; [lia | split; [assumption|]].
    intros u. apply counts_insert_new; assumption.
  - rewrite (map_size_insert_None key), (map_size_insert_None (WorkerKey.userId_ key))
      by assumption.
    split; [lia | split; [lia|]].
    intros u. apply counts_insert_new; assumption.
Qed.

Lemma registry_inv_processShare clock share s :
  registry_inv s -> registry_inv (processShare clock share s).
Proof.
  intros Hinv. unfold processShare.
  destruct (decide _); [exact Hinv|].
  apply registry_inv__processShare. exact Hinv.
Qed.

Lemma registry_inv_eraseWorker now s k w :
  registry_inv s -> workerSet_ s !! k = Some w ->
  registry_inv (eraseWorker now s (k, w)).
Proof.
  intros (Hw & Hu & Hc) Hk. unfold eraseWorker; simpl.
  destruct (WorkerShares.isExpired (now k) w);
    [|split; [|split]; assumption].
  unfold registry_inv; simpl.
  rewrite map_size_delete_Some by (eexists; eassumption).
  assert (size (workerSet_ s) <> 0%nat).
  { intros Hz. apply map_size_empty_inv in Hz. rewrite Hz, lookup_empty in Hk.
    discriminate. }
  split; [lia | split; [assumption|]].
  intros v. rewrite (workersOf_delete v _ k w Hk).
  pose proof (workersOf_positive (WorkerKey.userId_ k) _ k w Hk eq_refl) as Hpos.
  rewrite Hc, default_countEntry.
  destruct (decide (WorkerKey.userId_ k = v)) as [Hv|Hv].
  - rewrite <- Hv.
    destruct (decide (workersOf (WorkerKey.userId_ k) (workerSet_ s) - 1 <= 0)).
    + rewrite lookup_delete_eq. unfold countEntry.
      destruct (decide _); [reflexivity | lia].
    + rewrite lookup_insert_eq. unfold countEntry.
      destruct (decide _); [lia | reflexivity].
  - destruct (decide (_ <= 0)).
    + rewrite lookup_delete_ne by exact Hv. rewrite Hc. f_equal. lia.
    + rewrite lookup_insert_ne by exact Hv. rewrite Hc. f_equal. lia.
Qed.

Lemma registry_inv_eraseUser now s u w :
  registry_inv s -> userSet_ s !! u = Some w ->
  registry_inv (eraseUser now s (u, w)).
Proof.
  intros (Hw & Hu & Hc) Hk. unfold eraseUser; simpl.
  destruct (WorkerShares.isExpired (now u) w);
    [|split; [|split]; assumption].
  unfold registry_inv; simpl.
  rewrite map_size_delete_Some by (eexists; eassumption).
  assert (size (userSet_ s) <> 0%nat).
  { intros Hz. apply map_size_empty_inv in Hz. rewrite Hz, lookup_empty in Hk.
    discriminate. }
  split; [assumption | split; [lia | assumption]].
Qed.

(** The first loop erases at most the key it visits. *)
Lemma eraseWorker_workerSet now s k w k' :
  k <> k' ->
  workerSet_ (eraseWorker now s (k, w)) !! k' = workerSet_ s !! k'.
Proof.
  intros Hne. unfold eraseWorker; simpl.
  destruct (WorkerShares.isExpired (now k) w); simpl; [|reflexivity].
  apply lookup_delete_ne. exact Hne.
Qed.

Lemma eraseUser_userSet now s u w u' :
  u <> u' ->
  userSet_ (eraseUser now s (u, w)) !! u' = userSet_ s !! u'.
Proof.
  intros Hne. unfold eraseUser; simpl.
  destruct (WorkerShares.isExpired (now u) w); simpl; [|reflexivity].
  apply lookup_delete_ne. exact Hne.
Qed.

Lemma registry_inv_eraseWorkers now (l : list (WorkerKey.t * WorkerShares.t)) :
  forall s,
  NoDup (fst <$> l) ->
  (forall k w, (k, w) ∈ l -> workerSet_ s !! k = Some w) ->
  registry_inv s -> registry_inv (foldl (eraseWorker now) s l).
Proof.
  induction l as [|[k w] l IH]; intros s Hnd Hin Hinv; [exact Hinv|].
  simpl. rewrite fmap_cons in Hnd. apply NoDup_cons in Hnd as [Hk Hnd].
  apply IH; [exact Hnd | |].
  - intros k' w' Hl. rewrite eraseWorker_workerSet.
    + apply Hin. right. exact Hl.
    + intros ->. apply Hk. apply list_elem_of_fmap. exists (k', w'). split; [reflexivity | exact Hl].
  - apply registry_inv_eraseWorker; [exact Hinv|]. apply Hin. left.
Qed.

Lemma registry_inv_eraseUsers now (l : list (Z * WorkerShares.t)) :
  forall s,
  NoDup (fst <$> l) ->
  (forall u w, (u, w) ∈ l -> userSet_ s !! u = Some w) ->
  registry_inv s -> registry_inv (foldl (eraseUser now) s l).
Proof.
  induction l as [|[u w] l IH]; intros s Hnd Hin Hinv; [exact Hinv|].
  simpl. rewrite fmap_cons in Hnd. apply NoDup_cons in Hnd as [Hk Hnd].
  apply IH; [exact Hnd | |].
  - intros u' w' Hl. rewrite eraseUser_userSet.
    + apply Hin. right. exact Hl.
    + intros ->. apply Hk. apply list_elem_of_fmap. exists (u', w'). split; [reflexivity | exact Hl].
  - apply registry_inv_eraseUser; [exact Hinv|]. apply Hin. left.
Qed.

Lemma registry_inv_removeExpiredWorkers nowWorker nowUser s :
  registry_inv s -> registry_inv (removeExpiredWorkers nowWorker nowUser s).
Proof.
  intros Hinv. unfold removeExpiredWorkers.
  apply registry_inv_eraseUsers.
  - apply NoDup_fst_map_to_list.
  - intros u w Hl. apply elem_of_map_to_list. exact Hl.
  - apply registry_inv_eraseWorkers; [| |exact Hinv].
    + apply NoDup_fst_map_to_list.
    + intros k w Hl. apply elem_of_map_to_list. exact Hl.
Qed.

Lemma reachable_inv s : reachable s -> registry_inv s.
Proof.
  induction 1 as [|nowWorker nowUser key share s _ IH|clock share s _ IH
                 |nowWorker nowUser s _ IH].
  - apply registry_inv_new.
  - apply registry_inv__processShare, IH.
  - apply registry_inv_processShare, IH.
  - apply registry_inv_removeExpiredWorkers, IH.
Qed.

(** C2: in every state reached by [_processShare] (and [processShare]) and
    [removeExpiredWorkers] from the constructor, [totalWorkerCount_] is the
    number of entries of [workerSet_], [totalUserCount_] the number of
    entries of [userSet_], and the values of [userWorkerCount_] add up to
    [totalWorkerCount_]. *)
Theorem registry_counts s :
  reachable s ->
  totalWorkerCount_ s = Z.of_nat (size (workerSet_ s))
  /\ totalUserCount_ s = Z.of_nat (size (userSet_ s))
  /\ sumCounts (userWorkerCount_ s) = totalWorkerCount_ s.
Proof.
  intros Hr. destruct (reachable_inv s Hr) as (Hw & Hu & Hc).
  split; [exact Hw | split; [exact Hu|]].
  rewrite Hw. apply sumCounts_workers. exact Hc.
Qed.

(** The invariant of section 3: [userWorkerCount_] holds, for every user
    with a worker, the number of its workers, and no entry otherwise. *)
Lemma registry_user_counts s u :
  reachable s ->
  userWorkerCount_ s !! u = countEntry (workersOf u (workerSet_ s)).
Proof. intros Hr. destruct (reachable_inv s Hr) as (_ & _ & Hc). apply Hc. Qed.

(** *** Expiry *)


Section EraseWorkers.
Variable nowWorker : WorkerKey.t -> Z.
Variable nowUser : Z -> Z.




End EraseWorkers.



(** An aggregate last stamped in the last hour of the 32-bit range is
    expired at every reading of the clock from 3600 on: the sum wraps
    around. *)
Lemma isExpired_wrapped now w :
  2 ^ 32 - STATS_SLIDING_WINDOW_SECONDS <= WorkerShares.lastShareTime_ w < 2 ^ 32 ->
  STATS_SLIDING_WINDOW_SECONDS <= now < 2 ^ 32 ->
  WorkerShares.isExpired now w = true.
Proof.
  intros Hw Hnow. apply bool_decide_eq_true.
  unfold u32, STATS_SLIDING_WINDOW_SECONDS in *.
  replace (WorkerShares.lastShareTime_ w + 3600)
    with (WorkerShares.lastShareTime_ w + 3600 - 2 ^ 32 + 1 * 2 ^ 32) by lia.
  rewrite Z.mod_add, !Z.mod_small by lia. lia.
Qed.




(** *** A small run *)

Example registry_1059_counts :
  totalWorkerCount_ registry_1059 = 1
  /\ totalUserCount_ registry_1059 = 1
  /\ userWorkerCount_ registry_1059 !! 1 = Some 1
  /\ WorkerShares.lastShareTime_ (poolWorker_ registry_1059) = 1059.
Proof. vm_compute. repeat split; reflexivity. Qed.

(** Scenario 3 of section 8: 3700 seconds later the worker is expired. *)
Example registry_1059_expired :
  let s' := removeExpiredWorkers (fun _ => 4760) (fun _ => 4760) registry_1059 in
  workerSet_ s' = ∅
  /\ userSet_ s' = ∅
  /\ totalWorkerCount_ s' = 0
  /\ userWorkerCount_ s' !! 1 = None.
Proof. vm_compute. repeat split; reflexivity. Qed.

(** The clock advances between the two loops: the worker, visited at
    4659, stays, and the user, visited at 4660, is removed. *)
Example registry_1059_between :
  let s' := removeExpiredWorkers (fun _ => 4659) (fun _ => 4660) registry_1059 in
  size (workerSet_ s') = 1%nat /\ userSet_ s' = ∅.
Proof. vm_compute. split; reflexivity. Qed.

(** The boundary of the horizon at [now = 4660]: a share stamped 1060 is
    applied, one stamped 1059 is skipped. *)
Example processShare_boundary :
  totalWorkerCount_
    (processShare (Clock.steady 4660)
       (WorkerSharesSpec.share_at 1060 Share.ACCEPT 1) new) = 1
  /\ totalWorkerCount_
    (processShare (Clock.steady 4660)
       (WorkerSharesSpec.share_at 1059 Share.ACCEPT 1) new) = 0.
Proof. vm_compute. split; reflexivity. Qed.

(** At the boundary with a clock that advances within the call: the share
    passes the guard of the server at 4660 and none of the three guards
    that follow at 4661; the worker and the user are registered with
    aggregates that hold no share. *)
Example processShare_boundary_advancing :
  let s' := processShare (Clock.mk 4660 4661 4661 4661)
              (WorkerSharesSpec.share_at 1060 Share.ACCEPT 1) new in
  totalWorkerCount_ s' = 1
  /\ totalUserCount_ s' = 1
  /\ workerSet_ s' !! (1, 5) = Some (WorkerShares.new 5 1)
  /\ poolWorker_ s' = poolWorker_ new.
Proof. vm_compute. repeat split; reflexivity. Qed.

Lemma registry_counts_witness :
  let s := removeExpiredWorkers (fun _ => 2000) (fun _ => 2001) registry_1059 in
  totalWorkerCount_ s = Z.of_nat (size (workerSet_ s))
  /\ totalUserCount_ s = Z.of_nat (size (userSet_ s))
  /\ sumCounts (userWorkerCount_ s) = totalWorkerCount_ s.
Proof.
  apply (registry_counts
           (removeExpiredWorkers (fun _ => 2000) (fun _ => 2001) registry_1059)).
  apply reachable_removeExpiredWorkers, reachable_processShare, reachable_new.
Defined.



(** *** mergeWorkerStatus *)

Lemma mergeStep_lastShareTime s w :
  WorkerStatus.lastShareTime_ (mergeStep s w)
  = Z.max (WorkerStatus.lastShareTime_ s) (WorkerStatus.lastShareTime_ w).
Proof. unfold mergeStep. destruct (decide _); simpl in *; lia. Qed.




Lemma mergeWorkerStatus_fold l :
  mergeWorkerStatus l = foldl mergeStep WorkerStatus.new l.
Proof.
  unfold mergeWorkerStatus. destruct (decide _) as [Hlen|_]; [|reflexivity].
  destruct l; [reflexivity | discriminate].
Qed.


Example mergeWorkerStatus_ties :
  WorkerStatus.lastShareIP_
    (mergeWorkerStatus [status_at 7 10; status_at 8 20; status_at 9 20]) = 8.
Proof. reflexivity. Qed.


End StatsServerFacts.

(** ** Facts on [double] *)

Module DoubleFacts.

Lemma digits2_pos_shift (m : positive) (n : nat) :
  Z.pos (digits2_pos (Nat.iter n xO m)) = Z.pos (digits2_pos m) + Z.of_nat n.
Proof.
  induction n as [|n IH]; [simpl; lia|].
  rewrite Nat.iter_succ. cbn [digits2_pos]. rewrite Pos2Z.inj_succ, IH. lia.
Qed.

(** Multiplication by one is exact: the mantissa shifted by the 52 bits of
    the product is shifted back by the rounding, with nothing lost. *)
Lemma SFmul_one x :
  valid_binary x = true -> SF64mul x (Prim2SF 1%float) = x.
Proof.
  replace (Prim2SF 1%float)
    with (S754_finite false 4503599627370496 (-52)) by reflexivity.
  destruct x as [sign|sign| |sign m e]; intros Hv;
    try reflexivity; try (destruct sign; reflexivity).
  unfold SF64mul, SFmul. rewrite xorb_false_r.
  cbn [SpecFloat.valid_binary] in Hv. unfold bounded, canonical_mantissa in Hv.
  apply andb_prop in Hv as [Hc He]. apply Z.eqb_eq in Hc.
  replace (m * 4503599627370496)%positive with (Nat.iter 52 xO m)
    by (rewrite Pos.mul_comm; reflexivity).
  unfold binary_round_aux, shr_fexp.
  change (Zdigits2 (Z.pos (Nat.iter 52 xO m)))
    with (Z.pos (digits2_pos (Nat.iter 52 xO m))).
  rewrite digits2_pos_shift.
  replace (Z.pos (digits2_pos m) + Z.of_nat 52 + (e + -52))
    with (Z.pos (digits2_pos m) + e) by lia.
  rewrite Hc. replace (e - (e + -52)) with 52 by lia.
  unfold shr at 1.
  replace (SpecFloat.iter_pos shr_1 52
             (shr_record_of_loc (Z.pos (Nat.iter 52 xO m)) loc_Exact))
    with {| shr_m := Z.pos m; shr_r := false; shr_s := false |} by reflexivity.
  cbn [shr_m loc_of_shr_record round_nearest_even shr_record_of_loc Zdigits2].
  replace (e + -52 + 52) with e by lia.
  rewrite Hc, Z.sub_diag. cbn [shr shr_m].
  rewrite He. reflexivity.
Qed.

Lemma mul_one (x : float) : PrimFloat.mul x 1%float = x.
Proof.
  apply Prim2SF_inj. rewrite mul_spec. apply SFmul_one, Prim2SF_valid.
Qed.

(** Two doubles that [PrimFloat.eqb] tells apart are different (when one of
    them is not NaN). *)
Lemma eqb_false_neq (x y : float) :
  PrimFloat.eqb y y = true -> PrimFloat.eqb x y = false -> x <> y.
Proof. intros Hy Hxy Heq. subst x. congruence. Qed.

End DoubleFacts.

Module ShareStatsDayFacts.
Import ShareStatsDay ShareStatsDaySpec.

Lemma u64_add_l a b : u64 (u64 a + b) = u64 (a + b).
Proof. unfold u64. apply Zplus_mod_idemp_l. Qed.

Lemma u64_add_r a b : u64 (a + u64 b) = u64 (a + b).
Proof. unfold u64. apply Zplus_mod_idemp_r. Qed.

Lemma u64_small z : 0 <= z < 2 ^ 64 -> u64 z = z.
Proof. apply Z.mod_small. Qed.

(** The sum over an hour array after one entry was replaced. *)
Lemma sumHours_alter (l : list Z) (f : Z -> Z) : forall (i : nat) a,
  l !! i = Some a ->
  sumHours (alter f i l) = sumHours l - a + f a.
Proof.
  unfold sumHours.
  induction l as [|b l IH]; intros i a Hi; [discriminate|].
  destruct i as [|i]; simpl in *.
  - inversion Hi; subst b. lia.
  - change (list_alter f i l) with (alter f i l).
    rewrite (IH i a Hi). lia.
Qed.

(** An entry of an array without negative entries is at most their sum. *)
Lemma sumHours_entry (l : list Z) : forall (i : nat) a,
  Forall (fun b => 0 <= b) l -> l !! i = Some a ->
  0 <= a <= sumHours l.
Proof.
  unfold sumHours.
  induction l as [|b l IH]; intros i a Hpos Hi; [discriminate|].
  apply Forall_cons in Hpos as [Hb Hpos].
  assert (0 <= foldr Z.add 0 l).
  { clear IH Hi. induction Hpos; simpl; lia. }
  destruct i as [|i]; simpl in *.
  - inversion Hi; subst b. lia.
  - specialize (IH i a Hpos Hi). lia.
Qed.

Lemma run_snoc ops op :
  run (ops ++ [op]) = processShare (fst op) (snd op) (run ops).
Proof. unfold run. rewrite foldl_app. reflexivity. Qed.

Lemma run_lengths ops :
  length (shareAccept1h_ (run ops)) = 24%nat
  /\ length (shareReject1h_ (run ops)) = 24%nat
  /\ length (score1h_ (run ops)) = 24%nat.
Proof.
  induction ops as [|op ops IH] using rev_ind; [repeat split; reflexivity|].
  rewrite run_snoc. unfold processShare.
  destruct (decide _); simpl; rewrite ?length_alter; exact IH.
Qed.

(** One addition to an hour and to the day keeps the sum over the hours
    equal to the total of the day, in 64 bits. *)
Lemma sumHours_add64 (l : list Z) (i : nat) (day w : Z) :
  (i < length l)%nat ->
  u64 (sumHours l) = day ->
  u64 (sumHours (alter (fun a => u64 (a + w)) i l)) = u64 (day + w).
Proof.
  intros Hi Hday. destruct (lookup_lt_is_Some_2 l i Hi) as [a Ha].
  rewrite (sumHours_alter l _ i a Ha), u64_add_r, <- Hday, u64_add_l.
  f_equal. lia.
Qed.

(** The integer part of the invariant of [DayStats], in 64 bits. *)
Lemma run_sums ops :
  hours_ok ops ->
  u64 (sumHours (shareAccept1h_ (run ops))) = shareAccept1d_ (run ops)
  /\ u64 (sumHours (shareReject1h_ (run ops))) = shareReject1d_ (run ops).
Proof.
  induction ops as [|op ops IH] using rev_ind; intros Hok;
    [split; reflexivity|].
  apply Forall_app in Hok as [Hok Hop]. rewrite Forall_singleton in Hop.
  destruct (IH Hok) as [Ha Hr]. destruct (run_lengths ops) as (La & Lr & _).
  rewrite run_snoc. unfold processShare.
  destruct (decide _); simpl; split; try assumption;
    apply sumHours_add64; try assumption; lia.
Qed.

Lemma acceptedWeight_snoc ops op :
  acceptedWeight (ops ++ [op])
  = acceptedWeight ops
    + (if decide (Share.result_ (snd op) = Share.ACCEPT)
       then Share.share_ (snd op) else 0).
Proof.
  unfold acceptedWeight. induction ops as [|o ops IH]; simpl; [lia|].
  rewrite IH. lia.
Qed.

Lemma rejectedWeight_snoc ops op :
  rejectedWeight (ops ++ [op])
  = rejectedWeight ops
    + (if decide (Share.result_ (snd op) = Share.ACCEPT)
       then 0 else Share.share_ (snd op)).
Proof.
  unfold rejectedWeight. induction ops as [|o ops IH]; simpl; [lia|].
  rewrite IH. lia.
Qed.

Lemma weights_nonneg ops :
  weights_ok ops -> 0 <= acceptedWeight ops /\ 0 <= rejectedWeight ops.
Proof.
  unfold weights_ok, acceptedWeight, rejectedWeight.
  induction 1 as [|op ops Hop _ IH]; simpl; [lia|].
  destruct (decide _); lia.
Qed.

(** One addition that stays below [2 ^ 64] is exact. *)
Lemma sumHours_add_exact (l : list Z) (i : nat) (w : Z) :
  (i < length l)%nat ->
  Forall (fun b => 0 <= b) l -> 0 <= w -> sumHours l + w < 2 ^ 64 ->
  Forall (fun b => 0 <= b) (alter (fun a => u64 (a + w)) i l)
  /\ sumHours (alter (fun a => u64 (a + w)) i l) = sumHours l + w.
Proof.
  intros Hi Hpos Hw Hfit. destruct (lookup_lt_is_Some_2 l i Hi) as [a Ha].
  pose proof (sumHours_entry l i a Hpos Ha) as Hle.
  assert (Hsmall : u64 (a + w) = a + w) by (apply u64_small; lia).
  split.
  - apply Forall_alter; [exact Hpos|]. intros b Hb.
    rewrite Ha in Hb. inversion Hb; subst b. rewrite Hsmall. lia.
  - rewrite (sumHours_alter l _ i a Ha), Hsmall. lia.
Qed.

(** As long as the total weight stays below [2 ^ 64], nothing wraps
    around: the hours add up to the total of the day, which is the total
    weight. *)
Lemma run_exact ops :
  hours_ok ops -> weights_ok ops ->
  (acceptedWeight ops < 2 ^ 64 ->
     Forall (fun b => 0 <= b) (shareAccept1h_ (run ops))
     /\ sumHours (shareAccept1h_ (run ops)) = acceptedWeight ops
     /\ shareAccept1d_ (run ops) = acceptedWeight ops)
  /\ (rejectedWeight ops < 2 ^ 64 ->
     Forall (fun b => 0 <= b) (shareReject1h_ (run ops))
     /\ sumHours (shareReject1h_ (run ops)) = rejectedWeight ops
     /\ shareReject1d_ (run ops) = rejectedWeight ops).
Proof.
  induction ops as [|op ops IH] using rev_ind; intros Hok Hpos.
  - split; intros _; (split; [|split; reflexivity]);
      unfold run, new; simpl; repeat constructor; lia.
  - apply Forall_app in Hok as [Hok Hop]. rewrite Forall_singleton in Hop.
    apply Forall_app in Hpos as [Hpos Hw]. rewrite Forall_singleton in Hw.
    destruct (IH Hok Hpos) as [IHa IHr].
    destruct (weights_nonneg ops Hpos) as [Hna Hnr].
    destruct (run_lengths ops) as (La & Lr & _).
    rewrite run_snoc, acceptedWeight_snoc, rejectedWeight_snoc.
    unfold processShare.
    destruct (decide (Share.result_ (snd op) = Share.ACCEPT)); simpl.
    + split.
      * intros Hfit. destruct IHa as (Hp & Hs & Hd); [lia|].
        destruct (sumHours_add_exact (shareAccept1h_ (run ops))
                    (Z.to_nat (fst op)) (Share.share_ (snd op)))
          as [Hp' Hs']; try assumption; try lia.
        split; [exact Hp'|]. split; [lia|].
        rewrite Hd. apply u64_small. lia.
      * intros Hfit. rewrite Z.add_0_r in *. apply IHr, Hfit.
    + split.
      * intros Hfit. rewrite Z.add_0_r in *. apply IHa, Hfit.
      * intros Hfit. destruct IHr as (Hp & Hs & Hd); [lia|].
        destruct (sumHours_add_exact (shareReject1h_ (run ops))
                    (Z.to_nat (fst op)) (Share.share_ (snd op)))
          as [Hp' Hs']; try assumption; try lia.
        split; [exact Hp'|]. split; [lia|].
        rewrite Hd. apply u64_small. lia.
Qed.

(** [processShare] marks its hour in the mask. *)
Lemma processShare_flag hourIdx share d :
  0 <= hourIdx <= 23 ->
  Z.testbit (modifyHoursFlag_ (processShare hourIdx share d)) hourIdx = true.
Proof.
  intros Hh.
  assert (Hbit : Z.testbit (u32 (Z.shiftl 1 hourIdx)) hourIdx = true).
  { unfold u32. rewrite Z.shiftl_1_l.
    rewrite Z.mod_small.
    - apply Z.pow2_bits_true. lia.
    - split; [apply Z.pow_nonneg; lia|].
      apply Z.pow_lt_mono_r; lia. }
  unfold processShare. destruct (decide _); simpl;
    rewrite Z.lor_spec, Hbit; apply orb_true_r.
Qed.

(** The day score is the running sum of the accepted scores, in arrival
    order. *)
Lemma run_score1d ops :
  score1d_ (run ops) = foldl PrimFloat.add 0%float (acceptedScores ops).
Proof.
  induction ops as [|op ops IH] using rev_ind; [reflexivity|].
  rewrite run_snoc. unfold acceptedScores, processShare.
  rewrite filter_app, fmap_app, foldl_app.
  rewrite filter_cons, filter_nil.
  destruct (decide (Share.result_ (snd op) = Share.ACCEPT)); simpl.
  - rewrite IH. reflexivity.
  - exact IH.
Qed.

(** The score of hour [h] is the running sum of the accepted scores of the
    shares of that hour, in arrival order. *)
Lemma run_score1h ops h :
  hours_ok ops -> 0 <= h <= 23 ->
  score1h_ (run ops) !! Z.to_nat h
  = Some (foldl PrimFloat.add 0%float (acceptedScores (inHour h ops))).
Proof.
  intros Hok Hh.
  induction ops as [|op ops IH] using rev_ind.
  - unfold run, new; cbn [foldl score1h_ acceptedScores inHour filter fmap].
    apply lookup_replicate. split; [reflexivity | lia].
  - apply Forall_app in Hok as [Hok Hop]. rewrite Forall_singleton in Hop.
    specialize (IH Hok). rewrite run_snoc.
    unfold inHour. rewrite filter_app, filter_cons, filter_nil. fold (inHour h ops).
    unfold acceptedScores. rewrite filter_app, fmap_app, foldl_app.
    fold (acceptedScores (inHour h ops)).
    unfold processShare.
    destruct (decide (fst op = h)) as [Heq|Hne];
      destruct (decide (Share.result_ (snd op) = Share.ACCEPT)) as [Hacc|Hrej];
      simpl; rewrite ?filter_cons, ?filter_nil; simpl.
    + destruct (decide (Share.result_ (snd op) = Share.ACCEPT)); [|contradiction].
      simpl. rewrite Heq, list_lookup_alter, IH.
      destruct (decide _) as [_|?]; [reflexivity | contradiction].
    + destruct (decide (Share.result_ (snd op) = Share.ACCEPT)); [contradiction|].
      simpl. exact IH.
    + rewrite list_lookup_alter_ne by lia. exact IH.
    + exact IH.
Qed.

(** C5, as the code has it: in every day reached from the constructor by
    [processShare] with hour indexes in [0, 23], the sum over
    [shareAccept1h_] is [shareAccept1d_] and the sum over [shareReject1h_]
    is [shareReject1d_], in the 64 bits of the counters; they are equal as
    integers as long as the total weight of the accepted (rejected) shares
    stays below [2 ^ 64].  [score1d_] is the running [double] sum of the
    accepted scores in arrival order and [score1h_[h]] the running sum of
    the accepted scores of hour [h]; and each [processShare] sets bit
    [hourIdx] of [modifyHoursFlag_]. *)
Theorem dayStats_sums ops :
  hours_ok ops ->
  u64 (sumHours (shareAccept1h_ (run ops))) = shareAccept1d_ (run ops)
  /\ u64 (sumHours (shareReject1h_ (run ops))) = shareReject1d_ (run ops)
  /\ (weights_ok ops -> acceptedWeight ops < 2 ^ 64 ->
      sumHours (shareAccept1h_ (run ops)) = shareAccept1d_ (run ops))
  /\ (weights_ok ops -> rejectedWeight ops < 2 ^ 64 ->
      sumHours (shareReject1h_ (run ops)) = shareReject1d_ (run ops))
  /\ score1d_ (run ops) = foldl PrimFloat.add 0%float (acceptedScores ops)
  /\ (forall h, 0 <= h <= 23 ->
       score1h_ (run ops) !! Z.to_nat h
       = Some (foldl PrimFloat.add 0%float (acceptedScores (inHour h ops))))
  /\ (forall h share, 0 <= h <= 23 ->
       Z.testbit (modifyHoursFlag_ (processShare h share (run ops))) h = true).
Proof.
  intros Hok. destruct (run_sums ops Hok) as [Ha Hr].
  split; [exact Ha|]. split; [exact Hr|]. split; [|split].
  - intros Hw Hfit. destruct (run_exact ops Hok Hw) as [He _].
    destruct (He Hfit) as (_ & Hs & Hd). congruence.
  - intros Hw Hfit. destruct (run_exact ops Hok Hw) as [_ He].
    destruct (He Hfit) as (_ & Hs & Hd). congruence.
  - split; [apply run_score1d|]. split.
    + intros h Hh. apply run_score1h; assumption.
    + intros h share Hh. apply processShare_flag, Hh.
Qed.

Example ops_rounding_counts :
  shareAccept1d_ (run ops_rounding) = 6
  /\ shareAccept1h_ (run ops_rounding) !! 0%nat = Some 1
  /\ shareAccept1h_ (run ops_rounding) !! 1%nat = Some 5
  /\ modifyHoursFlag_ (run ops_rounding) = 3.
Proof. vm_compute. repeat split; reflexivity. Qed.

(** Two accepted shares of weight [2 ^ 63] in two hours: the hours hold
    [2 ^ 63] each and the total of the day has wrapped around to 0. *)
Example ops_wrapped_counts :
  shareAccept1h_ (run ops_wrapped) !! 0%nat = Some (2 ^ 63)
  /\ shareAccept1h_ (run ops_wrapped) !! 1%nat = Some (2 ^ 63)
  /\ sumHours (shareAccept1h_ (run ops_wrapped)) = 2 ^ 64
  /\ shareAccept1d_ (run ops_wrapped) = 0.
Proof. vm_compute. repeat split; reflexivity. Qed.

Lemma dayStats_sums_witness :
  u64 (sumHours (shareAccept1h_ (run ops_rounding)))
    = shareAccept1d_ (run ops_rounding)
  /\ u64 (sumHours (shareReject1h_ (run ops_rounding)))
     = shareReject1d_ (run ops_rounding)
  /\ (weights_ok ops_rounding -> acceptedWeight ops_rounding < 2 ^ 64 ->
      sumHours (shareAccept1h_ (run ops_rounding))
        = shareAccept1d_ (run ops_rounding))
  /\ (weights_ok ops_rounding -> rejectedWeight ops_rounding < 2 ^ 64 ->
      sumHours (shareReject1h_ (run ops_rounding))
        = shareReject1d_ (run ops_rounding))
  /\ score1d_ (run ops_rounding)
     = foldl PrimFloat.add 0%float (acceptedScores ops_rounding)
  /\ (forall h, 0 <= h <= 23 ->
       score1h_ (run ops_rounding) !! Z.to_nat h
       = Some (foldl PrimFloat.add 0%float (acceptedScores (inHour h ops_rounding))))
  /\ (forall h share, 0 <= h <= 23 ->
       Z.testbit (modifyHoursFlag_ (processShare h share (run ops_rounding))) h = true).
Proof.
  apply (dayStats_sums ops_rounding).
  unfold hours_ok, ops_rounding. repeat constructor; simpl; lia.
Defined.

(** C5 fails as stated.  For the scores: after the three shares above the
    sum over [score1h_] is 0.1 + 0.5 = 0.6, while [score1d_] is
    (0.1 + 0.2) + 0.3 = 0.6000000000000001: the two running sums round
    differently.  For the counts: after two accepted shares of weight
    [2 ^ 63] in the hours 0 and 1 the sum over [shareAccept1h_] is
    [2 ^ 64], while [shareAccept1d_] has wrapped around to 0. *)
Lemma score_sum_differs :
  hours_ok ops_rounding
  /\ sumScores (score1h_ (run ops_rounding)) <> score1d_ (run ops_rounding)
  /\ hours_ok ops_wrapped
  /\ sumHours (shareAccept1h_ (run ops_wrapped)) = 2 ^ 64
  /\ shareAccept1d_ (run ops_wrapped) = 0
  /\ sumHours (shareAccept1h_ (run ops_wrapped))
     <> shareAccept1d_ (run ops_wrapped).
Proof.
  split; [unfold hours_ok, ops_rounding; repeat constructor; simpl; lia|].
  split; [apply DoubleFacts.eqb_false_neq; vm_compute; reflexivity|].
  split; [unfold hours_ok, ops_wrapped; repeat constructor; simpl; lia|].
  split; [vm_compute; reflexivity|]. split; [vm_compute; reflexivity|].
  vm_compute. discriminate.
Qed.

(** *** Reject rate and earn *)

(** The conversion of the model rounds to nearest, ties to even. *)
Lemma double_of_Z_nearest z : double_of_Z z = nearest z.
Proof. reflexivity. Qed.

(** Rounding to nearest is the conversion of the processor, for an
    unsigned integer below [2 ^ 63]. *)
Lemma nearest_toDouble z : 0 <= z < 2 ^ 63 -> nearest z = toDouble z.
Proof.
  intros Hz. unfold nearest, toDouble.
  rewrite <- (SF2Prim_Prim2SF (PrimFloat.of_uint63 (Uint63.of_Z z))).
  rewrite of_uint63_spec, Uint63.of_Z_spec.
  rewrite Z.mod_small; [reflexivity|]. exact Hz.
Qed.

(** The conversion to [int64_t] truncates. *)
Lemma double_to_int64_truncated f n :
  truncated f n -> INT64_MIN <= n < 2 ^ 63 -> double_to_int64 f = n.
Proof.
  unfold truncated, double_to_int64.
  destruct (Prim2SF f) as [sign|sign| |sign m e]; try contradiction.
  - intros -> _. reflexivity.
  - intros (Ha & Hlo & Hhi) Hrange.
    assert (Hval : (if decide (0 <= e) then Z.pos m * 2 ^ e
                    else Z.pos m / 2 ^ (- e))
                   = (if sign then - n else n)).
    { destruct (decide (0 <= e)) as [He|He].
      - rewrite Z.max_l in Hlo, Hhi by lia.
        rewrite Z.add_0_r, Z.pow_0_r in *. lia.
      - rewrite Z.max_r in Hlo, Hhi by lia.
        replace (e + - e) with 0 in * by lia. rewrite Z.pow_0_r in *.
        assert (0 < 2 ^ (- e)) by (apply Z.pow_pos_nonneg; lia).
        symmetry. apply (Z.div_unique_pos _ _ _ (Z.pos m - (if sign then - n else n) * 2 ^ (- e)));
          lia. }
    rewrite Hval.
    assert (Hn : (if sign then - (if sign then - n else n)
                  else (if sign then - n else n)) = n)
      by (destruct sign; lia).
    rewrite Hn.
    destruct (decide (INT64_MIN <= n < 2 ^ 63)) as [_|Hout];
      [reflexivity | contradiction].
Qed.

Lemma rejectRate_64 accept reject :
  rejectRate accept reject = rejectRate64 accept reject.
Proof.
  unfold rejectRate, rejectRate64.
  destruct (decide (reject <> 0)) as [Hnz|Hz];
    destruct (decide (reject = 0)) as [Hz'|Hnz']; try reflexivity.
  - contradiction.
  - rewrite DoubleFacts.mul_one, !double_of_Z_nearest. reflexivity.
  - exfalso. apply Hz. exact Hnz'.
Qed.

Lemma rejectRate64_kernel accept reject :
  0 <= reject < 2 ^ 63 -> u64 (accept + reject) < 2 ^ 63 ->
  rejectRate64 accept reject = rejectRateKernel accept reject.
Proof.
  intros Hr Hs. unfold rejectRate64, rejectRateKernel.
  assert (0 <= u64 (accept + reject))
    by (unfold u64; apply Z.mod_pos_bound; lia).
  destruct (decide (reject = 0)); [reflexivity|].
  rewrite !nearest_toDouble by lia. reflexivity.
Qed.

Lemma rejectRate64_spec accept reject :
  0 <= accept -> 0 <= reject -> accept + reject < 2 ^ 64 ->
  rejectRate64 accept reject = rejectRateSpec accept reject.
Proof.
  intros Ha Hr Hs. unfold rejectRate64, rejectRateSpec.
  rewrite u64_small by lia. reflexivity.
Qed.

Lemma stats_ok BLOCK_REWARD accept reject score :
  0 <= BLOCK_REWARD < 2 ^ 63 ->
  let r := ShareStats.mk accept reject (rejectRate accept reject)
             (double_to_int64 (PrimFloat.mul score (double_of_Z BLOCK_REWARD))) in
  rate_ok r /\ earn_ok BLOCK_REWARD score r.
Proof.
  intros Hb. cbv zeta. split.
  - unfold rate_ok. simpl. rewrite rejectRate_64.
    split; [reflexivity|]. split.
    + apply rejectRate64_kernel.
    + apply rejectRate64_spec.
  - unfold earn_ok. simpl. intros n Hn Hrange.
    rewrite double_of_Z_nearest, nearest_toDouble by exact Hb.
    apply double_to_int64_truncated; [exact Hn|]. unfold INT64_MIN. exact Hrange.
Qed.

(** C7, as the code has it: an hour query (hour index in [0, 23]) and a
    day query return the two counts of the hour (the day); a reject rate
    that is 0 when the reject count is 0 and otherwise the quotient, in
    [double], of the reject count by the sum of the two counts taken in 64
    bits (the counts converted to [double] by rounding to nearest, which
    is what the processor does), which is reject / (accept + reject) as
    long as the sum stays below [2 ^ 64]; and an earn that is
    score * BLOCK_REWARD, a product in [double], truncated to an
    integer. *)
Theorem getShareStats_rate BLOCK_REWARD hourIdx d stats :
  0 <= hourIdx <= 23 ->
  0 <= BLOCK_REWARD < 2 ^ 63 ->
  (let r := getShareStatsHour BLOCK_REWARD hourIdx d stats in
   ShareStats.shareAccept_ r = default 0 (shareAccept1h_ d !! Z.to_nat hourIdx)
   /\ ShareStats.shareReject_ r
      = default 0 (shareReject1h_ d !! Z.to_nat hourIdx)
   /\ rate_ok r
   /\ earn_ok BLOCK_REWARD (default 0%float (score1h_ d !! Z.to_nat hourIdx)) r)
  /\ (let r := getShareStatsDay BLOCK_REWARD d stats in
      ShareStats.shareAccept_ r = shareAccept1d_ d
      /\ ShareStats.shareReject_ r = shareReject1d_ d
      /\ rate_ok r
      /\ earn_ok BLOCK_REWARD (score1d_ d) r).
Proof.
  intros Hh Hb. unfold getShareStatsHour, getShareStatsDay.
  destruct (decide (hourIdx > 23)) as [?|_]; [lia|]. cbv zeta.
  split; (split; [reflexivity|]; split; [reflexivity|]);
    apply (stats_ok BLOCK_REWARD _ _ _ Hb).
Qed.

Example getShareStatsHour_quarter :
  getShareStatsHour 1250000000 2 day_quarter (ShareStats.mk 0 0 0%float 0)
  = ShareStats.mk 3 1 0.25%float 625000000.
Proof. vm_compute. reflexivity. Qed.

(** The rate and the earn of the specification for this query: one
    quarter, and 0.5 * 1250000000 = 625000000. *)
Example rejectRateSpec_quarter :
  rejectRateSpec 3 1 = 0.25%float
  /\ rejectRateKernel 3 1 = 0.25%float
  /\ truncated (PrimFloat.mul 0.5%float (toDouble 1250000000)) 625000000.
Proof.
  split; [reflexivity|]. split; [reflexivity|].
  vm_compute. repeat split; discriminate.
Qed.

(** Beyond hour 23 the query leaves the caller's record as it is. *)
Example getShareStatsHour_out_of_range :
  getShareStatsHour 1250000000 24 day_quarter (ShareStats.mk 7 7 1%float 7)
  = ShareStats.mk 7 7 1%float 7.
Proof. reflexivity. Qed.

Lemma getShareStats_rate_witness :
  (let r := getShareStatsHour 1250000000 2 day_quarter
              (ShareStats.mk 0 0 0%float 0) in
   ShareStats.shareAccept_ r = default 0 (shareAccept1h_ day_quarter !! Z.to_nat 2)
   /\ ShareStats.shareReject_ r
      = default 0 (shareReject1h_ day_quarter !! Z.to_nat 2)
   /\ rate_ok r
   /\ earn_ok 1250000000
        (default 0%float (score1h_ day_quarter !! Z.to_nat 2)) r)
  /\ (let r := getShareStatsDay 1250000000 day_quarter
                 (ShareStats.mk 0 0 0%float 0) in
      ShareStats.shareAccept_ r = shareAccept1d_ day_quarter
      /\ ShareStats.shareReject_ r = shareReject1d_ day_quarter
      /\ rate_ok r
      /\ earn_ok 1250000000 (score1d_ day_quarter) r).
Proof.
  apply (getShareStats_rate 1250000000 2 day_quarter (ShareStats.mk 0 0 0%float 0));
    lia.
Defined.

(** C7 fails as stated: in hour 0 of the day below the two counts are
    [2 ^ 63] each, so that reject / (accept + reject) is one half; their
    64-bit sum is 0 and the query returns the quotient by 0, infinity. *)
Lemma getShareStats_rate_wrapped :
  let r := getShareStatsHour 1250000000 0 day_wrapped
             (ShareStats.mk 0 0 0%float 0) in
  ShareStats.shareAccept_ r = 2 ^ 63
  /\ ShareStats.shareReject_ r = 2 ^ 63
  /\ rejectRateSpec (ShareStats.shareAccept_ r) (ShareStats.shareReject_ r)
     = 0.5%float
  /\ ShareStats.rejectRate_ r = PrimFloat.infinity
  /\ ShareStats.rejectRate_ r
     <> rejectRateSpec (ShareStats.shareAccept_ r) (ShareStats.shareReject_ r).
Proof.
  cbv zeta. split; [reflexivity|]. split; [reflexivity|].
  split; [vm_compute; reflexivity|]. split; [vm_compute; reflexivity|].
  apply DoubleFacts.eqb_false_neq; vm_compute; reflexivity.
Qed.

End ShareStatsDayFacts.

Module ShareLogWriterFacts.
Import ShareLogWriter ShareLogWriterSpec.

Lemma u32_dayKey ts : 0 <= ts < 2 ^ 32 -> u32 (ts - ts mod 86400) = dayKey ts.
Proof.
  intros Hts. unfold u32, dayKey. apply Z.mod_small.
  pose proof (Z.mod_pos_bound ts 86400 ltac:(lia)) as Hmod.
  pose proof (Z.mod_le ts 86400 ltac:(lia) ltac:(lia)) as Hle.
  lia.
Qed.

Lemma fileContent_fwrite ok f share w path :
  fileContent (fwrite ok f share w) path
  = if decide (f = path)
    then fileContent w path ++ (if ok then [share] else [])
    else fileContent w path.
Proof.
  unfold fileContent, fwrite. destruct ok; simpl.
  - destruct (decide (f = path)) as [->|Hne].
    + rewrite lookup_insert_eq. reflexivity.
    + rewrite lookup_insert_ne by exact Hne. reflexivity.
  - destruct (decide (f = path)); [rewrite app_nil_r|]; reflexivity.
Qed.

Lemma fwrite_handlers ok f share w :
  fileHandlers_ (fwrite ok f share w) = fileHandlers_ w
  /\ shares_ (fwrite ok f share w) = shares_ w.
Proof. unfold fwrite. destruct ok; split; reflexivity. Qed.

Lemma written_all fwrite_ok (shares : list Share.t) : forall i : nat,
  (forall j : nat, (j < length shares)%nat -> fwrite_ok (i + j)%nat = true) ->
  writtenFrom fwrite_ok i shares = shares.
Proof.
  induction shares as [|share rest IH]; intros i Hok; simpl; [reflexivity|].
  assert (Hi : fwrite_ok i = true)
    by (rewrite <- (Hok 0%nat) by (simpl; lia); f_equal; lia).
  rewrite Hi. simpl. f_equal. apply IH. intros j Hj.
  replace (S i + j)%nat with (i + S j)%nat by lia. apply Hok. simpl. lia.
Qed.

Section FlushFacts.
Variable fopen_ok : Z -> bool.

(** A handle that [getFileHandler] returns is open on the file of the
    key, which is in the cache afterwards; the files keep their contents
    and the buffer is untouched. *)
Lemma getFileHandler_spec ts w f w1 :
  handlers_wf w ->
  getFileHandler fopen_ok ts w = Some (f, w1) ->
  f = getStatsFilePath ts
  /\ handlers_wf w1
  /\ shares_ w1 = shares_ w
  /\ (forall path, fileContent w1 path = fileContent w path)
  /\ (forall key, is_Some (fileHandlers_ w1 !! key)
                  <-> is_Some (fileHandlers_ w !! key) \/ key = ts).
Proof.
  intros Hwf. unfold getFileHandler.
  destruct (fileHandlers_ w !! ts) as [f0|] eqn:Hts.
  - intros Heq. inversion Heq; subst f0 w1.
    split; [apply (Hwf ts f Hts)|]. split; [exact Hwf|].
    split; [reflexivity|]. split; [reflexivity|].
    intros key. split; [auto|]. intros [Hk| ->]; [exact Hk | eauto].
  - destruct (fopen_ok (getStatsFilePath ts)); [|discriminate].
    intros Heq. inversion Heq; subst f w1. split; [reflexivity|]. split.
    + intros key f. simpl. destruct (decide (ts = key)) as [->|Hne].
      * rewrite lookup_insert_eq. congruence.
      * rewrite lookup_insert_ne by exact Hne. apply Hwf.
    + split; [reflexivity|]. split.
      * intros path. unfold fileContent; simpl.
        destruct (decide (getStatsFilePath ts = path)) as [->|Hne].
        -- rewrite lookup_insert_eq. reflexivity.
        -- rewrite lookup_insert_ne by exact Hne. reflexivity.
      * intros key. simpl. destruct (decide (ts = key)) as [->|Hne].
        -- rewrite lookup_insert_eq. split; eauto.
        -- rewrite lookup_insert_ne by exact Hne.
           split; [auto|]. intros [Hk|Hk]; [exact Hk | congruence].
Qed.

Variable fwrite_ok : nat -> bool.

(** The first loop appends every buffered share whose [fwrite] succeeds
    to the file of its day, and leaves in the cache the handles it held
    and those of the days of the shares. *)
Lemma writeShares_spec shares : forall (i : nat) w w',
  handlers_wf w -> timestamps32 shares ->
  writeShares fopen_ok fwrite_ok i shares w = Some w' ->
  handlers_wf w'
  /\ shares_ w' = shares_ w
  /\ (forall path,
        fileContent w' path
        = fileContent w path ++ sharesOfFile path (writtenFrom fwrite_ok i shares))
  /\ (forall key,
        is_Some (fileHandlers_ w' !! key)
        <-> is_Some (fileHandlers_ w !! key)
            \/ exists share,
                 share ∈ shares /\ key = dayKey (Share.timestamp_ share)).
Proof.
  induction shares as [|share rest IH]; intros i w w' Hwf Hts Hrun;
    simpl in Hrun.
  - inversion Hrun; subst w'. split; [exact Hwf|]. split; [reflexivity|].
    split.
    + intros path. unfold sharesOfFile. simpl.
      rewrite filter_nil, app_nil_r. reflexivity.
    + intros key. split; [auto|].
      intros [Hk|(share & Hin & _)]; [exact Hk | inversion Hin].
  - apply Forall_cons in Hts as [Hshare Hts].
    rewrite (u32_dayKey _ Hshare) in Hrun.
    destruct (getFileHandler fopen_ok (dayKey (Share.timestamp_ share)) w)
      as [[f w1]|] eqn:Hget; [|discriminate].
    destruct (getFileHandler_spec _ _ _ _ Hwf Hget)
      as (Hf & Hwf1 & Hs1 & Hc1 & Hk1).
    destruct (fwrite_handlers (fwrite_ok i) f share w1) as [Hfh Hfs].
    destruct (IH (S i) (fwrite (fwrite_ok i) f share w1) w')
      as (Hwf' & Hs' & Hc' & Hk').
    + intros key f'. rewrite Hfh. apply Hwf1.
    + exact Hts.
    + exact Hrun.
    + split; [exact Hwf'|]. split; [rewrite Hs', Hfs; exact Hs1|]. split.
      * intros path. rewrite Hc', fileContent_fwrite, Hc1.
        cbn [writtenFrom]. unfold sharesOfFile.
        rewrite filter_app, app_assoc. f_equal. subst f.
        destruct (fwrite_ok i).
        -- rewrite filter_cons, filter_nil.
           destruct (decide _); [reflexivity | symmetry; apply app_nil_r].
        -- rewrite filter_nil, app_nil_r.
           destruct (decide _); reflexivity.
      * intros key. rewrite Hk', Hfh, Hk1. split.
        -- intros [[Hk| ->]|(sh & Hin & Hkey)].
           ++ left. exact Hk.
           ++ right. exists share. split; [left | reflexivity].
           ++ right. exists sh. split; [right; exact Hin | exact Hkey].
        -- intros [Hk|(sh & Hin & Hkey)].
           ++ left. left. exact Hk.
           ++ apply elem_of_cons in Hin as [->|Hin].
              ** left. right. exact Hkey.
              ** right. exists sh. split; assumption.
Qed.

(** When every [fopen] succeeds the loop reaches its end. *)
Lemma writeShares_total shares : forall (i : nat) w,
  (forall path, fopen_ok path = true) ->
  is_Some (writeShares fopen_ok fwrite_ok i shares w).
Proof.
  induction shares as [|share rest IH]; intros i w Hok; simpl; [eauto|].
  unfold getFileHandler.
  destruct (fileHandlers_ w !! _); [apply IH, Hok|].
  rewrite Hok. apply IH, Hok.
Qed.
End FlushFacts.

Lemma smallest_spec keys key :
  smallest keys = Some key ->
  key ∈ keys /\ forall k, k ∈ keys -> key <= k.
Proof.
  revert key. induction keys as [|a keys IH]; intros key Hs; [discriminate|].
  simpl in Hs. destruct (smallest keys) as [b|] eqn:Hb.
  - destruct (IH b eq_refl) as [Hin Hle]. inversion Hs; subst key. split.
    + destruct (Z.min_spec a b) as [[_ ->]|[_ ->]]; [left | right; exact Hin].
    + intros k Hk. apply elem_of_cons in Hk as [->|Hk]; [lia|].
      specialize (Hle k Hk). lia.
  - inversion Hs; subst key. destruct keys as [|c keys]; [|discriminate].
    split; [left|]. intros k Hk. apply list_elem_of_singleton in Hk. lia.
Qed.

Lemma smallest_nonempty keys : keys <> [] -> is_Some (smallest keys).
Proof. destruct keys; [contradiction | intros _; simpl; eauto]. Qed.

Lemma begin_spec (handlers : gmap Z Z) key :
  begin handlers = Some key ->
  is_Some (handlers !! key)
  /\ forall k, is_Some (handlers !! k) -> key <= k.
Proof.
  intros Hb. apply smallest_spec in Hb as [Hin Hle]. split.
  - apply list_elem_of_fmap in Hin as [[k f] [-> Hin]].
    apply elem_of_map_to_list in Hin. simpl. eauto.
  - intros k [f Hk]. apply Hle. apply list_elem_of_fmap.
    exists (k, f). split; [reflexivity|]. apply elem_of_map_to_list. exact Hk.
Qed.

Lemma begin_nonempty (handlers : gmap Z Z) :
  (0 < size handlers)%nat -> is_Some (begin handlers).
Proof.
  intros Hsize. apply smallest_nonempty. intros Hnil.
  apply fmap_nil_inv in Hnil. apply map_to_list_empty_iff in Hnil.
  subst handlers. rewrite map_size_empty in Hsize. lia.
Qed.

(** The loop of [tryCloseOldHanders] leaves at most three handles, and
    exactly three when there were more; it closes none when there are at
    most three, closes handles of the map in increasing order of their
    keys, leaves the others as they are, and every key it closes is
    below every key it leaves. *)
Lemma closeOld_spec turns : forall handlers : gmap Z Z,
  (size handlers <= turns + 3)%nat ->
  (size (snd (closeOld turns handlers)) <= 3)%nat
  /\ ((size handlers <= 3)%nat -> closeOld turns handlers = ([], handlers))
  /\ (forall k, k ∈ fst (closeOld turns handlers) ->
       is_Some (handlers !! k) /\ snd (closeOld turns handlers) !! k = None)
  /\ (forall k, k ∉ fst (closeOld turns handlers) ->
       snd (closeOld turns handlers) !! k = handlers !! k)
  /\ (forall c k, c ∈ fst (closeOld turns handlers) ->
       is_Some (snd (closeOld turns handlers) !! k) -> c < k)
  /\ StronglySorted Z.lt (fst (closeOld turns handlers))
  /\ ((3 < size handlers)%nat ->
      size (snd (closeOld turns handlers)) = 3%nat).
Proof.
  induction turns as [|turns IH]; intros handlers Hsize; simpl.
  - split; [lia|]. split; [reflexivity|].
    split; [intros k Hk; inversion Hk|]. split; [reflexivity|].
    split; [intros c k Hc; inversion Hc|]. split; [constructor | lia].
  - destruct (decide (3 < size handlers)%nat) as [Hbig|Hsmall]; simpl.
    2:{ split; [lia|]. split; [reflexivity|].
        split; [intros k Hk; inversion Hk|]. split; [reflexivity|].
        split; [intros c k Hc; inversion Hc|]. split; [constructor | lia]. }
    destruct (begin_nonempty handlers) as [key Hkey]; [lia|].
    rewrite Hkey. simpl.
    destruct (begin_spec handlers key Hkey) as [Hin Hmin].
    assert (Hdel : size (delete key handlers) = (size handlers - 1)%nat)
      by (rewrite map_size_delete_Some by exact Hin; lia).
    destruct (IH (delete key handlers))
      as (Hle & Hnone & Hclosed & Hkept & Hbelow & Hsorted & Hthree).
    { lia. }
    split; [exact Hle|]. split; [lia|]. split; [|split; [|split; [|split]]].
    + intros k Hk. apply elem_of_cons in Hk as [->|Hk].
      * split; [exact Hin|].
        destruct (decide (key ∈ fst (closeOld turns (delete key handlers)))) as [Hc|Hc].
        -- apply Hclosed, Hc.
        -- rewrite (Hkept key Hc). apply lookup_delete_eq.
      * destruct (Hclosed k Hk) as [Hsome Hnone']. split; [|exact Hnone'].
        destruct (decide (key = k)) as [->|Hne]; [exact Hin|].
        rewrite lookup_delete_ne in Hsome by exact Hne. exact Hsome.
    + intros k Hk. apply not_elem_of_cons in Hk as [Hne Hk].
      rewrite (Hkept k Hk). apply lookup_delete_ne. congruence.
    + intros c k Hc Hk. apply elem_of_cons in Hc as [->|Hc].
      * destruct (decide (key ∈ fst (closeOld turns (delete key handlers)))) as [Hc|Hc].
        -- apply (Hbelow key k Hc Hk).
        -- destruct (decide (k ∈ fst (closeOld turns (delete key handlers)))) as [Hk'|Hk'].
           ++ destruct (Hclosed k Hk') as [_ Hnone']. rewrite Hnone' in Hk.
              destruct Hk as [? Hk]. discriminate.
           ++ rewrite (Hkept k Hk') in Hk.
              destruct (decide (key = k)) as [->|Hne].
              ** rewrite lookup_delete_eq in Hk. destruct Hk as [? Hk]. discriminate.
              ** rewrite lookup_delete_ne in Hk by exact Hne.
                 specialize (Hmin k Hk). lia.
      * apply (Hbelow c k Hc Hk).
    + constructor; [exact Hsorted|]. apply Forall_forall. intros c Hc.
      destruct (Hclosed c Hc) as [Hsome _].
      destruct (decide (key = c)) as [->|Hne].
      * rewrite lookup_delete_eq in Hsome. destruct Hsome as [? Hsome]. discriminate.
      * rewrite lookup_delete_ne in Hsome by exact Hne.
        specialize (Hmin c Hsome). lia.
    + intros _. destruct (decide (3 < size (delete key handlers))%nat) as [Hb|Hs].
      * apply Hthree, Hb.
      * rewrite Hnone by lia. simpl. lia.
Qed.

(** C8, as the code has it: when [flushToDisk] returns (every [fopen]
    worked) it returns [true]; every buffered share whose [fwrite]
    succeeded, and so every buffered share when every [fwrite] succeeds,
    has been appended, in buffer order, to the file of the day-bucket key
    [timestamp - timestamp mod 86400] and to no other file, and the
    buffer is empty.  The cache of open handles holds at most three
    entries: of the handles it held before and those opened for the days
    of the shares, those of [closed] have been closed and left the cache
    and the others are in it, open on the file of their key; handles are
    closed only while more than three are left, in increasing order of
    their keys, and every closed key is below every key left in the
    cache. *)
Theorem flushToDisk_written fopen_ok fwrite_ok w ok closed w' :
  handlers_wf w ->
  timestamps32 (shares_ w) ->
  flushToDisk fopen_ok fwrite_ok w = Some (ok, closed, w') ->
  ok = true
  /\ shares_ w' = []
  /\ (forall path,
        fileContent w' path
        = fileContent w path
            ++ sharesOfFile path (written fwrite_ok (shares_ w)))
  /\ ((forall i : nat, (i < length (shares_ w))%nat -> fwrite_ok i = true) ->
      forall path,
        fileContent w' path = fileContent w path ++ sharesOfFile path (shares_ w))
  /\ (size (fileHandlers_ w') <= 3)%nat
  /\ (closed = [] \/ size (fileHandlers_ w') = 3%nat)
  /\ (forall key, key ∈ closed ->
        cached w key /\ fileHandlers_ w' !! key = None)
  /\ (forall key, cached w key -> key ∉ closed ->
        fileHandlers_ w' !! key = Some (getStatsFilePath key))
  /\ (forall key, is_Some (fileHandlers_ w' !! key) -> cached w key)
  /\ StronglySorted Z.lt closed
  /\ (forall c k, c ∈ closed -> is_Some (fileHandlers_ w' !! k) -> c < k).
Proof.
  intros Hwf Hts Hflush. unfold flushToDisk in Hflush.
  destruct (writeShares fopen_ok fwrite_ok 0 (shares_ w) w) as [w1|] eqn:Hrun;
    [|discriminate].
  destruct (writeShares_spec fopen_ok fwrite_ok _ _ _ _ Hwf Hts Hrun)
    as (Hwf1 & _ & Hc1 & Hk1).
  unfold tryCloseOldHanders in Hflush. simpl in Hflush.
  destruct (closeOld_spec (size (fileHandlers_ w1)) (fileHandlers_ w1))
    as (Hle & Hnone & Hclosed & Hkept & Hbelow & Hsorted & Hthree); [lia|].
  inversion Hflush; subst ok closed w'. simpl.
  assert (Hcached : forall key, is_Some (fileHandlers_ w1 !! key) <-> cached w key)
    by (intros key; apply Hk1).
  split; [reflexivity|]. split; [reflexivity|]. split; [exact Hc1|].
  split; [|split; [exact Hle|]; split; [|split; [|split; [|split; [|split]]]]].
  - intros Hok path.
    change (fileContent w1 path
            = fileContent w path ++ sharesOfFile path (shares_ w)).
    rewrite Hc1. unfold written.
    rewrite written_all; [reflexivity|]. intros j Hj. apply Hok, Hj.
  - destruct (decide (3 < size (fileHandlers_ w1))%nat) as [Hb|Hs].
    + right. apply Hthree, Hb.
    + left. rewrite Hnone by lia. reflexivity.
  - intros key Hkey. destruct (Hclosed key Hkey) as [Hsome Hgone].
    split; [apply Hcached, Hsome | exact Hgone].
  - intros key Hkey Hopen. rewrite (Hkept key Hopen).
    apply Hcached in Hkey as [f Hf]. rewrite Hf. f_equal. apply (Hwf1 key f Hf).
  - intros key Hsome. apply Hcached.
    destruct (decide (key ∈ fst (closeOld (size (fileHandlers_ w1)) (fileHandlers_ w1))))
      as [Hc|Hc].
    + destruct (Hclosed key Hc) as [Hs _]. exact Hs.
    + rewrite <- (Hkept key Hc). exact Hsome.
  - exact Hsorted.
  - exact Hbelow.
Qed.

(** When every [fopen] succeeds, [flushToDisk] returns. *)
Lemma flushToDisk_total fopen_ok fwrite_ok w :
  (forall path, fopen_ok path = true) ->
  is_Some (flushToDisk fopen_ok fwrite_ok w).
Proof.
  intros Hok. unfold flushToDisk.
  destruct (writeShares_total fopen_ok fwrite_ok (shares_ w) 0%nat w Hok)
    as [w1 ->].
  eauto.
Qed.

Example flushToDisk_scenario_4 :
  (fun r : bool * list Z * t =>
     (fileContent (snd r) 0, fileContent (snd r) 1, shares_ (snd r)))
    <$> flushToDisk (fun _ => true) (fun _ => true) writer_3
  = Some ([logged 1000], [logged 90000; logged 100000], []).
Proof. vm_compute. reflexivity. Qed.

Example flushToDisk_evicts :
  (fun r : bool * list Z * t =>
     (snd (fst r),
      (fun key => fileHandlers_ (snd r) !! key)
        <$> [0; 86400; 172800; 259200; 345600]))
    <$> flushToDisk (fun _ => true) (fun _ => true) writer_5
  = Some ([0; 86400], [None; None; Some 2; Some 3; Some 4]).
Proof. vm_compute. reflexivity. Qed.

(** C8 fails as stated: when the [fwrite] of the second of the three
    buffered shares fails, [flushToDisk] returns [true] and the buffer is
    empty, yet the share is not in the file of its day (nor in any
    other): the result of [fwrite] is not looked at. *)
Lemma flushToDisk_share_lost :
  exists closed w',
    flushToDisk (fun _ => true) (fun i => negb (Nat.eqb i 1)) writer_3
    = Some (true, closed, w')
    /\ shares_ writer_3 !! 1%nat = Some (logged 90000)
    /\ getStatsFilePath (dayKey (Share.timestamp_ (logged 90000))) = 1
    /\ shares_ w' = []
    /\ files_ w' = <[1 := [logged 100000]]> (<[0 := [logged 1000]]> ∅)
    /\ fileContent w' 1 = [logged 100000].
Proof.
  eexists. eexists. split; [vm_compute; reflexivity|].
  split; [reflexivity|]. split; [reflexivity|]. split; [reflexivity|].
  split; vm_compute; reflexivity.
Qed.

(** The file of the second day cannot be opened: the process ends, after
    the first share was written. *)
Example flushToDisk_fatal :
  flushToDisk (fun path => negb (Z.eqb path 1)) (fun _ => true) writer_3 = None.
Proof. vm_compute. reflexivity. Qed.

Lemma handlers_wf_empty shares files : handlers_wf (mk shares ∅ files).
Proof. intros key f Hkey. simpl in Hkey. rewrite lookup_empty in Hkey. discriminate. Qed.

Lemma flushToDisk_written_witness :
  exists closed w',
    flushToDisk (fun _ => true) (fun _ => true) writer_5 = Some (true, closed, w')
    /\ shares_ w' = []
    /\ (forall path,
          fileContent w' path
          = fileContent writer_5 path
              ++ sharesOfFile path (written (fun _ => true) (shares_ writer_5)))
    /\ ((forall i : nat, (i < length (shares_ writer_5))%nat ->
           (fun _ : nat => true) i = true) ->
        forall path,
          fileContent w' path
          = fileContent writer_5 path ++ sharesOfFile path (shares_ writer_5))
    /\ (size (fileHandlers_ w') <= 3)%nat
    /\ (closed = [] \/ size (fileHandlers_ w') = 3%nat)
    /\ (forall key, key ∈ closed ->
          cached writer_5 key /\ fileHandlers_ w' !! key = None)
    /\ (forall key, cached writer_5 key -> key ∉ closed ->
          fileHandlers_ w' !! key = Some (getStatsFilePath key))
    /\ (forall key, is_Some (fileHandlers_ w' !! key) -> cached writer_5 key)
    /\ StronglySorted Z.lt closed
    /\ (forall c k, c ∈ closed -> is_Some (fileHandlers_ w' !! k) -> c < k).
Proof.
  destruct (flushToDisk (fun _ => true) (fun _ => true) writer_5)
    as [[[ok closed] w']|] eqn:Hflush; [|vm_compute in Hflush; discriminate].
  exists closed, w'.
  destruct (flushToDisk_written (fun _ => true) (fun _ => true) writer_5
              ok closed w') as (Hok & Hrest).
  - apply handlers_wf_empty.
  - unfold timestamps32, writer_5; simpl. repeat constructor; simpl; lia.
  - exact Hflush.
  - subst ok. split; [reflexivity | exact Hrest].
Defined.

End ShareLogWriterFacts.

Module ShareLogParserFacts.
Import ShareLogParser ShareLogParserSpec.

Lemma freadCount_nonneg len pos size nmemb fault :
  0 <= freadCount len pos size nmemb fault.
Proof. unfold freadCount. destruct fault as [[k q]|]; lia. Qed.

Section ParserFacts.
Variable kMaxElementsNum_ : Z.
Variable decode : list Byte.byte -> Share.t.

Local Abbreviation tick := (processGrowingShareLog kMaxElementsNum_ decode).

(** The stream's own position plays no part: the read starts at
    [lastPosition_]. *)
Lemma tick_seeks file fault f f' cursor stats :
  tick file fault (mk (Some f) cursor stats)
  = tick file fault (mk (Some f') cursor stats).
Proof. reflexivity. Qed.

Lemma tick_unopened fault p :
  f_ p = None -> tick None fault p = (-1, p).
Proof. intros Hf. unfold processGrowingShareLog. rewrite Hf. reflexivity. Qed.

(** A tick with a stream at hand: the records read, the cursor and the
    statistics afterwards. *)
Lemma tick_reads file fault p :
  is_Some (f_ p) \/ is_Some file ->
  fst (tick file fault p)
    = freadCount (Z.of_nat (length (default [] file))) (lastPosition_ p)
        Share.sizeof kMaxElementsNum_ fault
  /\ lastPosition_ (snd (tick file fault p))
     = lastPosition_ p + fst (tick file fault p) * Share.sizeof
  /\ workersStats_ (snd (tick file fault p))
     = parseShareLog decode
         (take (Z.to_nat (fst (tick file fault p) * Share.sizeof))
               (drop (Z.to_nat (lastPosition_ p)) (default [] file)))
         (fst (tick file fault p) * Share.sizeof)
         (workersStats_ p).
Proof.
  intros Hopen. unfold processGrowingShareLog.
  assert (Hsome : exists f,
    match f_ p with
    | Some f => Some f
    | None => match file with Some _ => Some (FILE.mk 0) | None => None end
    end = Some f).
  { destruct (f_ p) as [f|]; [eauto|]. destruct file; [eauto|].
    destruct Hopen as [[? ?]|[? ?]]; discriminate. }
  destruct Hsome as [f ->]. unfold fread, fseek. simpl.
  destruct (decide _) as [Hzero|Hread]; simpl.
  - rewrite Hzero. split; [reflexivity|]. split; [lia|]. reflexivity.
  - split; [reflexivity|]. split; reflexivity.
Qed.

Lemma tick_cursor file fault p :
  lastPosition_ (snd (tick file fault p))
  = lastPosition_ p + Z.max 0 (fst (tick file fault p)) * Share.sizeof.
Proof.
  destruct (f_ p) as [f|] eqn:Hf; [|destruct file as [content|] eqn:Hfile].
  - destruct (tick_reads file fault p) as (Hn & Hc & _); [left; rewrite Hf; eauto|].
    rewrite Hc. pose proof (freadCount_nonneg
      (Z.of_nat (length (default [] file))) (lastPosition_ p)
      Share.sizeof kMaxElementsNum_ fault) as Hpos.
    rewrite <- Hn in Hpos. f_equal. f_equal. lia.
  - destruct (tick_reads (Some content) fault p) as (Hn & Hc & _); [right; eauto|].
    rewrite Hc. pose proof (freadCount_nonneg
      (Z.of_nat (length (default [] (Some content)))) (lastPosition_ p)
      Share.sizeof kMaxElementsNum_ fault) as Hpos.
    rewrite <- Hn in Hpos. f_equal. f_equal. lia.
  - rewrite (tick_unopened fault p Hf). simpl. lia.
Qed.

Lemma tick_aligned file fault p :
  lastPosition_ p mod Share.sizeof = 0 ->
  lastPosition_ (snd (tick file fault p)) mod Share.sizeof = 0.
Proof.
  intros Hal. rewrite tick_cursor.
  rewrite Z.mod_add by (unfold Share.sizeof; lia). exact Hal.
Qed.

Lemma ticks_aligned world :
  lastPosition_ (ticks kMaxElementsNum_ decode world) mod Share.sizeof = 0.
Proof.
  unfold ticks. induction world as [|w world IH] using rev_ind;
    [reflexivity|].
  rewrite foldl_app. simpl. apply tick_aligned, IH.
Qed.

Lemma tick_zero file fault p :
  fst (tick file fault p) = 0 ->
  lastPosition_ (snd (tick file fault p)) = lastPosition_ p
  /\ workersStats_ (snd (tick file fault p)) = workersStats_ p.
Proof.
  intros Hzero. split.
  - rewrite tick_cursor, Hzero. simpl. lia.
  - destruct (f_ p) as [f|] eqn:Hf; [|destruct file as [content|] eqn:Hfile].
    + destruct (tick_reads file fault p) as (_ & _ & Hs); [left; rewrite Hf; eauto|].
      rewrite Hs, Hzero. reflexivity.
    + destruct (tick_reads (Some content) fault p) as (_ & _ & Hs); [right; eauto|].
      rewrite Hs, Hzero. reflexivity.
    + rewrite (tick_unopened fault p Hf). reflexivity.
Qed.

(** C9: a tick of the growing-file replayer reads from the tracked cursor
    [lastPosition_], whatever the stream's own position; the cursor moves
    by exactly the number of whole records read times the record size, and
    those records, taken from the cursor on, are fed to the statistics; the
    cursor is a multiple of the record size after every run of ticks; and a
    read of zero records returns 0 and leaves the cursor and the statistics
    as they were. *)
Theorem processGrowingShareLog_cursor file fault p :
  (forall f f',
     tick file fault (mk (Some f) (lastPosition_ p) (workersStats_ p))
     = tick file fault (mk (Some f') (lastPosition_ p) (workersStats_ p)))
  /\ (is_Some (f_ p) \/ is_Some file ->
      fst (tick file fault p)
        = freadCount (Z.of_nat (length (default [] file))) (lastPosition_ p)
            Share.sizeof kMaxElementsNum_ fault
      /\ lastPosition_ (snd (tick file fault p))
         = lastPosition_ p + fst (tick file fault p) * Share.sizeof
      /\ workersStats_ (snd (tick file fault p))
         = parseShareLog decode
             (take (Z.to_nat (fst (tick file fault p) * Share.sizeof))
                   (drop (Z.to_nat (lastPosition_ p)) (default [] file)))
             (fst (tick file fault p) * Share.sizeof)
             (workersStats_ p))
  /\ (lastPosition_ p mod Share.sizeof = 0 ->
      lastPosition_ (snd (tick file fault p)) mod Share.sizeof = 0)
  /\ (forall world,
       lastPosition_ (ticks kMaxElementsNum_ decode world) mod Share.sizeof = 0)
  /\ (fst (tick file fault p) = 0 ->
      lastPosition_ (snd (tick file fault p)) = lastPosition_ p
      /\ workersStats_ (snd (tick file fault p)) = workersStats_ p).
Proof.
  split; [intros f f'; apply tick_seeks|].
  split; [apply tick_reads|].
  split; [apply tick_aligned|].
  split; [apply ticks_aligned | apply tick_zero].
Qed.
End ParserFacts.

(** Two ticks on a growing file: 100 bytes (two records and four bytes of a
    third), then 150 bytes.  After the first tick the cursor is at 96 while
    the stream's own position is at 100; the second tick reads the third
    record from 96. *)
Example ticks_growing :
  fst (processGrowingShareLog 2000000 (fun _ => ShareLogWriterSpec.logged 90000)
         (Some (zeros 100)) None new) = 2
  /\ lastPosition_ (ticks 2000000 (fun _ => ShareLogWriterSpec.logged 90000)
                      [(Some (zeros 100), None)]) = 96
  /\ f_ (ticks 2000000 (fun _ => ShareLogWriterSpec.logged 90000)
           [(Some (zeros 100), None)]) = Some (FILE.mk 100)
  /\ fst (processGrowingShareLog 2000000 (fun _ => ShareLogWriterSpec.logged 90000)
           (Some (zeros 150)) None
           (ticks 2000000 (fun _ => ShareLogWriterSpec.logged 90000)
              [(Some (zeros 100), None)])) = 1
  /\ lastPosition_ (ticks 2000000 (fun _ => ShareLogWriterSpec.logged 90000)
                      [(Some (zeros 100), None); (Some (zeros 150), None);
                       (Some (zeros 150), None)]) = 144.
Proof. vm_compute. repeat split; reflexivity. Qed.

(** A read error after one record leaves the stream anywhere (here at
    12345); the cursor is at 48 and the next tick reads the two records
    that follow it. *)
Example ticks_after_error :
  lastPosition_ (ticks 2000000 (fun _ => ShareLogWriterSpec.logged 90000)
                   [(Some (zeros 150), Some (1, 12345))]) = 48
  /\ f_ (ticks 2000000 (fun _ => ShareLogWriterSpec.logged 90000)
           [(Some (zeros 150), Some (1, 12345))]) = Some (FILE.mk 12345)
  /\ fst (processGrowingShareLog 2000000 (fun _ => ShareLogWriterSpec.logged 90000)
           (Some (zeros 150)) None
           (ticks 2000000 (fun _ => ShareLogWriterSpec.logged 90000)
              [(Some (zeros 150), Some (1, 12345))])) = 2.
Proof. vm_compute. repeat split; reflexivity. Qed.

(** The file cannot be opened: the tick returns -1. *)
Example tick_no_file :
  processGrowingShareLog 2000000 (fun _ => ShareLogWriterSpec.logged 90000)
    None None new = (-1, new).
Proof. reflexivity. Qed.

End ShareLogParserFacts.

Module StatsServerQueryFacts.
Import StatsServer StatsServerQuery StatsServerQuerySpec StatsServerSpec.

Section SumFacts.
Variable sum : StatsWindow.t -> Z -> Z -> Z.

Lemma getWorkerStatusBatch_length now s keys workerStatus :
  length (getWorkerStatusBatch sum now s keys workerStatus) = length keys.
Proof.
  unfold getWorkerStatusBatch.
  rewrite length_zip_with_l_eq; rewrite length_fmap; [reflexivity|].
  rewrite length_resize. reflexivity.
Qed.

Lemma getWorkerStatusBatch_at now s keys workerStatus (i : nat) key :
  keys !! i = Some key ->
  getWorkerStatusBatch sum now s keys workerStatus !! i
  = Some (match findShares s key with
          | Some ws => getWorkerStatus sum now ws
          | None => default WorkerStatus.new (workerStatus !! i)
          end).
Proof.
  intros Hkey. unfold getWorkerStatusBatch.
  rewrite lookup_zip_with, list_lookup_fmap, Hkey. simpl.
  assert (Hi : (i < length keys)%nat) by (apply lookup_lt_is_Some; eauto).
  destruct (decide (i < length workerStatus)%nat) as [Hold|Hnew].
  - rewrite lookup_resize by assumption.
    destruct (lookup_lt_is_Some_2 workerStatus i Hold) as [st Hst].
    rewrite Hst. reflexivity.
  - rewrite lookup_resize_new by lia.
    rewrite (lookup_ge_None_2 workerStatus i) by lia. reflexivity.
Qed.

(** X1: [getWorkerStatusBatch] returns one status per key, in the order of
    the keys.  A key whose worker id is 0 is answered from [userSet_], any
    other key from [workerSet_]; for a key that is not in its map the entry
    is what [resize] left there: the status the caller's vector held at
    that index, or the default-constructed status when the vector was
    shorter. *)
Theorem getWorkerStatusBatch_entries now s keys workerStatus :
  length (getWorkerStatusBatch sum now s keys workerStatus) = length keys
  /\ (forall (i : nat) userId,
        keys !! i = Some (userId, 0) ->
        getWorkerStatusBatch sum now s keys workerStatus !! i
        = Some (match userSet_ s !! userId with
                | Some ws => getWorkerStatus sum now ws
                | None => default WorkerStatus.new (workerStatus !! i)
                end))
  /\ (forall (i : nat) userId workerId,
        workerId <> 0 ->
        keys !! i = Some (userId, workerId) ->
        getWorkerStatusBatch sum now s keys workerStatus !! i
        = Some (match workerSet_ s !! (userId, workerId) with
                | Some ws => getWorkerStatus sum now ws
                | None => default WorkerStatus.new (workerStatus !! i)
                end)).
Proof.
  split; [apply getWorkerStatusBatch_length|]. split.
  - intros i userId Hkey.
    rewrite (getWorkerStatusBatch_at _ _ _ _ _ _ Hkey).
    unfold findShares. simpl.
    destruct (decide (0 = 0)) as [_|Hne]; [reflexivity | contradiction].
  - intros i userId workerId Hw Hkey.
    rewrite (getWorkerStatusBatch_at _ _ _ _ _ _ Hkey).
    unfold findShares. simpl.
    destruct (decide (workerId = 0)) as [Hz|_]; [contradiction | reflexivity].
Qed.

(** X2: a share that passes the guards of [processShare], that of the
    server and that of the aggregate of the key (each at its own reading
    of the clock; the aggregate of a key whose worker id is 0 is the
    user's), is what the status queries report next: the batch query for
    the share's worker key, and the one for its user key (worker id 0),
    return a status whose [lastShareTime_] and [lastShareIP_] are those
    of the share. *)
Theorem processShare_getWorkerStatusBatch clock now' share s key :
  WorkerSharesSpec.withinHorizon (Clock.server clock) share ->
  WorkerSharesSpec.withinHorizon
    (if decide (WorkerKey.workerId_ key = 0)
     then Clock.user clock else Clock.worker clock) share ->
  key = (Share.userId_ share, Share.workerHashId_ share)
  \/ key = (Share.userId_ share, 0) ->
  exists status,
    getWorkerStatusBatch sum now' (processShare clock share s) [key] [] = [status]
    /\ WorkerStatus.lastShareTime_ status = Share.timestamp_ share
    /\ WorkerStatus.lastShareIP_ status = Share.ip_ share.
Proof.
  intros Hin Hagg Hkey.
  destruct (StatsServerFacts.processShare_fresh clock share s Hin) as (_ & Hw & Hu).
  set (fresh := WorkerShares.new (Share.workerHashId_ share) (Share.userId_ share)) in *.
  assert (Hlast : forall now ws,
    WorkerSharesSpec.withinHorizon now share ->
    WorkerShares.lastShareTime_ (WorkerShares.processShare now share ws)
      = Share.timestamp_ share
    /\ WorkerShares.lastShareIP_ (WorkerShares.processShare now share ws)
      = Share.ip_ share).
  { intros now ws Hnow. rewrite (WorkerSharesFacts.processShare_within _ _ _ Hnow).
    destruct (decide (Share.result_ share = Share.ACCEPT)); split; reflexivity. }
  assert (Hfind : exists now ws,
    WorkerSharesSpec.withinHorizon now share
    /\ findShares (processShare clock share s) key
        = Some (WorkerShares.processShare now share ws)).
  { unfold findShares.
    destruct Hkey as [-> | ->]; simpl in *.
    - destruct (decide (Share.workerHashId_ share = 0)); eauto.
    - destruct (decide (0 = 0)) as [_|Hne]; [eauto | contradiction]. }
  destruct Hfind as (now & ws & Hnow & Hfind).
  exists (getWorkerStatus sum now' (WorkerShares.processShare now share ws)).
  split.
  - unfold getWorkerStatusBatch. simpl. rewrite Hfind. reflexivity.
  - simpl. apply Hlast, Hnow.
Qed.
End SumFacts.

Lemma processShare_getWorkerStatusBatch_witness :
  exists status,
    getWorkerStatusBatch sum_len 1100
      (processShare (Clock.mk 1060 1061 1062 1063)
         (WorkerSharesSpec.share_at 1059 Share.ACCEPT 1) new)
      [(1, 5)] [] = [status]
    /\ WorkerStatus.lastShareTime_ status = 1059
    /\ WorkerStatus.lastShareIP_ status = 167772161.
Proof.
  apply (processShare_getWorkerStatusBatch sum_len (Clock.mk 1060 1061 1062 1063)
           1100 (WorkerSharesSpec.share_at 1059 Share.ACCEPT 1) new (1, 5)).
  - vm_compute. discriminate.
  - vm_compute. discriminate.
  - left. reflexivity.
Defined.

(** An unknown worker in a vector that held a status already: the entry
    is left as it was. *)
Example getWorkerStatusBatch_unknown :
  getWorkerStatusBatch sum_len 1100 new [(1, 5); (1, 0)] [status_at 7 7]
  = [status_at 7 7; WorkerStatus.new].
Proof. reflexivity. Qed.

(** *** mergeWorkerStatus: the sums *)

Lemma merge_fold_total (f : WorkerStatus.t -> Z) (m : Z) :
  (forall s w, f (mergeStep s w) = (f s + f w) mod m) ->
  forall l s, f s mod m = f s ->
    f (foldl mergeStep s l) = (f s + total f l) mod m.
Proof.
  intros Hstep. induction l as [|a l IH]; intros s Hs; simpl.
  - rewrite Z.add_0_r. symmetry. exact Hs.
  - rewrite IH by (rewrite Hstep; apply Zmod_mod).
    rewrite Hstep, Zplus_mod_idemp_l. f_equal. lia.
Qed.

Lemma merge_fold_new (f : WorkerStatus.t -> Z) (m : Z) :
  (forall s w, f (mergeStep s w) = (f s + f w) mod m) ->
  f WorkerStatus.new = 0 ->
  forall l, f (foldl mergeStep WorkerStatus.new l) = total f l mod m.
Proof.
  intros Hstep Hnew l.
  rewrite (merge_fold_total f m Hstep) by (rewrite Hnew; apply Zmod_0_l).
  rewrite Hnew. reflexivity.
Qed.

Lemma foldr_max_base (ts : list Z) (x y : Z) :
  foldr Z.max (Z.max x y) ts = Z.max y (foldr Z.max x ts).
Proof. induction ts as [|b ts IH]; simpl; [|rewrite IH]; lia. Qed.

Lemma merge_fold_latest l : forall s,
  WorkerStatus.lastShareTime_ (foldl mergeStep s l)
  = foldr Z.max (WorkerStatus.lastShareTime_ s) (WorkerStatus.lastShareTime_ <$> l).
Proof.
  induction l as [|a l IH]; intros s; simpl; [reflexivity|].
  rewrite IH, StatsServerFacts.mergeStep_lastShareTime.
  apply foldr_max_base.
Qed.

(** X3: the status that [mergeWorkerStatus] returns holds, in each of the
    six window counters, the sum of that counter over the statuses modulo
    2^64, in [acceptCount_] the sum of the counts modulo 2^32, and as
    [lastShareTime_] the latest of their times and 0. *)
Theorem mergeWorkerStatus_sums (l : list WorkerStatus.t) :
  WorkerStatus.accept1m_ (mergeWorkerStatus l)
  = u64 (total WorkerStatus.accept1m_ l)
  /\ WorkerStatus.accept5m_ (mergeWorkerStatus l)
     = u64 (total WorkerStatus.accept5m_ l)
  /\ WorkerStatus.accept15m_ (mergeWorkerStatus l)
     = u64 (total WorkerStatus.accept15m_ l)
  /\ WorkerStatus.reject15m_ (mergeWorkerStatus l)
     = u64 (total WorkerStatus.reject15m_ l)
  /\ WorkerStatus.accept1h_ (mergeWorkerStatus l)
     = u64 (total WorkerStatus.accept1h_ l)
  /\ WorkerStatus.reject1h_ (mergeWorkerStatus l)
     = u64 (total WorkerStatus.reject1h_ l)
  /\ WorkerStatus.acceptCount_ (mergeWorkerStatus l)
     = u32 (total WorkerStatus.acceptCount_ l)
  /\ WorkerStatus.lastShareTime_ (mergeWorkerStatus l) = latest l.
Proof.
  rewrite StatsServerFacts.mergeWorkerStatus_fold. unfold u64, u32.
  do 7 (split; [apply (merge_fold_new _ _);
                  [intros s w; unfold mergeStep, u64, u32;
                   destruct (decide _); reflexivity
                  |reflexivity]|]).
  rewrite merge_fold_latest. reflexivity.
Qed.

(** Two statuses whose one-minute sums add up to 2^64 + 1, and whose
    counts add up to 2^32: the merged status holds 1 and 0. *)
Example mergeWorkerStatus_wraps :
  let l := [WorkerStatus.mk (2 ^ 63) 0 0 0 0 0 (2 ^ 31) 7 7;
            WorkerStatus.mk (2 ^ 63 + 1) 0 0 0 0 0 (2 ^ 31) 8 8] in
  WorkerStatus.accept1m_ (mergeWorkerStatus l) = 1
  /\ WorkerStatus.acceptCount_ (mergeWorkerStatus l) = 0.
Proof. split; reflexivity. Qed.

(** *** The uptime of the status page *)

(** X4: the days, hours, minutes and seconds that [httpdServerStatus]
    prints add up to the uptime, a 32-bit number of seconds, with hours
    below 24 and minutes and seconds below 60. *)
Theorem uptimeFields_recompose now uptime_ :
  let '(d, h, m, sec) := uptimeFields (uptime now uptime_) in
  d * 86400 + h * 3600 + m * 60 + sec = uptime now uptime_
  /\ 0 <= uptime now uptime_ < 2 ^ 32
  /\ 0 <= d /\ 0 <= h < 24 /\ 0 <= m < 60 /\ 0 <= sec < 60.
Proof.
  unfold uptimeFields, uptime, u32.
  pose proof (Z.mod_pos_bound (now - uptime_) (2 ^ 32) ltac:(lia)) as Hu.
  generalize dependent ((now - uptime_) mod 2 ^ 32). intros u Hu.
  split; [|split; [exact Hu|]]; Z.to_euclidean_division_equations; lia.
Qed.

Example uptimeFields_example :
  uptimeFields (uptime 1000090061 1000000000) = (1, 1, 1, 1).
Proof. reflexivity. Qed.

End StatsServerQueryFacts.

Module StatsServerRedisFacts.
Import StatsServerRedis.

Lemma flushedEntries_concat {A} (entries : list A) (st k : nat) :
  concat ((fun i => take st (drop (st * i) entries)) <$> seq 0 k)
  = take (st * k) entries.
Proof.
  induction k as [|k IH]; [rewrite Nat.mul_0_r; reflexivity|].
  rewrite seq_S, fmap_app, concat_app, IH. simpl. rewrite app_nil_r.
  rewrite take_take_drop. f_equal. lia.
Qed.

Lemma stepSize_covers (size n : nat) :
  (0 < n)%nat -> (size <= stepSize size n * n)%nat.
Proof.
  intros Hn. unfold stepSize.
  pose proof (Nat.div_mod_eq size n) as Hdiv.
  destruct (decide _) as [Hrem|Hz].
  - pose proof (Nat.mod_upper_bound size n ltac:(lia)). nia.
  - assert (size mod n = 0)%nat by lia. nia.
Qed.

(** X5: with at least one connection, the entries that the threads 0, 1,
    ..., [redisConcurrency_ - 1] flush, taken in this order, are the
    entries of the map in its iteration order: every entry is flushed by
    exactly one thread (for a map that is the same when each thread reads
    it). *)
Theorem flushedEntries_partition {A} (entries : list A) (redisConcurrency_ : nat) :
  (0 < redisConcurrency_)%nat ->
  concat (flushedEntries entries redisConcurrency_ <$> seq 0 redisConcurrency_)
  = entries.
Proof.
  intros Hn. unfold flushedEntries.
  rewrite flushedEntries_concat. apply take_ge.
  apply stepSize_covers, Hn.
Qed.

Lemma flushedEntries_partition_witness :
  concat (flushedEntries [1; 2; 3; 4; 5] 2 <$> seq 0 2) = [1; 2; 3; 4; 5].
Proof.
  apply (flushedEntries_partition [1; 2; 3; 4; 5] 2). lia.
Defined.

(** The example of the source: five entries and two threads; and more
    threads than entries. *)
Example flushedEntries_5_2 :
  flushedEntries [1; 2; 3; 4; 5] 2 0 = [1; 2; 3]
  /\ flushedEntries [1; 2; 3; 4; 5] 2 1 = [4; 5]
  /\ flushedEntries [1; 2] 3 <$> seq 0 3 = [[1]; [2]; []].
Proof. repeat split; reflexivity. Qed.

End StatsServerRedisFacts.

Module RedisKeyFacts.
Import String Ascii StatsServerRedis StatsServerRedisSpec.

Lemma no_slash_uint (d : Decimal.uint) :
  no_slash (DecimalString.NilEmpty.string_of_uint d).
Proof. induction d; simpl; try split; try discriminate; auto. Qed.

Lemma no_slash_to_string z : no_slash (to_string z).
Proof.
  unfold to_string, DecimalString.NilZero.string_of_int,
    DecimalString.NilZero.string_of_uint.
  destruct (Z.to_int z) as [d|d]; destruct d; simpl;
    repeat (split; try discriminate); try apply no_slash_uint; auto.
Qed.

Lemma to_string_inj z z' : to_string z = to_string z' -> z = z'.
Proof.
  assert (Hread : forall n,
    DecimalString.NilZero.int_of_string (to_string n) = Some (Z.to_int n)).
  { intros n. apply DecimalString.NilZero.isi; destruct n; simpl;
      intros H; inversion H;
      eapply DecimalPos.Unsigned.to_uint_nonnil; eassumption. }
  intros Heq. apply DecimalZ.to_int_inj.
  pose proof (Hread z) as Hz. rewrite Heq, Hread in Hz. congruence.
Qed.

Lemma append_inv_head (p x y : string) : (p ++ x = p ++ y)%string -> x = y.
Proof. induction p as [|c p IH]; simpl; intros H; [exact H|]. inversion H. auto. Qed.

(** A string without slash is delimited by the slash that follows it. *)
Lemma append_slash_inv (a a' r r' : string) :
  no_slash a -> no_slash a' ->
  (a ++ String "/" r = a' ++ String "/" r')%string ->
  a = a' /\ r = r'.
Proof.
  revert a'. induction a as [|c a IH]; intros [|c' a'] Ha Ha' Heq; simpl in *.
  - inversion Heq. split; reflexivity.
  - inversion Heq; subst c'. destruct Ha' as [Hc _]. contradiction.
  - inversion Heq; subst c. destruct Ha as [Hc _]. contradiction.
  - inversion Heq; subst c'.
    destruct (IH a' (proj2 Ha) (proj2 Ha') H1) as [-> ->]. split; reflexivity.
Qed.

Section KeyFacts.
Variable redisKeyPrefix_ : string.

Lemma key_inv (userId userId' : Z) (r r' : string) :
  (redisKeyPrefix_ ++ "mining_workers/pu/" ++ to_string userId ++ String "/" r
   = redisKeyPrefix_ ++ "mining_workers/pu/" ++ to_string userId' ++ String "/" r')%string ->
  userId = userId' /\ r = r'.
Proof.
  intros Heq. apply append_inv_head, append_inv_head in Heq.
  apply append_slash_inv in Heq as [Hu Hr]; try apply no_slash_to_string.
  split; [apply to_string_inj, Hu | exact Hr].
Qed.

(** X6: the keys of the three shapes never collide under one prefix: the
    key of a worker determines the user id and the worker id, the key of a
    user determines the user id, the key of an index determines the user
    id and the name of the index, and keys of different shapes are
    different. *)
Theorem getRedisKey_distinct :
  (forall userId workerId userId' workerId',
     getRedisKeyMiningWorker redisKeyPrefix_ userId workerId
     = getRedisKeyMiningWorker redisKeyPrefix_ userId' workerId' ->
     userId = userId' /\ workerId = workerId')
  /\ (forall userId userId',
        getRedisKeyMiningWorkerAll redisKeyPrefix_ userId
        = getRedisKeyMiningWorkerAll redisKeyPrefix_ userId' ->
        userId = userId')
  /\ (forall userId indexName userId' indexName',
        getRedisKeyIndex redisKeyPrefix_ userId indexName
        = getRedisKeyIndex redisKeyPrefix_ userId' indexName' ->
        userId = userId' /\ indexName = indexName')
  /\ (forall userId workerId userId',
        getRedisKeyMiningWorker redisKeyPrefix_ userId workerId
        <> getRedisKeyMiningWorkerAll redisKeyPrefix_ userId')
  /\ (forall userId workerId userId' indexName,
        getRedisKeyMiningWorker redisKeyPrefix_ userId workerId
        <> getRedisKeyIndex redisKeyPrefix_ userId' indexName)
  /\ (forall userId userId' indexName,
        getRedisKeyMiningWorkerAll redisKeyPrefix_ userId
        <> getRedisKeyIndex redisKeyPrefix_ userId' indexName).
Proof.
  unfold getRedisKeyMiningWorker, getRedisKeyMiningWorkerAll, getRedisKeyIndex.
  split; [|split; [|split; [|split; [|split]]]].
  - intros u w u' w' Heq. apply key_inv in Heq as [Hu Hr].
    split; [exact Hu|]. apply to_string_inj.
    apply (append_inv_head "wk/"). exact Hr.
  - intros u u' Heq. apply key_inv in Heq as [Hu _]. exact Hu.
  - intros u n u' n' Heq. apply key_inv in Heq as [Hu Hr].
    split; [exact Hu|]. apply (append_inv_head "sort/"). exact Hr.
  - intros u w u' Heq. apply key_inv in Heq as [_ Hr]. discriminate.
  - intros u w u' n Heq. apply key_inv in Heq as [_ Hr]. discriminate.
  - intros u u' n Heq. apply key_inv in Heq as [_ Hr]. discriminate.
Qed.
End KeyFacts.

Example getRedisKey_examples :
  getRedisKeyMiningWorker "btc/" 7 (-120) = "btc/mining_workers/pu/7/wk/-120"%string
  /\ getRedisKeyMiningWorkerAll "btc/" 7 = "btc/mining_workers/pu/7/all"%string
  /\ getRedisKeyIndex "btc/" 0 "accept_1m"
     = "btc/mining_workers/pu/0/sort/accept_1m"%string.
Proof. repeat split; reflexivity. Qed.

End RedisKeyFacts.

Module StatsServerThreadFacts.
Import StatsServer StatsServerThread ConsumerSpec.

Lemma foldl_bind_None {A B} (f : B -> A -> option A) (l : list B) :
  foldl (fun acc b => acc ≫= f b) None l = None.
Proof. induction l as [|b l IH]; [reflexivity | exact IH]. Qed.

Section ConsumeFacts.
Variable decode : list Byte.byte -> Share.t.

Lemma consumeShareLog_shareOf clock m s :
  consumeShareLog decode clock m s
  = if fatal m then None
    else Some (match shareOf decode m with
               | Some share => processShare clock share s
               | None => s
               end).
Proof.
  unfold consumeShareLog, shareOf, fatal.
  destruct (KafkaMessage.err m); try reflexivity.
  destruct (decide (KafkaMessage.len m <> Share.sizeof)) as [Hne|Heq];
    destruct (decide (KafkaMessage.len m = Share.sizeof)) as [Heq'|Hne'];
    try reflexivity; try contradiction.
  rewrite Heq'. destruct (Share.isValid _); reflexivity.
Qed.

(** X7: a message whose error is an unknown partition or an unknown topic
    ends the process.  Any other message that carries an error, whose
    length is not the size of a [Share], or whose share is not valid
    leaves the server as it was, [lastShareTime_] included, and a message
    that carries a valid share is handed to [processShare].  A run of
    messages none of which ends the process leaves the server that
    [processShare] of their shares leaves, in their order and at their
    readings of the clock; a run with a message that ends the process
    does not return. *)
Theorem consumeShareLog_run (events : list (Clock.t * KafkaMessage.t)) s :
  (forall clock m, fatal m = true -> consumeShareLog decode clock m s = None)
  /\ (forall clock m,
        fatal m = false -> shareOf decode m = None ->
        consumeShareLog decode clock m s = Some s)
  /\ (forall clock m share,
        shareOf decode m = Some share ->
        consumeShareLog decode clock m s = Some (processShare clock share s))
  /\ foldl (fun acc ev => acc ≫= consumeShareLog decode (fst ev) (snd ev))
           (Some s) events
     = if forallb (fun ev : Clock.t * KafkaMessage.t => negb (fatal (snd ev)))
                  events
       then Some (foldl (fun s ev => processShare (fst ev) (snd ev) s) s
                    (omap (fun ev => pair (fst ev) <$> shareOf decode (snd ev))
                          events))
       else None.
Proof.
  split; [|split; [|split]].
  - intros clock m Hfatal. rewrite consumeShareLog_shareOf, Hfatal. reflexivity.
  - intros clock m Hfatal Hnone.
    rewrite consumeShareLog_shareOf, Hfatal, Hnone. reflexivity.
  - intros clock m share Hshare. rewrite consumeShareLog_shareOf, Hshare.
    assert (Hfatal : fatal m = false).
    { unfold shareOf, fatal in *. destruct (KafkaMessage.err m);
        try discriminate; reflexivity. }
    rewrite Hfatal. reflexivity.
  - revert s. induction events as [|ev events IH]; intros s; [reflexivity|].
    simpl. rewrite consumeShareLog_shareOf.
    destruct (fatal (snd ev)); simpl; [apply foldl_bind_None|].
    rewrite IH. destruct (shareOf decode (snd ev)); reflexivity.
Qed.

Variable kFlushDBInterval_ : Z.
Variable poolDB_ : bool.
Variable redisGroup_size : nat.

Local Abbreviation afterConsume :=
  (afterConsume kFlushDBInterval_ poolDB_ redisGroup_size).
Local Abbreviation turn := (turn decode kFlushDBInterval_ poolDB_ redisGroup_size).
Local Abbreviation turns := (turns decode kFlushDBInterval_ poolDB_ redisGroup_size).

(** The messages of [events] consumed one after the other, each at the
    readings of the clock of its turn. *)
Local Abbreviation consumed := (fun events s =>
  foldl (fun acc (ev : readings * option KafkaMessage.t) =>
           acc ≫= fun s =>
             match snd ev with
             | Some m => consumeShareLog decode (consuming (fst ev)) m s
             | None => Some s
             end) (Some s) events).

Lemma afterConsume_initializing c noNewShares s1 l :
  isInitializing_ (snd (afterConsume c noNewShares s1 l)) = true ->
  isInitializing_ l = true
  /\ fst (afterConsume c noNewShares s1 l) = []
  /\ server (snd (afterConsume c noNewShares s1 l)) = s1.
Proof.
  unfold StatsServerThread.afterConsume.
  destruct (isInitializing_ l).
  - repeat destruct (decide _); simpl;
      try destruct (_ && _); simpl; intros H; try discriminate;
      repeat split; reflexivity.
  - repeat destruct (decide _); simpl; intros H; discriminate.
Qed.

Lemma turn_initializing c rkmessage l r :
  turn c rkmessage l = Some r ->
  isInitializing_ (snd r) = true ->
  isInitializing_ l = true
  /\ fst r = []
  /\ match rkmessage with
     | Some m => consumeShareLog decode (consuming c) m (server l)
     | None => Some (server l)
     end = Some (server (snd r)).
Proof.
  unfold StatsServerThread.turn. destruct rkmessage as [m|].
  - destruct (consumeShareLog decode (consuming c) m (server l)) as [s1|];
      [|discriminate].
    simpl. intros Hr Hinit. inversion Hr; subst r.
    destruct (afterConsume_initializing _ _ _ _ Hinit) as (Hl & Hnone & Hs).
    rewrite Hs. auto.
  - intros Hr Hinit. inversion Hr; subst r.
    destruct (afterConsume_initializing _ _ _ _ Hinit) as (Hl & Hnone & Hs).
    rewrite Hs. auto.
Qed.

Lemma turns_snoc events ev l :
  turns (events ++ [ev]) l
  = turns events l ≫= fun a =>
      (fun r => (fst a ++ fst r, snd r)) <$> turn (fst ev) (snd ev) (snd a).
Proof. unfold StatsServerThread.turns. rewrite foldl_app. reflexivity. Qed.

(** The loop goes on as long as no message ends the process. *)
Lemma turns_total events l :
  no_fatal (snd <$> events) -> is_Some (turns events l).
Proof.
  induction events as [|ev events IH] using rev_ind; intros Hok.
  - unfold StatsServerThread.turns. simpl. eauto.
  - rewrite fmap_app in Hok. apply Forall_app in Hok as [Hevents Hev].
    apply Forall_cons in Hev as [Hev _].
    destruct (IH Hevents) as [a Ha]. rewrite turns_snoc, Ha. simpl.
    unfold StatsServerThread.turn. simpl in Hev.
    destruct (snd ev) as [m|]; [|simpl; eauto].
    rewrite consumeShareLog_shareOf, (Hev m eq_refl). simpl. eauto.
Qed.

(** X8: the loop of [runThreadConsume] goes on as long as no message ends
    the process; and as long as the server is initializing (it still is
    after the turns), the loop has only consumed: it started no flush to
    the database or to redis, it removed no expired worker, and the
    server is the one after [consumeShareLog] of the messages.
    Initialization, once over, does not begin again. *)
Theorem turns_initializing events l :
  (no_fatal (snd <$> events) -> is_Some (turns events l))
  /\ forall r,
       turns events l = Some r ->
       isInitializing_ (snd r) = true ->
       isInitializing_ l = true
       /\ fst r = []
       /\ consumed events (server l) = Some (server (snd r)).
Proof.
  split; [apply turns_total|].
  induction events as [|ev events IH] using rev_ind; intros r Hr Hinit.
  - unfold StatsServerThread.turns in Hr. simpl in Hr. inversion Hr; subst r.
    simpl in *. split; [exact Hinit | split; reflexivity].
  - rewrite turns_snoc in Hr.
    destruct (turns events l) as [a|]; [|discriminate]. simpl in Hr.
    destruct (turn (fst ev) (snd ev) (snd a)) as [r1|] eqn:Hturn;
      [|discriminate].
    simpl in Hr. inversion Hr; subst r. simpl in Hinit |- *.
    destruct (turn_initializing _ _ _ _ Hturn Hinit) as (Hbefore & Hnone & Hserver).
    destruct (IH a eq_refl Hbefore) as (Hl & Hcalls & Hs).
    split; [exact Hl|]. split.
    + rewrite Hcalls, Hnone. reflexivity.
    + rewrite foldl_app, Hs. simpl. exact Hserver.
Qed.
End ConsumeFacts.

Lemma turns_initializing_witness :
  exists r,
    turns decode_ts 15 true 1
      [(steady 1005, Some (message x01 x01)); (steady 1010, None)]
      (mkLoop new true 0 1000) = Some r
    /\ isInitializing_ (snd r) = true
    /\ fst r = []
    /\ foldl (fun acc (ev : readings * option KafkaMessage.t) =>
                acc ≫= fun s =>
                  match snd ev with
                  | Some m => consumeShareLog decode_ts (consuming (fst ev)) m s
                  | None => Some s
                  end) (Some new)
             [(steady 1005, Some (message x01 x01)); (steady 1010, None)]
       = Some (server (snd r)).
Proof.
  destruct (turns_initializing decode_ts 15 true 1
              [(steady 1005, Some (message x01 x01)); (steady 1010, None)]
              (mkLoop new true 0 1000)) as [Htotal Hinit].
  destruct Htotal as [r Hr].
  - repeat constructor; intros m Hm; inversion Hm; reflexivity.
  - exists r. split; [exact Hr|].
    assert (Hi : isInitializing_ (snd r) = true).
    { vm_compute in Hr. inversion Hr. reflexivity. }
    split; [exact Hi|].
    destruct (Hinit r Hr Hi) as (_ & Hnone & Hs). split; assumption.
Defined.

(** A share stamped 10000 arrives at 10050, after the interval: it is
    less than a minute old and initialization ends; the turn after that
    starts the flushes.  A message whose share is stamped 0 is not valid:
    [lastShareTime_] stays 0, more than a minute back, and the server is
    still initializing.  At an unknown topic the process ends. *)
Example turns_example :
  (fun r : list flush * loop => isInitializing_ (snd r))
    <$> turns decode_ts 15 true 1
          [(steady 10050, Some (message x01 x01))]
          (mkLoop new true 10000 10000) = Some false
  /\ fst <$> turns decode_ts 15 true 1
               [(steady 10050, Some (message x01 x01)); (steady 10070, None)]
               (mkLoop new true 10000 10000)
     = Some [flushWorkersAndUsersToDB; flushWorkersAndUsersToRedis]
  /\ (fun r : list flush * loop => isInitializing_ (snd r))
       <$> turns decode_ts 15 true 1
             [(steady 10050, Some (message x00 x01))]
             (mkLoop new true 10000 10000) = Some true
  /\ turns decode_ts 15 true 1
       [(steady 10050, Some message_unknown_topic); (steady 10070, None)]
       (mkLoop new true 10000 10000) = None.
Proof. vm_compute. repeat split; reflexivity. Qed.

End StatsServerThreadFacts.

Module ShareLogWriterThreadFacts.
Import ShareLogWriter ShareLogWriterThread ShareLogWriterSpec ConsumerSpec.

Lemma sharesOfFile_app path l1 l2 :
  sharesOfFile path (l1 ++ l2) = sharesOfFile path l1 ++ sharesOfFile path l2.
Proof. unfold sharesOfFile. apply filter_app. Qed.

Section RunFacts.
Variable decode : list Byte.byte -> Share.t.
Variable fopen_ok : Z -> bool.

Lemma consumeShareLog_buffer m w :
  consumeShareLog decode m w
  = if fatal m then None
    else Some (mk (shares_ w ++ option_list (shareOf decode m))
                  (fileHandlers_ w) (files_ w)).
Proof.
  unfold consumeShareLog, shareOf, fatal. destruct w as [shares handlers files].
  simpl.
  destruct (KafkaMessage.err m); simpl; rewrite ?app_nil_r; try reflexivity.
  destruct (decide (KafkaMessage.len m <> Share.sizeof)) as [Hne|Heq];
    destruct (decide (KafkaMessage.len m = Share.sizeof)) as [Heq'|Hne'];
    simpl; rewrite ?app_nil_r; try reflexivity; try contradiction.
  rewrite Heq'. destruct (Share.isValid _); simpl.
  - reflexivity.
  - rewrite removelast_last, app_nil_r. reflexivity.
Qed.

(** X9: a message whose error is an unknown partition or an unknown topic
    ends the process.  Otherwise the buffer of the writer holds valid
    shares only: a message that carries an error, has not the size of a
    [Share] or whose share is not valid leaves the buffer as it was (the
    share pushed for the check is popped again), and any other message
    appends its share at the end; the handles and the files are left as
    they are. *)
Theorem consumeShareLog_valid m w :
  consumeShareLog decode m w
  = (if fatal m then None
     else Some (mk (shares_ w ++ option_list (shareOf decode m))
                   (fileHandlers_ w) (files_ w)))
  /\ forall w',
       consumeShareLog decode m w = Some w' ->
       Forall (fun share => Share.isValid share = true) (shares_ w) ->
       Forall (fun share => Share.isValid share = true) (shares_ w').
Proof.
  split; [apply consumeShareLog_buffer|].
  intros w'. rewrite consumeShareLog_buffer.
  destruct (fatal m); [discriminate|]. intros Hw' Hvalid.
  inversion Hw'; subst w'. simpl.
  apply Forall_app. split; [exact Hvalid|].
  unfold shareOf. destruct (KafkaMessage.err m); try constructor.
  destruct (decide _); [|constructor].
  destruct (Share.isValid _) eqn:Hv; constructor; [exact Hv | constructor].
Qed.

Hypothesis fopen_works : forall path, fopen_ok path = true.
Hypothesis decode_ts32 : forall buf, 0 <= Share.timestamp_ (decode buf) < 2 ^ 32.

Lemma flushToDisk_files fwrite_ok w :
  handlers_wf w -> timestamps32 (shares_ w) ->
  (forall i : nat, fwrite_ok i = true) ->
  exists r,
    flushToDisk fopen_ok fwrite_ok w = Some r
    /\ shares_ (snd r) = []
    /\ handlers_wf (snd r)
    /\ forall path,
         fileContent (snd r) path
         = fileContent w path ++ sharesOfFile path (shares_ w).
Proof.
  intros Hwf Hts Hok. unfold flushToDisk.
  destruct (ShareLogWriterFacts.writeShares_total fopen_ok fwrite_ok
              (shares_ w) 0%nat w fopen_works) as [w1 Hrun].
  rewrite Hrun.
  destruct (ShareLogWriterFacts.writeShares_spec fopen_ok fwrite_ok
              _ _ _ _ Hwf Hts Hrun) as (Hwf1 & _ & Hc1 & _).
  destruct (ShareLogWriterFacts.closeOld_spec
              (size (fileHandlers_ w1)) (fileHandlers_ w1))
    as (_ & _ & Hclosed & Hkept & _); [lia|].
  eexists. split; [reflexivity|]. simpl.
  split; [reflexivity|]. split.
  - intros key f Hkey. simpl in Hkey. apply Hwf1.
    destruct (decide (key ∈ fst (closeOld (size (fileHandlers_ w1)) (fileHandlers_ w1))))
      as [Hc|Hc].
    + destruct (Hclosed key Hc) as [_ Hnone]. congruence.
    + rewrite <- (Hkept key Hc). exact Hkey.
  - intros path.
    change (fileContent w1 path
            = fileContent w path ++ sharesOfFile path (shares_ w)).
    rewrite Hc1, ShareLogWriterFacts.written_all; [reflexivity|].
    intros j _. apply Hok.
Qed.

Lemma shareOf_ts32 m : timestamps32 (option_list (shareOf decode m)).
Proof.
  unfold shareOf, timestamps32.
  destruct (KafkaMessage.err m); try constructor.
  destruct (decide _); [|constructor].
  destruct (Share.isValid _); constructor; [apply decode_ts32 | constructor].
Qed.

(** What the files hold once the buffer is written: the invariant of the
    loop of [run]. *)
Lemma turn_pending ev l :
  handlers_wf (writer l) -> timestamps32 (shares_ (writer l)) ->
  (forall i : nat, fwrite_ok ev i = true) ->
  (forall m, rkmessage ev = Some m -> fatal m = false) ->
  exists l',
    turn decode fopen_ok ev l = Some l'
    /\ handlers_wf (writer l')
    /\ timestamps32 (shares_ (writer l'))
    /\ forall path,
         fileContent (writer l') path ++ sharesOfFile path (shares_ (writer l'))
         = fileContent (writer l) path
             ++ sharesOfFile path
                  (shares_ (writer l)
                     ++ option_list (rkmessage ev ≫= shareOf decode)).
Proof.
  intros Hwf Hts Hok Hfatal. unfold turn.
  set (flushedLoop := if _ && _ then _ else Some l).
  assert (H1 : exists l1,
            flushedLoop = Some l1
            /\ handlers_wf (writer l1)
            /\ timestamps32 (shares_ (writer l1))
            /\ forall path,
                 fileContent (writer l1) path
                   ++ sharesOfFile path (shares_ (writer l1))
                 = fileContent (writer l) path
                     ++ sharesOfFile path (shares_ (writer l))).
  { subst flushedLoop. destruct (_ && _); [|exists l; auto].
    destruct (flushToDisk_files (fwrite_ok ev) (writer l) Hwf Hts Hok)
      as (r & Hr & Hnil & Hwf' & Hc).
    rewrite Hr. eexists. split; [reflexivity|]. simpl.
    split; [exact Hwf'|]. split; [rewrite Hnil; constructor|].
    intros path. rewrite Hnil, Hc.
    unfold sharesOfFile at 2. rewrite filter_nil, app_nil_r. reflexivity. }
  destruct H1 as (l1 & -> & Hwf1 & Hts1 & Hc1). simpl.
  destruct (rkmessage ev) as [m|]; simpl.
  - rewrite consumeShareLog_buffer, (Hfatal m eq_refl). simpl.
    eexists. split; [reflexivity|]. simpl.
    split; [exact Hwf1|]. split.
    + apply Forall_app. split; [exact Hts1 | apply shareOf_ts32].
    + intros path. specialize (Hc1 path). unfold fileContent in *. simpl.
      rewrite !sharesOfFile_app, !app_assoc, Hc1. reflexivity.
  - exists l1. rewrite app_nil_r. auto.
Qed.

(** X10: when every [fopen] and every [fwrite] succeeds and no message
    ends the process, [run] returns; it leaves an empty buffer, and every
    file holds what it held before, followed by the shares of its day
    among those buffered at the start and those carried by the messages
    consumed, in their order of arrival: whenever the flushes happened,
    no valid share is lost, none is written twice, and nothing else is
    written.  (Timestamps are 32-bit values.) *)
Theorem run_files start events fwrite_left w :
  handlers_wf w -> timestamps32 (shares_ w) ->
  no_fatal (rkmessage <$> events) ->
  (forall ev (i : nat), ev ∈ events -> fwrite_ok ev i = true) ->
  (forall i : nat, fwrite_left i = true) ->
  exists w',
    run decode fopen_ok true start events fwrite_left w = Some w'
    /\ shares_ w' = []
    /\ forall path,
         fileContent w' path
         = fileContent w path
             ++ sharesOfFile path
                  (shares_ w
                     ++ omap (fun ev => rkmessage ev ≫= shareOf decode) events).
Proof.
  intros Hwf Hts Hfatal Hok Hleft. unfold run. simpl.
  assert (Hinv : exists l,
    foldl (fun acc ev => acc ≫= turn decode fopen_ok ev)
          (Some (mkLoop w start)) events = Some l
    /\ handlers_wf (writer l)
    /\ timestamps32 (shares_ (writer l))
    /\ forall path,
         fileContent (writer l) path ++ sharesOfFile path (shares_ (writer l))
         = fileContent w path
             ++ sharesOfFile path
                  (shares_ w
                     ++ omap (fun ev => rkmessage ev ≫= shareOf decode) events)).
  { clear Hleft.
    induction events as [|ev evs IH] using rev_ind.
    - exists (mkLoop w start). simpl. rewrite app_nil_r. auto.
    - rewrite fmap_app in Hfatal. apply Forall_app in Hfatal as [Hevs Hev].
      apply Forall_cons in Hev as [Hev _].
      destruct IH as (l & Hl & Hwf' & Hts' & Hc'); [exact Hevs | |].
      { intros e i He. apply Hok. apply elem_of_app. left. exact He. }
      destruct (turn_pending ev l Hwf' Hts') as (l' & Hl' & Hwf'' & Hts'' & Hc'').
      { intros i. apply Hok. apply elem_of_app. right. left. }
      { exact Hev. }
      exists l'. rewrite foldl_app, Hl. simpl. split; [exact Hl'|].
      split; [exact Hwf''|]. split; [exact Hts''|].
      intros path. rewrite Hc''.
      rewrite omap_app. simpl.
      rewrite sharesOfFile_app, app_assoc, Hc'.
      rewrite <- app_assoc, <- sharesOfFile_app, <- app_assoc.
      destruct (rkmessage ev ≫= shareOf decode); reflexivity. }
  destruct Hinv as (l & -> & Hwf' & Hts' & Hc'). simpl.
  destruct (bool_decide (0 < length (shares_ (writer l)))%nat) eqn:Hlen.
  - destruct (flushToDisk_files fwrite_left (writer l) Hwf' Hts' Hleft)
      as (r & Hr & Hnil & _ & Hc).
    rewrite Hr. exists (snd r). split; [reflexivity|].
    split; [exact Hnil|]. intros path. rewrite Hc. apply Hc'.
  - apply bool_decide_eq_false in Hlen.
    assert (Hnil : shares_ (writer l) = [])
      by (destruct (shares_ (writer l)); [reflexivity | simpl in Hlen; lia]).
    exists (writer l). split; [reflexivity|].
    split; [exact Hnil|]. intros path. rewrite <- Hc', Hnil.
    unfold sharesOfFile at 1. rewrite filter_nil, app_nil_r. reflexivity.
Qed.
End RunFacts.

Lemma decode_ts_ts32 buf : 0 <= Share.timestamp_ (decode_ts buf) < 2 ^ 32.
Proof.
  unfold decode_ts. simpl.
  pose proof (Byte.to_N_bounded (default x00 (buf !! 0%nat))). lia.
Qed.

Lemma run_files_witness :
  exists w',
    run decode_ts (fun _ => true) true 0 events_6 (fun _ => true) (mk [] ∅ ∅)
    = Some w'
    /\ shares_ w' = []
    /\ forall path,
         fileContent w' path
         = fileContent (mk [] ∅ ∅) path
             ++ sharesOfFile path
                  (shares_ (mk [] ∅ ∅)
                     ++ omap (fun ev => rkmessage ev ≫= shareOf decode_ts)
                             events_6).
Proof.
  apply (run_files decode_ts (fun _ => true)).
  - reflexivity.
  - apply decode_ts_ts32.
  - intros key f Hkey. simpl in Hkey. rewrite lookup_empty in Hkey. discriminate.
  - constructor.
  - unfold events_6, at_time. simpl.
    repeat constructor; intros m Hm; inversion Hm; reflexivity.
  - intros ev i Hev. unfold events_6, at_time in Hev.
    repeat (apply elem_of_cons in Hev as [->|Hev]; [reflexivity|]).
    inversion Hev.
  - reflexivity.
Defined.

(** The files after these turns: the two shares of day 0 in the file of
    day 0, in their order, and the share of day 1 in the file of day 1;
    the first flush happened at the turn of time 9. *)
Example run_example :
  (fun w' => (Share.share_ <$> fileContent w' 0,
              Share.timestamp_ <$> fileContent w' 1, shares_ w'))
    <$> run decode_ts (fun _ => true) true 0 events_6 (fun _ => true)
            (mk [] ∅ ∅)
  = Some ([1; 2], [90000], []).
Proof. vm_compute. reflexivity. Qed.

(** The same turns when the [fwrite] of the share left at the end fails:
    the second share of day 0 is in no file, and the buffer is empty. *)
Example run_lost :
  (fun w' => (Share.share_ <$> fileContent w' 0,
              Share.timestamp_ <$> fileContent w' 1, shares_ w'))
    <$> run decode_ts (fun _ => true) true 0 events_6 (fun _ => false)
            (mk [] ∅ ∅)
  = Some ([1], [90000], []).
Proof. vm_compute. reflexivity. Qed.

(** The process ends at an unknown topic, and when a file cannot be
    opened. *)
Example run_fatal :
  run decode_ts (fun _ => true) true 0
      (events_6 ++ [at_time 14 (Some message_unknown_topic)]) (fun _ => true)
      (mk [] ∅ ∅) = None
  /\ run decode_ts (fun _ => false) true 0 events_6 (fun _ => true)
         (mk [] ∅ ∅) = None.
Proof. vm_compute. split; reflexivity. Qed.

End ShareLogWriterThreadFacts.

Module ShareLogParserReplayFacts.
Import ShareStatsDay ShareStatsDaySpec ShareLogParser ShareLogParserReplaySpec.

Lemma getHourIdx_range ts : 0 <= getHourIdx ts <= 23.
Proof.
  unfold getHourIdx.
  pose proof (Z.mod_pos_bound ts 86400 ltac:(lia)).
  split; [apply Z.div_pos; lia|].
  apply Z.lt_succ_r. apply Z.div_lt_upper_bound; lia.
Qed.

Lemma day_ok_new : day_ok ShareStatsDay.new.
Proof. unfold day_ok. repeat split; reflexivity. Qed.

Lemma day_ok_processShare hourIdx share d :
  0 <= hourIdx <= 23 -> day_ok d -> day_ok (processShare hourIdx share d).
Proof.
  intros Hh (La & Lr & Ls & Ha & Hr). unfold day_ok, processShare.
  destruct (decide _); simpl; rewrite ?length_alter;
    (split; [assumption|]; split; [assumption|]; split; [assumption|]);
    split; try assumption;
    apply ShareStatsDayFacts.sumHours_add64; try assumption; lia.
Qed.

Lemma processAt_lookup key hourIdx share stats key' :
  processAt key hourIdx share stats !! key'
  = if decide (key = key')
    then Some (processShare hourIdx share (default ShareStatsDay.new (stats !! key)))
    else stats !! key'.
Proof.
  unfold processAt. destruct (decide (key = key')) as [->|Hne].
  - apply lookup_insert_eq.
  - apply lookup_insert_ne, Hne.
Qed.

Lemma processAt_ok key hourIdx share stats :
  0 <= hourIdx <= 23 ->
  map_Forall (fun _ d => day_ok d) stats ->
  map_Forall (fun _ d => day_ok d) (processAt key hourIdx share stats).
Proof.
  intros Hh Hok key' d. rewrite processAt_lookup.
  destruct (decide (key = key')) as [_|_]; [|apply Hok].
  intros Hd. inversion Hd; subst d. apply day_ok_processShare; [exact Hh|].
  destruct (stats !! key) as [d0|] eqn:Hkey; simpl;
    [apply (Hok key d0 Hkey) | apply day_ok_new].
Qed.

Lemma insert_new_ok (key : WorkerKey.t) (stats : gmap WorkerKey.t ShareStatsDay.t) :
  map_Forall (fun _ d => day_ok d) stats ->
  map_Forall (fun _ d => day_ok d)
    (match stats !! key with
     | None => <[key := ShareStatsDay.new]> stats
     | Some _ => stats
     end).
Proof.
  intros Hok. destruct (stats !! key); [exact Hok|].
  apply map_Forall_insert_2; [apply day_ok_new | exact Hok].
Qed.

Lemma parseShare_ok share stats :
  map_Forall (fun _ d => day_ok d) stats ->
  map_Forall (fun _ d => day_ok d) (parseShare share stats).
Proof.
  intros Hok. unfold parseShare. destruct (negb _); [exact Hok|].
  repeat apply processAt_ok; try apply getHourIdx_range.
  repeat apply insert_new_ok. exact Hok.
Qed.

Lemma parseShare_pool_present share stats :
  is_Some (stats !! (0, 0)) -> is_Some (parseShare share stats !! (0, 0)).
Proof.
  intros Hpool. unfold parseShare. destruct (negb _); [exact Hpool|].
  rewrite processAt_lookup. destruct (decide _) as [_|Hne]; [eauto | contradiction].
Qed.

Section ReplayFacts.
Variable kMaxElementsNum_ : Z.
Variable decode : list Byte.byte -> Share.t.

Lemma parseRecords_ok size : forall buf stats,
  map_Forall (fun _ d => day_ok d) stats /\ is_Some (stats !! (0, 0)) ->
  map_Forall (fun _ d => day_ok d) (parseRecords decode size buf stats)
  /\ is_Some (parseRecords decode size buf stats !! (0, 0)).
Proof.
  induction size as [|size IH]; intros buf stats [Hok Hpool]; simpl; [auto|].
  apply IH. split; [apply parseShare_ok, Hok | apply parseShare_pool_present, Hpool].
Qed.

Lemma tick_ok file fault p :
  map_Forall (fun _ d => day_ok d) (workersStats_ p)
  /\ is_Some (workersStats_ p !! (0, 0)) ->
  map_Forall (fun _ d => day_ok d)
    (workersStats_ (snd (processGrowingShareLog kMaxElementsNum_ decode file fault p)))
  /\ is_Some (workersStats_
                (snd (processGrowingShareLog kMaxElementsNum_ decode file fault p))
              !! (0, 0)).
Proof.
  intros Hp. unfold processGrowingShareLog.
  destruct (match f_ p with Some f => Some f | None => _ end); [|exact Hp].
  destruct (decide _); simpl; [exact Hp|].
  unfold parseShareLog. apply parseRecords_ok, Hp.
Qed.

(** X11: every day entry that the replayer holds after any run of ticks
    on the growing file, whatever the files and read errors were, has
    three arrays of 24 hours whose sums over the hours of the accepted
    and of the rejected weights, taken modulo 2^64 as the 64-bit
    counters are, are the totals of the day; and the entry of the pool
    is always there. *)
Theorem ticks_day_sums world :
  map_Forall (fun _ d => day_ok d)
    (workersStats_ (ticks kMaxElementsNum_ decode world))
  /\ is_Some (workersStats_ (ticks kMaxElementsNum_ decode world) !! (0, 0)).
Proof.
  unfold ticks. induction world as [|w world IH] using rev_ind.
  - simpl. split; [|rewrite lookup_singleton_eq; eauto].
    apply map_Forall_singleton. apply day_ok_new.
  - rewrite foldl_app. simpl. apply tick_ok, IH.
Qed.
End ReplayFacts.

(** *** The three rows of a share *)

Lemma parseShare_valid share stats :
  Share.isValid share = true ->
  let wkey := (Share.userId_ share, Share.workerHashId_ share) in
  let ukey := (Share.userId_ share, 0) in
  let hourIdx := getHourIdx (Share.timestamp_ share) in
  parseShare share stats
  = processAt (0, 0) hourIdx share
      (processAt ukey hourIdx share
         (processAt wkey hourIdx share
            (match (match stats !! wkey with
                    | None => <[wkey := ShareStatsDay.new]> stats
                    | Some _ => stats
                    end) !! ukey with
             | None => <[ukey := ShareStatsDay.new]>
                         (match stats !! wkey with
                          | None => <[wkey := ShareStatsDay.new]> stats
                          | Some _ => stats
                          end)
             | Some _ => match stats !! wkey with
                         | None => <[wkey := ShareStatsDay.new]> stats
                         | Some _ => stats
                         end
             end))).
Proof. intros Hv. unfold parseShare. rewrite Hv. reflexivity. Qed.

(** The entries created before the updates hold the fresh day, which is
    what [default] gives for a missing entry. *)
Lemma default_created (key key' : WorkerKey.t)
    (stats : gmap WorkerKey.t ShareStatsDay.t) :
  default ShareStatsDay.new
    ((match stats !! key with
      | None => <[key := ShareStatsDay.new]> stats
      | Some _ => stats
      end) !! key')
  = default ShareStatsDay.new (stats !! key').
Proof.
  destruct (stats !! key) eqn:Hkey; [reflexivity|].
  destruct (decide (key = key')) as [->|Hne].
  - rewrite lookup_insert_eq, Hkey. reflexivity.
  - rewrite lookup_insert_ne by exact Hne. reflexivity.
Qed.

(** X12: a valid share of a user other than 0 is applied once to the
    entry of the pool; when its worker id is not 0 it is applied once to
    the entry of the worker and once to the entry of the user; when its
    worker id is 0, the key of the worker is the key of the user and the
    share is applied twice to that entry. *)
Theorem parseShare_rows share stats :
  Share.isValid share = true ->
  Share.userId_ share <> 0 ->
  let apply := processShare (getHourIdx (Share.timestamp_ share)) share in
  let day := fun key => default ShareStatsDay.new (stats !! key) in
  parseShare share stats !! (0, 0) = Some (apply (day (0, 0)))
  /\ (Share.workerHashId_ share <> 0 ->
      parseShare share stats !! (Share.userId_ share, Share.workerHashId_ share)
        = Some (apply (day (Share.userId_ share, Share.workerHashId_ share)))
      /\ parseShare share stats !! (Share.userId_ share, 0)
        = Some (apply (day (Share.userId_ share, 0))))
  /\ (Share.workerHashId_ share = 0 ->
      parseShare share stats !! (Share.userId_ share, 0)
        = Some (apply (apply (day (Share.userId_ share, 0))))).
Proof.
  intros Hv Hu apply day. rewrite (parseShare_valid _ _ Hv). cbv zeta.
  set (wkey := (Share.userId_ share, Share.workerHashId_ share)).
  set (ukey := (Share.userId_ share, 0)).
  assert (Hpu : (0, 0) <> ukey) by (unfold ukey; intros H; inversion H; congruence).
  assert (Hpw : (0, 0) <> wkey) by (unfold wkey; intros H; inversion H; congruence).
  split; [|split].
  - rewrite ?processAt_lookup.
    destruct (decide ((0, 0) = (0, 0))) as [_|Hne]; [|contradiction].
    rewrite ?processAt_lookup.
    destruct (decide (ukey = (0, 0))) as [Heq|_]; [congruence|].
    destruct (decide (wkey = (0, 0))) as [Heq|_]; [congruence|].
    rewrite !default_created. reflexivity.
  - intros Hw.
    assert (Huw : ukey <> wkey) by (unfold ukey, wkey; intros H; inversion H; congruence).
    split.
    + rewrite ?processAt_lookup.
      destruct (decide ((0, 0) = wkey)) as [Heq|_]; [congruence|].
      destruct (decide (ukey = wkey)) as [Heq|_]; [congruence|].
      destruct (decide (wkey = wkey)) as [_|Hne]; [|contradiction].
      rewrite !default_created. reflexivity.
    + rewrite ?processAt_lookup.
      destruct (decide ((0, 0) = ukey)) as [Heq|_]; [congruence|].
      destruct (decide (ukey = ukey)) as [_|Hne]; [|contradiction].
      rewrite ?processAt_lookup.
      destruct (decide (wkey = ukey)) as [Heq|_]; [congruence|].
      rewrite !default_created. reflexivity.
  - intros Hw.
    assert (Huw : wkey = ukey) by (unfold ukey, wkey; rewrite Hw; reflexivity).
    rewrite ?processAt_lookup.
    destruct (decide ((0, 0) = ukey)) as [Heq|_]; [congruence|].
    destruct (decide (ukey = ukey)) as [_|Hne]; [|contradiction].
    rewrite ?processAt_lookup.
    destruct (decide (wkey = ukey)) as [_|Hne]; [|contradiction].
    rewrite Huw, !default_created. reflexivity.
Qed.

Lemma parseShare_rows_witness :
  let share := share_of 7 0 in
  let apply := processShare (getHourIdx (Share.timestamp_ share)) share in
  let day := fun key => default ShareStatsDay.new (workersStats_ new !! key) in
  parseShare share (workersStats_ new) !! (0, 0) = Some (apply (day (0, 0)))
  /\ (Share.workerHashId_ share <> 0 ->
      parseShare share (workersStats_ new)
        !! (Share.userId_ share, Share.workerHashId_ share)
        = Some (apply (day (Share.userId_ share, Share.workerHashId_ share)))
      /\ parseShare share (workersStats_ new) !! (Share.userId_ share, 0)
        = Some (apply (day (Share.userId_ share, 0))))
  /\ (Share.workerHashId_ share = 0 ->
      parseShare share (workersStats_ new) !! (Share.userId_ share, 0)
        = Some (apply (apply (day (Share.userId_ share, 0))))).
Proof.
  apply (parseShare_rows (share_of 7 0) (workersStats_ new)).
  - reflexivity.
  - simpl. lia.
Defined.

(** One share of weight 2 with worker id 0: the user's day counts 4. *)
Example parseShare_twice :
  shareAccept1d_ <$> parseShare (share_of 7 0) (workersStats_ new) !! (7, 0) = Some 4
  /\ shareAccept1d_ <$> parseShare (share_of 7 0) (workersStats_ new) !! (0, 0) = Some 2
  /\ shareAccept1d_ <$> parseShare (share_of 7 3) (workersStats_ new) !! (7, 0) = Some 2.
Proof. vm_compute. repeat split; reflexivity. Qed.

(** *** The entry of the pool *)

Lemma opsOf_snoc shares share :
  opsOf (shares ++ [share])
  = opsOf shares
      ++ (if Share.isValid share
          then [(getHourIdx (Share.timestamp_ share), share)] else []).
Proof.
  unfold opsOf. rewrite filter_app, fmap_app. f_equal.
  rewrite filter_cons, filter_nil.
  destruct (Share.isValid share); simpl.
  - destruct (decide (true = true)) as [_|Hne]; [reflexivity | contradiction].
  - destruct (decide (false = true)) as [Heq|_]; [discriminate | reflexivity].
Qed.

(** X13: when no share is of user 0, the entry of the pool after the
    replay of any shares from the fresh parser is the day reached from the
    constructor of [ShareStatsDay] by [processShare] of the valid shares,
    in their order, each at the hour of its timestamp. *)
Theorem replay_pool shares :
  Forall (fun share => Share.userId_ share <> 0) shares ->
  replay shares (workersStats_ new) !! (0, 0) = Some (run (opsOf shares)).
Proof.
  unfold replay. induction shares as [|share shares IH] using rev_ind; intros Hu.
  - simpl. rewrite lookup_singleton_eq. reflexivity.
  - apply Forall_app in Hu as [Hu Hs]. rewrite Forall_singleton in Hs.
    rewrite foldl_app, opsOf_snoc. cbn [foldl].
    destruct (Share.isValid share) eqn:Hv.
    + destruct (parseShare_rows share
                  (foldl (fun stats share0 => parseShare share0 stats)
                         (workersStats_ new) shares) Hv Hs) as (Hpool & _).
      rewrite Hpool, (IH Hu), ShareStatsDayFacts.run_snoc. reflexivity.
    + unfold parseShare at 1. rewrite Hv. cbn [negb]. rewrite app_nil_r. apply IH, Hu.
Qed.

Lemma replay_pool_witness :
  replay [share_of 7 3; share_of 8 0] (workersStats_ new) !! (0, 0)
  = Some (run (opsOf [share_of 7 3; share_of 8 0])).
Proof.
  apply (replay_pool [share_of 7 3; share_of 8 0]).
  repeat constructor; simpl; lia.
Defined.

End ShareLogParserReplayFacts.

Module ShareLogParserFlushFacts.
Import ShareStatsDay ShareStatsDaySpec ShareLogParserFlush ShareLogParserFlushSpec.

(** *** The bits of [modifyHoursFlag_] *)

Lemma land_pow2_zero x i :
  0 <= i -> Z.land x (2 ^ i) = 0 <-> Z.testbit x i = false.
Proof.
  intros Hi. split.
  - intros Hland.
    assert (Hbit : Z.testbit (Z.land x (2 ^ i)) i = false)
      by (rewrite Hland; apply Z.bits_0).
    rewrite Z.land_spec, Z.pow2_bits_true, andb_true_r in Hbit by exact Hi.
    exact Hbit.
  - intros Hbit. apply Z.bits_inj'. intros n Hn.
    rewrite Z.land_spec, Z.bits_0, Z.pow2_bits_eqb by exact Hi.
    destruct (Z.eqb_spec i n) as [->|Hne];
      [rewrite Hbit; reflexivity | apply andb_false_r].
Qed.

Lemma u32_shiftl i : 0 <= i < 32 -> u32 (Z.shiftl 1 i) = 2 ^ i.
Proof.
  intros Hi. unfold u32. rewrite Z.shiftl_1_l. apply Z.mod_small.
  split; [apply Z.pow_nonneg; lia | apply Z.pow_lt_mono_r; lia].
Qed.



(** *** The rows of the hours and of the day *)

Section RowFacts.
Variable BLOCK_REWARD : Z.

Lemma rejectRate_eq accept reject :
  rejectRate accept reject = ShareStatsDay.rejectRate accept reject.
Proof.
  unfold rejectRate, ShareStatsDay.rejectRate.
  destruct (decide _); [rewrite DoubleFacts.mul_one|]; reflexivity.
Qed.

Lemma hourVector_pushHour tb r v :
  hourVector tb (pushHour tb r v) = hourVector tb v ++ [r]
  /\ dayVector tb (pushHour tb r v) = dayVector tb v.
Proof. destruct tb; split; reflexivity. Qed.

Lemma generateHour_step d userId workerId tb v i :
  0 <= i < 32 ->
  (Z.testbit (modifyHoursFlag_ d) i = false
   /\ generateHour BLOCK_REWARD d userId workerId tb v i = v)
  \/ (Z.testbit (modifyHoursFlag_ d) i = true
      /\ exists r,
           generateHour BLOCK_REWARD d userId workerId tb v i = pushHour tb r v
           /\ row_hour r = Some i
           /\ row_userId r = userId /\ row_workerId r = workerId
           /\ (i <= 23 -> forall stats,
                 numbers r = getShareStatsHour BLOCK_REWARD i d stats)).
Proof.
  intros Hi. unfold generateHour. rewrite u32_shiftl by exact Hi.
  destruct (decide (Z.land (modifyHoursFlag_ d) (2 ^ i) = 0)) as [Hz|Hnz].
  - left. split; [|reflexivity]. apply land_pow2_zero; [lia | exact Hz].
  - right. split.
    + destruct (Z.testbit (modifyHoursFlag_ d) i) eqn:Hb; [reflexivity|].
      exfalso. apply Hnz. apply land_pow2_zero; [lia | exact Hb].
    + eexists. split; [reflexivity|]. simpl.
      split; [reflexivity|]. split; [reflexivity|]. split; [reflexivity|].
      intros H23 stats. unfold numbers, getShareStatsHour. simpl.
      destruct (decide (i > 23)) as [?|_]; [lia|].
      rewrite rejectRate_eq. reflexivity.
Qed.

Lemma generateHours_vector d userId workerId tb (l : list Z) : forall v,
  Forall (fun i => 0 <= i < 32) l ->
  exists rows,
    hourVector tb (foldl (generateHour BLOCK_REWARD d userId workerId tb) v l)
      = hourVector tb v ++ rows
    /\ dayVector tb (foldl (generateHour BLOCK_REWARD d userId workerId tb) v l)
      = dayVector tb v
    /\ row_hour <$> rows
       = Some <$> filter (fun i => Z.testbit (modifyHoursFlag_ d) i = true) l
    /\ Forall (fun r => exists i,
                 row_hour r = Some i /\ i ∈ l
                 /\ row_userId r = userId /\ row_workerId r = workerId
                 /\ (i <= 23 -> forall stats,
                     numbers r = getShareStatsHour BLOCK_REWARD i d stats))
              rows.
Proof.
  induction l as [|i l IH]; intros v Hl.
  - exists []. simpl. rewrite app_nil_r. repeat split; constructor.
  - apply Forall_cons in Hl as [Hi Hl]. cbn [foldl].
    destruct (IH (generateHour BLOCK_REWARD d userId workerId tb v i) Hl)
      as (rows & Hv & Hd & Hh & Hn).
    assert (Hmore : Forall (fun r => exists j,
                 row_hour r = Some j /\ j ∈ i :: l
                 /\ row_userId r = userId /\ row_workerId r = workerId
                 /\ (j <= 23 -> forall stats,
                     numbers r = getShareStatsHour BLOCK_REWARD j d stats))
              rows).
    { eapply Forall_impl; [exact Hn|]. intros r (j & Hj & Hin & Hrest).
      exists j. split; [exact Hj|]. split; [right; exact Hin | exact Hrest]. }
    rewrite filter_cons.
    destruct (generateHour_step d userId workerId tb v i Hi)
      as [[Hbit Hstep]|[Hbit (r & Hstep & Hr)]].
    + destruct (decide (Z.testbit (modifyHoursFlag_ d) i = true)) as [Ht|_];
        [congruence|].
      exists rows. rewrite Hv, Hd, Hstep. auto.
    + destruct (decide (Z.testbit (modifyHoursFlag_ d) i = true)) as [_|Hf];
        [|contradiction].
      exists (r :: rows). destruct (hourVector_pushHour tb r v) as [Hpv Hpd].
      rewrite Hv, Hd, Hstep, Hpv, Hpd, <- app_assoc.
      split; [reflexivity|]. split; [reflexivity|].
      split; [rewrite !fmap_cons, Hh; f_equal; apply Hr|].
      constructor; [|exact Hmore].
      exists i. destruct Hr as (Hrh & Hru & Hrw & Hrn).
      split; [exact Hrh|]. split; [left|]. auto.
Qed.

Lemma seqZ_24_bounds : Forall (fun i => 0 <= i < 32) (seqZ 0 24).
Proof. apply Forall_forall. intros i Hi. apply elem_of_seqZ in Hi. lia. Qed.


(** X15: every row that [generateHoursData] adds, for an hour [i],
    carries the ids of the key and the numbers that the query
    [getShareStatsHour] reports for this hour: the two counts, the reject
    rate and earn; and the row that [generateDailyData] adds carries
    those that [getShareStatsDay] reports. *)
Theorem generateData_numbers d userId workerId tb stats :
  tableOf userId workerId = Some tb ->
  Forall (fun r => exists i,
            row_hour r = Some i /\ 0 <= i <= 23
            /\ row_userId r = userId /\ row_workerId r = workerId
            /\ numbers r = getShareStatsHour BLOCK_REWARD i d stats)
         (hourVector tb (generateHoursData BLOCK_REWARD d userId workerId noValues))
  /\ exists r,
       dayVector tb (generateDailyData BLOCK_REWARD d userId workerId noValues) = [r]
       /\ row_hour r = None
       /\ row_userId r = userId /\ row_workerId r = workerId
       /\ numbers r = getShareStatsDay BLOCK_REWARD d stats.
Proof.
  intros Htb. unfold generateHoursData, generateDailyData. rewrite Htb. split.
  - destruct (generateHours_vector d userId workerId tb
                (seqZ 0 24) noValues seqZ_24_bounds) as (rows & Hv & _ & _ & Hn).
    rewrite Hv. replace (hourVector tb noValues) with (@nil row)
      by (destruct tb; reflexivity).
    simpl. eapply Forall_impl; [exact Hn|].
    intros r (i & Hi & Hin & Hu & Hw & Hnum).
    apply elem_of_seqZ in Hin. exists i.
    split; [exact Hi|]. split; [lia|]. split; [exact Hu|]. split; [exact Hw|].
    apply Hnum. lia.
  - eexists. split; [destruct tb; reflexivity|].
    simpl. repeat split. unfold numbers, getShareStatsDay. simpl.
    rewrite rejectRate_eq. reflexivity.
Qed.

(** *** flushToDB *)

Lemma filter_none {A} (P : A -> Prop) `{forall x, Decision (P x)} (l : list A) :
  Forall (fun x => ~ P x) l -> filter P l = [].
Proof.
  induction 1 as [|x l Hx _ IH]; [reflexivity|].
  rewrite filter_cons. destruct (decide (P x)); [contradiction | exact IH].
Qed.

Lemma resetFlag_clean d : modifyHoursFlag_ d = 0 -> resetFlag d = d.
Proof. intros Hz. destruct d. simpl in Hz. subst. reflexivity. Qed.

Lemma flush_fold (l : list (WorkerKey.t * ShareStatsDay.t)) :
  forall acc : values * gmap WorkerKey.t ShareStatsDay.t,
  snd (foldl (fun acc (kv : WorkerKey.t * ShareStatsDay.t) =>
                (generateDailyData BLOCK_REWARD (snd kv)
                   (WorkerKey.userId_ (fst kv)) (WorkerKey.workerId_ (fst kv))
                   (generateHoursData BLOCK_REWARD (snd kv)
                      (WorkerKey.userId_ (fst kv)) (WorkerKey.workerId_ (fst kv))
                      (fst acc)),
                 <[fst kv := resetFlag (snd kv)]> (snd acc))) acc l)
  = foldl (fun m (kv : WorkerKey.t * ShareStatsDay.t) =>
             <[fst kv := resetFlag (snd kv)]> m) (snd acc) l.
Proof. induction l as [|kv l IH]; intros acc; simpl; [reflexivity | apply IH]. Qed.

Lemma reset_fold (l : list (WorkerKey.t * ShareStatsDay.t)) :
  NoDup l.*1 ->
  forall (m : gmap WorkerKey.t ShareStatsDay.t) key,
    foldl (fun m (kv : WorkerKey.t * ShareStatsDay.t) =>
             <[fst kv := resetFlag (snd kv)]> m) m l !! key
    = match (list_to_map l : gmap WorkerKey.t ShareStatsDay.t) !! key with
      | Some d => Some (resetFlag d)
      | None => m !! key
      end.
Proof.
  induction l as [|[k d] l IH]; intros Hnd m key; simpl; [reflexivity|].
  apply NoDup_cons in Hnd as [Hk Hnd]. rewrite (IH Hnd).
  destruct (decide (k = key)) as [->|Hne].
  - rewrite (not_elem_of_list_to_map_1 _ _ Hk), !lookup_insert_eq. reflexivity.
  - rewrite !lookup_insert_ne by exact Hne. reflexivity.
Qed.

Lemma flushToDB_stats p :
  ShareLogParser.workersStats_ (snd (flushToDB BLOCK_REWARD true p))
  = resetFlag <$> ShareLogParser.workersStats_ p.
Proof.
  unfold flushToDB. simpl. rewrite flush_fold. simpl.
  set (m := ShareLogParser.workersStats_ p).
  set (P := fun kv : WorkerKey.t * ShareStatsDay.t => modifyHoursFlag_ (snd kv) <> 0).
  assert (Hnd : NoDup (filter P (map_to_list m)).*1).
  { eapply sublist_NoDup; [apply (NoDup_fst_map_to_list m)|].
    apply fmap_sublist, sublist_filter. }
  apply map_eq. intros key. rewrite (reset_fold _ Hnd), lookup_fmap.
  destruct (list_to_map (filter P (map_to_list m)) !! key) as [d|] eqn:Hl.
  - apply (elem_of_list_to_map _ _ _ Hnd) in Hl.
    apply list_elem_of_filter in Hl as [_ Hin].
    apply elem_of_map_to_list in Hin. rewrite Hin. reflexivity.
  - destruct (m !! key) as [d|] eqn:Hm; [|reflexivity]. simpl. f_equal.
    symmetry. apply resetFlag_clean.
    destruct (decide (modifyHoursFlag_ d = 0)) as [Hz|Hnz]; [exact Hz|].
    exfalso.
    assert (Hin : (key, d) ∈ filter P (map_to_list m)).
    { apply list_elem_of_filter. split; [exact Hnz|].
      apply elem_of_map_to_list. exact Hm. }
    apply (elem_of_list_to_map _ _ _ Hnd) in Hin. congruence.
Qed.

(** X16: a flush whose ping succeeds leaves every day with a clear mask
    and with its counts and scores as they were, whatever becomes of the
    rows in the database afterwards; a flush that follows it at once has
    no row in any of its six vectors; and a flush whose ping fails
    returns [false] with no rows and leaves the parser as it is. *)
Theorem flushToDB_clears p :
  ShareLogParser.workersStats_ (snd (flushToDB BLOCK_REWARD true p))
    = resetFlag <$> ShareLogParser.workersStats_ p
  /\ map_Forall (fun _ d => modifyHoursFlag_ d = 0)
       (ShareLogParser.workersStats_ (snd (flushToDB BLOCK_REWARD true p)))
  /\ fst (flushToDB BLOCK_REWARD true (snd (flushToDB BLOCK_REWARD true p)))
     = (true, noValues)
  /\ flushToDB BLOCK_REWARD false p = (false, noValues, p).
Proof.
  assert (Hclear : map_Forall (fun _ d => modifyHoursFlag_ d = 0)
            (ShareLogParser.workersStats_ (snd (flushToDB BLOCK_REWARD true p)))).
  { rewrite flushToDB_stats. intros key d. rewrite lookup_fmap.
    destruct (ShareLogParser.workersStats_ p !! key); simpl; intros Hd;
      inversion Hd. reflexivity. }
  split; [apply flushToDB_stats|]. split; [exact Hclear|]. split; [|reflexivity].
  set (p1 := snd (flushToDB BLOCK_REWARD true p)) in *.
  unfold flushToDB. simpl.
  replace (filter _ (map_to_list (ShareLogParser.workersStats_ p1)))
    with (@nil (WorkerKey.t * ShareStatsDay.t)); [reflexivity|].
  symmetry. apply filter_none. apply Forall_forall.
  intros [key d] Hin. apply elem_of_map_to_list in Hin. simpl.
  rewrite (Hclear key d Hin). intros Hne. apply Hne. reflexivity.
Qed.
End RowFacts.


Lemma generateData_numbers_witness :
  Forall (fun r => exists i,
            row_hour r = Some i /\ 0 <= i <= 23
            /\ row_userId r = 7 /\ row_workerId r = 3
            /\ numbers r
               = getShareStatsHour 1250000000 i day_quarter (ShareStats.mk 0 0 0%float 0))
         (hourVector stats_workers
            (generateHoursData 1250000000 day_quarter 7 3 noValues))
  /\ exists r,
       dayVector stats_workers
         (generateDailyData 1250000000 day_quarter 7 3 noValues) = [r]
       /\ row_hour r = None
       /\ row_userId r = 7 /\ row_workerId r = 3
       /\ numbers r
          = getShareStatsDay 1250000000 day_quarter (ShareStats.mk 0 0 0%float 0).
Proof.
  apply (generateData_numbers 1250000000 day_quarter 7 3 stats_workers
           (ShareStats.mk 0 0 0%float 0)).
  reflexivity.
Defined.

(** The rows of the parser above: hour 1 of the pool, of user 7 and of
    worker (7, 3), and their days; nothing for user 0 with worker 9, whose
    mask is cleared all the same. *)
Example flushToDB_rows :
  (fun v => (length (valuesWorkersHour v), length (valuesUsersHour v),
             length (valuesPoolHour v), length (valuesWorkersDay v),
             length (valuesUsersDay v), length (valuesPoolDay v)))
    (snd (fst (flushToDB 1250000000 true parser_2)))
  = (1%nat, 1%nat, 1%nat, 1%nat, 1%nat, 1%nat)
  /\ modifyHoursFlag_ <$> ShareLogParser.workersStats_ parser_2 !! (0, 9) = Some 2
  /\ modifyHoursFlag_
       <$> ShareLogParser.workersStats_
             (snd (flushToDB 1250000000 true parser_2)) !! (0, 9) = Some 0.
Proof. vm_compute. repeat split; reflexivity. Qed.

End ShareLogParserFlushFacts.

Module ShareLogParserBulkFacts.
Import ShareLogParser ShareLogParserBulk ShareLogParserBulkSpec ShareLogParserSpec.

Lemma freadCount_aligned len c nmemb :
  freadCount len (Share.sizeof * c) Share.sizeof nmemb None
  = Z.max 0 (Z.min nmemb (len / Share.sizeof - c)).
Proof.
  unfold freadCount, Share.sizeof.
  replace (len - 48 * c) with (len + - c * 48) by lia.
  rewrite Z.div_add by lia. reflexivity.
Qed.

Section BulkFacts.
Variable decode : list Byte.byte -> Share.t.

Lemma parseRecords_take n : forall buf (m : nat) stats,
  (48 * n <= m)%nat ->
  parseRecords decode n (take m buf) stats = parseRecords decode n buf stats.
Proof.
  induction n as [|n IH]; intros buf m stats Hm; [reflexivity|].
  cbn [parseRecords]. change (Z.to_nat Share.sizeof) with 48%nat.
  rewrite take_take, Nat.min_l by lia.
  replace (drop 48 (take m buf)) with (take (m - 48) (drop 48 buf)).
  - apply IH. lia.
  - rewrite take_drop_commute. do 2 f_equal. lia.
Qed.

Lemma parseRecords_add a : forall b buf stats,
  parseRecords decode (a + b) buf stats
  = parseRecords decode b (drop (48 * a) buf) (parseRecords decode a buf stats).
Proof.
  induction a as [|a IH]; intros b buf stats; [reflexivity|].
  cbn [parseRecords Nat.add]. change (Z.to_nat Share.sizeof) with 48%nat.
  rewrite IH, drop_drop. do 2 f_equal. lia.
Qed.

(** The records of one call of [fread] that starts on a record boundary. *)
Lemma parseShareLog_chunk content (c readNum : Z) stats :
  0 <= c -> 0 <= readNum ->
  parseShareLog decode
    (take (Z.to_nat (readNum * Share.sizeof))
          (drop (Z.to_nat (Share.sizeof * c)) content))
    (readNum * Share.sizeof) stats
  = parseRecords decode (Z.to_nat readNum)
      (drop (48 * Z.to_nat c) content) stats.
Proof.
  intros Hc Hn. unfold parseShareLog, Share.sizeof.
  rewrite Z.div_mul by lia.
  replace (Z.to_nat (48 * c)) with (48 * Z.to_nat c)%nat by lia.
  apply parseRecords_take. lia.
Qed.

Lemma readAll_end turns content stats :
  readAll decode (S turns) content []
    (FILE.mk (Z.of_nat (length content))) true stats = Some stats.
Proof.
  cbn [readAll]. unfold fread, freadCount. simpl.
  rewrite Z.sub_diag. unfold Share.sizeof. simpl. reflexivity.
Qed.

Lemma readAll_aligned turns content : forall (c : Z) stats,
  0 <= c <= Z.of_nat (records content) ->
  (Z.to_nat ((Z.of_nat (records content) - c) / kElements) + 2 <= turns)%nat ->
  readAll decode turns content [] (FILE.mk (Share.sizeof * c)) false stats
  = Some (parseRecords decode (records content - Z.to_nat c)
            (drop (48 * Z.to_nat c) content) stats).
Proof.
  set (len := Z.of_nat (length content)).
  pose proof (eq_refl : kElements = 2000000) as HkE.
  pose proof (eq_refl : Share.sizeof = 48) as Hsz.
  assert (Hn : Z.of_nat (records content) = len / Share.sizeof).
  { unfold records. fold len. apply Z2Nat.id. apply Z.div_pos; lia. }
  assert (Hlen : Share.sizeof * Z.of_nat (records content) <= len
                 < Share.sizeof * Z.of_nat (records content) + Share.sizeof).
  { rewrite Hn, Hsz.
    pose proof (Z.div_mod len 48 ltac:(lia)).
    pose proof (Z.mod_pos_bound len 48 ltac:(lia)). lia. }
  induction turns as [|turns IH]; intros c stats Hc Hturns; [lia|].
  cbn [readAll]. unfold fread. cbn [fst snd head default tail FILE.pos].
  fold len. rewrite freadCount_aligned, <- Hn.
  set (left := Z.of_nat (records content) - c) in *.
  unfold hitsEOF. cbn [orb].
  destruct (Z_lt_le_dec left kElements) as [Hpart|Hfull].
  - (* the last chunk *)
    rewrite Z.min_r, Z.max_r by lia.
    assert (Heof : bool_decide (len - Share.sizeof * c < kElements * Share.sizeof) = true)
      by (apply bool_decide_eq_true; unfold left in *; nia).
    rewrite Heof.
    destruct (decide (left = 0)) as [Hz|Hnz].
    + replace (records content - Z.to_nat c)%nat with 0%nat
        by (unfold left in *; lia).
      reflexivity.
    + rewrite Z.min_r, Z.max_r by (unfold left in *; nia).
      replace (Share.sizeof * c + (len - Share.sizeof * c)) with len by lia.
      destruct turns as [|turns]; [lia|].
      unfold len. rewrite readAll_end. f_equal.
      rewrite parseShareLog_chunk by lia. f_equal. unfold left. lia.
  - (* a full chunk *)
    rewrite Z.min_l, Z.max_r by lia.
    assert (Heof : bool_decide (len - Share.sizeof * c < kElements * Share.sizeof) = false)
      by (apply bool_decide_eq_false; unfold left in *; nia).
    rewrite Heof.
    destruct (decide (kElements = 0)) as [Hz|_]; [lia|].
    rewrite Z.min_l, Z.max_r by (unfold left in *; nia).
    replace (Share.sizeof * c + kElements * Share.sizeof)
      with (Share.sizeof * (c + kElements)) by lia.
    rewrite IH.
    + rewrite parseShareLog_chunk by lia. f_equal.
      replace (records content - Z.to_nat c)%nat
        with (Z.to_nat kElements + (records content - Z.to_nat (c + kElements)))%nat
        by (unfold left in *; lia).
      rewrite parseRecords_add, drop_drop. f_equal. f_equal. lia.
    + unfold left in *. lia.
    + replace (Z.of_nat (records content) - (c + kElements))
        with (left + -1 * kElements) by (unfold left; lia).
      rewrite Z.div_add by lia.
      assert (1 <= left / kElements) by (apply Z.div_le_lower_bound; lia).
      lia.
Qed.

(** X17: a file that cannot be opened gives [false] and leaves the
    statistics; otherwise, when no read fails, [processUnchangedShareLog]
    ends (within a number of reads that the size of the file bounds),
    returns [true], and has parsed every whole record of the file once,
    in file order, whatever the split into reads of 2000000 records; the
    bytes of a partial record at the end are read and not parsed. *)
Theorem processUnchangedShareLog_all turns content faults p :
  (Z.to_nat (Z.of_nat (records content) / kElements) + 2 <= turns)%nat ->
  processUnchangedShareLog decode turns (Some content) [] p
    = Some (true,
            mk (f_ p) (lastPosition_ p)
               (parseRecords decode (records content) content (workersStats_ p)))
  /\ processUnchangedShareLog decode turns None faults p = Some (false, p).
Proof.
  intros Hturns. split; [|reflexivity].
  unfold processUnchangedShareLog.
  change (FILE.mk 0) with (FILE.mk (Share.sizeof * 0)).
  rewrite readAll_aligned.
  - simpl. rewrite Nat.sub_0_r. reflexivity.
  - lia.
  - rewrite Z.sub_0_r. exact Hturns.
Qed.

Variable kMaxElementsNum_ : Z.
Hypothesis kMaxElementsNum_pos : 0 < kMaxElementsNum_.

Local Abbreviation tick := (processGrowingShareLog kMaxElementsNum_ decode).

Lemma drain_aligned k content : forall (c : Z) p,
  0 <= c <= Z.of_nat (records content) ->
  lastPosition_ p = Share.sizeof * c ->
  (Z.to_nat ((Z.of_nat (records content) - c) / kMaxElementsNum_) + 2 <= k)%nat ->
  exists p',
    drain decode kMaxElementsNum_ (steady k content) p = Some p'
    /\ lastPosition_ p' = Share.sizeof * Z.of_nat (records content)
    /\ workersStats_ p'
       = parseRecords decode (records content - Z.to_nat c)
           (drop (48 * Z.to_nat c) content) (workersStats_ p).
Proof.
  set (len := Z.of_nat (length content)).
  assert (Hn : Z.of_nat (records content) = len / Share.sizeof).
  { unfold records. fold len. apply Z2Nat.id. apply Z.div_pos; [lia|].
    unfold Share.sizeof. lia. }
  induction k as [|k IH]; intros c p Hc Hpos Hk; [lia|].
  unfold steady. cbn [replicate drain fst snd].
  destruct (ShareLogParserFacts.tick_reads kMaxElementsNum_ decode
              (Some content) None p) as (Hread & Hcursor & Hstats);
    [right; eauto|].
  change (default [] (Some content)) with content in Hread, Hstats.
  fold len in Hread.
  rewrite Hpos, freadCount_aligned, <- Hn in Hread.
  set (left := Z.of_nat (records content) - c) in *.
  destruct (decide (fst (tick (Some content) None p) <= 0)) as [Hzero|Hsome].
  - assert (Hleft : left = 0) by lia.
    exists (snd (tick (Some content) None p)).
    split; [reflexivity|].
    assert (Hfst : fst (tick (Some content) None p) = 0) by lia.
    destruct (ShareLogParserFacts.tick_zero kMaxElementsNum_ decode
                (Some content) None p Hfst) as [Hc' Hs'].
    rewrite Hc', Hs', Hpos. split; [unfold left in *; f_equal; lia|].
    replace (records content - Z.to_nat c)%nat with 0%nat
      by (unfold left in *; lia).
    reflexivity.
  - set (readNum := fst (tick (Some content) None p)) in *.
    assert (HreadNum : readNum = Z.min kMaxElementsNum_ left) by lia.
    assert (Hstats' : workersStats_ (snd (tick (Some content) None p))
                      = parseRecords decode (Z.to_nat readNum)
                          (drop (48 * Z.to_nat c) content) (workersStats_ p)).
    { rewrite Hstats, Hpos. apply parseShareLog_chunk; lia. }
    assert (Hcursor' : lastPosition_ (snd (tick (Some content) None p))
                       = Share.sizeof * (c + readNum)) by (rewrite Hcursor, Hpos; lia).
    destruct (Z_lt_le_dec left kMaxElementsNum_) as [Hpart|Hfull].
    + (* the last records: the call after this one reads nothing *)
      assert (Hr : readNum = left) by lia.
      destruct k as [|k]; [lia|].
      fold (steady (S k) content).
      unfold steady. cbn [replicate drain fst snd].
      set (p1 := snd (tick (Some content) None p)) in *.
      destruct (ShareLogParserFacts.tick_reads kMaxElementsNum_ decode
                  (Some content) None p1) as (Hread1 & _ & _); [right; eauto|].
      change (default [] (Some content)) with content in Hread1.
      fold len in Hread1.
      rewrite Hcursor', freadCount_aligned, <- Hn in Hread1.
      assert (Hfst : fst (tick (Some content) None p1) = 0)
        by (unfold left in *; lia).
      destruct (ShareLogParserFacts.tick_zero kMaxElementsNum_ decode
                  (Some content) None p1 Hfst) as [Hc' Hs'].
      destruct (decide (fst (tick (Some content) None p1) <= 0)) as [_|Hne]; [|lia].
      exists (snd (tick (Some content) None p1)).
      split; [reflexivity|]. rewrite Hc', Hs', Hcursor', Hstats'.
      split; [unfold left in *; f_equal; lia|].
      f_equal. unfold left in *. lia.
    + assert (Hr : readNum = kMaxElementsNum_) by lia.
      fold (steady k content).
      destruct (IH (c + readNum) (snd (tick (Some content) None p)))
        as (p' & Hdrain & Hc' & Hs').
      * unfold left in *. lia.
      * exact Hcursor'.
      * replace (Z.of_nat (records content) - (c + readNum))
          with (left + -1 * kMaxElementsNum_) by (unfold left; lia).
        rewrite Z.div_add by lia.
        assert (1 <= left / kMaxElementsNum_)
          by (apply Z.div_le_lower_bound; lia).
        lia.
      * exists p'. split; [exact Hdrain|]. split; [exact Hc'|].
        rewrite Hs', Hstats'.
        replace (records content - Z.to_nat c)%nat
          with (Z.to_nat readNum + (records content - Z.to_nat (c + readNum)))%nat
          by (unfold left in *; lia).
        rewrite parseRecords_add, drop_drop. f_equal. f_equal. lia.
Qed.

(** X18: on a file that does not change, and without read errors, the
    calls of [processGrowingShareLog] that the parser thread makes until
    one reads nothing end (within a number of calls that the size of the
    file bounds) with the cursor on the last record boundary of the file
    and with every whole record from the cursor on parsed once, in file
    order; [isReachEOF] then holds exactly when no partial record
    trails. *)
Theorem drain_reaches_end k content p :
  lastPosition_ p mod Share.sizeof = 0 ->
  0 <= lastPosition_ p <= Z.of_nat (length content) ->
  (Z.to_nat (Z.of_nat (records content) / kMaxElementsNum_) + 2 <= k)%nat ->
  exists p',
    drain decode kMaxElementsNum_ (steady k content) p = Some p'
    /\ lastPosition_ p' = Share.sizeof * Z.of_nat (records content)
    /\ workersStats_ p'
       = parseRecords decode
           (records content - Z.to_nat (lastPosition_ p / Share.sizeof))
           (drop (Z.to_nat (lastPosition_ p)) content) (workersStats_ p)
    /\ isReachEOF (Some content) p'
       = bool_decide (Z.of_nat (length content) mod Share.sizeof = 0).
Proof.
  intros Hal Hpos Hk.
  set (len := Z.of_nat (length content)) in *.
  assert (Hn : Z.of_nat (records content) = len / Share.sizeof).
  { unfold records. fold len. apply Z2Nat.id. apply Z.div_pos; [lia|].
    unfold Share.sizeof. lia. }
  set (c := lastPosition_ p / Share.sizeof).
  assert (Hc : lastPosition_ p = Share.sizeof * c).
  { unfold c. pose proof (Z.div_mod (lastPosition_ p) Share.sizeof) as Hdm.
    unfold Share.sizeof in *. lia. }
  assert (Hrange : 0 <= c <= Z.of_nat (records content)).
  { rewrite Hn. unfold c. split.
    - apply Z.div_pos; unfold Share.sizeof; lia.
    - apply Z.div_le_mono; unfold Share.sizeof; lia. }
  destruct (drain_aligned k content c p Hrange Hc) as (p' & Hdrain & Hc' & Hs').
  { assert ((Z.of_nat (records content) - c) / kMaxElementsNum_
            <= Z.of_nat (records content) / kMaxElementsNum_)
      by (apply Z.div_le_mono; lia).
    assert (0 <= (Z.of_nat (records content) - c) / kMaxElementsNum_)
      by (apply Z.div_pos; lia).
    lia. }
  exists p'. split; [exact Hdrain|]. split; [exact Hc'|]. split.
  - rewrite Hs'. clearbody c.
    replace (Z.to_nat (lastPosition_ p)) with (48 * Z.to_nat c)%nat
      by (unfold Share.sizeof in *; lia).
    reflexivity.
  - unfold isReachEOF. rewrite Hc', Hn. fold len.
    pose proof (Z.div_mod len Share.sizeof) as Hdm.
    unfold Share.sizeof in *.
    apply bool_decide_ext. lia.
Qed.

(** X19: the two modes agree: on the same file, without read errors, the
    calls of [processGrowingShareLog] from the fresh parser until one
    reads nothing leave the statistics that [processUnchangedShareLog]
    leaves. *)
Theorem drain_processUnchangedShareLog k turns content :
  (Z.to_nat (Z.of_nat (records content) / kMaxElementsNum_) + 2 <= k)%nat ->
  (Z.to_nat (Z.of_nat (records content) / kElements) + 2 <= turns)%nat ->
  workersStats_ <$> drain decode kMaxElementsNum_ (steady k content) new
  = (fun r : bool * t => workersStats_ (snd r))
      <$> processUnchangedShareLog decode turns (Some content) [] new.
Proof.
  intros Hk Hturns.
  destruct (drain_aligned k content 0 new) as (p' & Hdrain & _ & Hs').
  - lia.
  - reflexivity.
  - rewrite Z.sub_0_r. exact Hk.
  - rewrite Hdrain. unfold processUnchangedShareLog.
    change (FILE.mk 0) with (FILE.mk (Share.sizeof * 0)).
    rewrite readAll_aligned by (try rewrite Z.sub_0_r; lia || exact Hturns).
    simpl. rewrite Hs'. simpl. rewrite Nat.sub_0_r. reflexivity.
Qed.
End BulkFacts.

Lemma processUnchangedShareLog_all_witness :
  processUnchangedShareLog (fun _ => ShareLogWriterSpec.logged 90000) 2
    (Some (zeros 100)) [] new
    = Some (true,
            mk (f_ new) (lastPosition_ new)
               (parseRecords (fun _ => ShareLogWriterSpec.logged 90000)
                  (records (zeros 100)) (zeros 100) (workersStats_ new)))
  /\ processUnchangedShareLog (fun _ => ShareLogWriterSpec.logged 90000) 2
       None [] new = Some (false, new).
Proof.
  apply (processUnchangedShareLog_all (fun _ => ShareLogWriterSpec.logged 90000)
           2 (zeros 100) [] new).
  vm_compute. lia.
Defined.

Lemma drain_reaches_end_witness :
  exists p',
    drain (fun _ => ShareLogWriterSpec.logged 90000) 2000000
      (steady 2 (zeros 100)) (mk None 48 (workersStats_ new)) = Some p'
    /\ lastPosition_ p' = Share.sizeof * Z.of_nat (records (zeros 100))
    /\ workersStats_ p'
       = parseRecords (fun _ => ShareLogWriterSpec.logged 90000)
           (records (zeros 100)
              - Z.to_nat (lastPosition_ (mk None 48 (workersStats_ new))
                            / Share.sizeof))
           (drop (Z.to_nat (lastPosition_ (mk None 48 (workersStats_ new))))
                 (zeros 100))
           (workersStats_ (mk None 48 (workersStats_ new)))
    /\ isReachEOF (Some (zeros 100)) p'
       = bool_decide (Z.of_nat (length (zeros 100)) mod Share.sizeof = 0).
Proof.
  apply (drain_reaches_end (fun _ => ShareLogWriterSpec.logged 90000) 2000000).
  - lia.
  - reflexivity.
  - vm_compute. split; discriminate.
  - vm_compute. lia.
Defined.

Lemma drain_processUnchangedShareLog_witness :
  workersStats_
    <$> drain (fun _ => ShareLogWriterSpec.logged 90000) 1
          (steady 4 (zeros 100)) new
  = (fun r : bool * t => workersStats_ (snd r))
      <$> processUnchangedShareLog (fun _ => ShareLogWriterSpec.logged 90000) 2
            (Some (zeros 100)) [] new.
Proof.
  apply (drain_processUnchangedShareLog (fun _ => ShareLogWriterSpec.logged 90000) 1).
  - lia.
  - vm_compute. lia.
  - vm_compute. lia.
Defined.

(** A file of 100 bytes: two records are parsed and four bytes trail, so
    that the end of the file is not reached; with 96 bytes it is. *)
Example drain_example :
  (fun p => (lastPosition_ p, isReachEOF (Some (zeros 100)) p))
    <$> drain (fun _ => ShareLogWriterSpec.logged 90000) 2000000
          (steady 2 (zeros 100)) new = Some (96, false)
  /\ (fun p => (lastPosition_ p, isReachEOF (Some (zeros 96)) p))
       <$> drain (fun _ => ShareLogWriterSpec.logged 90000) 2000000
             (steady 2 (zeros 96)) new = Some (96, true)
  /\ drain (fun _ => ShareLogWriterSpec.logged 90000) 1
       (steady 2 (zeros 100)) new = None.
Proof. vm_compute. repeat split; reflexivity. Qed.

End ShareLogParserBulkFacts.

Module ShareLogParserServerFacts.
Import ShareLogParserServer ShareLogParserServerSpec.

(** *** The status page *)

(** X20: the reject rate that the status page of the parser server shows
    is the quotient of two integers, the rejected count by the 64-bit sum
    of the two counts.  While the sum of the counts is below 2^64 it is 1
    when shares were rejected and none accepted, and 0 in every other
    case, where the statistics queries divide in [double].  When the sum
    is 2^64 it wraps around to 0 and the division is by zero; when it is
    above, the rate shown is a whole number that is at least 1. *)
Theorem statusRejectRate_whole stats :
  0 <= ShareStats.shareAccept_ stats < 2 ^ 64 ->
  0 <= ShareStats.shareReject_ stats < 2 ^ 64 ->
  let accept := ShareStats.shareAccept_ stats in
  let reject := ShareStats.shareReject_ stats in
  (accept + reject < 2 ^ 64 ->
   statusRejectRate stats
   = Some (if decide (accept = 0 /\ reject <> 0) then 1%float else 0%float))
  /\ (accept + reject = 2 ^ 64 -> statusRejectRate stats = None)
  /\ (2 ^ 64 < accept + reject ->
      statusRejectRate stats
      = Some (double_of_Z (reject / (accept + reject - 2 ^ 64)))
      /\ 1 <= reject / (accept + reject - 2 ^ 64)).
Proof.
  intros Ha Hr accept reject. subst accept reject.
  unfold statusRejectRate, u64.
  set (accept := ShareStats.shareAccept_ stats) in *.
  set (reject := ShareStats.shareReject_ stats) in *.
  split; [|split].
  - intros Hsum. rewrite Z.mod_small by lia.
    destruct (decide (reject <> 0)) as [Hnz|Hz].
    + destruct (decide (accept + reject = 0)) as [Hzero|_]; [lia|].
      destruct (decide (accept = 0 /\ _)) as [[Hza _]|Hn].
      * rewrite Hza, Z.add_0_l, Z.div_same by exact Hnz. reflexivity.
      * rewrite Z.div_small by lia. reflexivity.
    + destruct (decide (_ /\ _)) as [[_ Hnz]|_]; [contradiction | reflexivity].
  - intros Hsum. rewrite Hsum, Z_mod_same_full.
    destruct (decide (reject <> 0)) as [_|Hz]; [|lia].
    destruct (decide (0 = 0)) as [_|Hne]; [reflexivity | contradiction].
  - intros Hsum.
    assert (Hmod : (accept + reject) mod 2 ^ 64 = accept + reject - 2 ^ 64).
    { symmetry. apply (Z.mod_unique_pos _ _ 1); lia. }
    rewrite Hmod.
    destruct (decide (reject <> 0)) as [_|Hz]; [|lia].
    destruct (decide (accept + reject - 2 ^ 64 = 0)) as [Hzero|_]; [lia|].
    split; [reflexivity|].
    apply Z.div_le_lower_bound; lia.
Qed.

Lemma statusRejectRate_whole_witness :
  (3 + 1 < 2 ^ 64 ->
   statusRejectRate (ShareStats.mk 3 1 0.25%float 625000000)
   = Some (if decide (3 = 0 /\ 1 <> 0) then 1%float else 0%float))
  /\ (3 + 1 = 2 ^ 64 ->
      statusRejectRate (ShareStats.mk 3 1 0.25%float 625000000) = None)
  /\ (2 ^ 64 < 3 + 1 ->
      statusRejectRate (ShareStats.mk 3 1 0.25%float 625000000)
      = Some (double_of_Z (1 / (3 + 1 - 2 ^ 64)))
      /\ 1 <= 1 / (3 + 1 - 2 ^ 64)).
Proof.
  apply (statusRejectRate_whole (ShareStats.mk 3 1 0.25%float 625000000));
    simpl; lia.
Defined.

(** Three accepted and one rejected: the queries report 0.25, the status
    page 0.  With 2^64 - 1 accepted and 2 rejected the sum wraps around
    to 1 and the page shows 2; with 2^63 of each it wraps around to 0. *)
Example statusRejectRate_quarter :
  statusRejectRate (ShareStats.mk 3 1 0.25%float 625000000) = Some 0%float
  /\ ShareStatsDay.rejectRate 3 1 = 0.25%float
  /\ statusRejectRate (ShareStats.mk 0 5 1%float 0) = Some 1%float
  /\ statusRejectRate (ShareStats.mk (2 ^ 64 - 1) 2 0%float 0) = Some 2%float
  /\ statusRejectRate (ShareStats.mk (2 ^ 63) (2 ^ 63) 0%float 0) = None.
Proof. vm_compute. repeat split; reflexivity. Qed.

(** X21: the two lengths of time that the status page divides by (the
    seconds of the day and of the hour that have passed) are never 0, and
    they are positive from 1970 on: at the full hour, where both would be
    0 or the second one would, the page reads the clock as two seconds
    later. *)
Theorem statusWindows_nonzero now :
  fst (statusWindows now) <> 0
  /\ snd (statusWindows now) <> 0
  /\ (0 <= now -> 0 < fst (statusWindows now) /\ 0 < snd (statusWindows now)).
Proof.
  unfold statusWindows.
  destruct (decide (Z.rem now 3600 = 0)) as [Hz|Hnz]; simpl;
    Z.to_euclidean_division_equations; lia.
Qed.

Example statusWindows_examples :
  statusWindows 86400 = (2, 2)
  /\ statusWindows 90000 = (3602, 2)
  /\ statusWindows 90001 = (3601, 1).
Proof. repeat split; reflexivity. Qed.

(** *** _getShareStats *)

Lemma foldl_alter_lookup {A B} (f : B -> A -> A) (base : nat) (l : list B) :
  forall (acc : list A) (k : nat),
    foldl (fun acc (jb : nat * B) => alter (f (snd jb)) (base + fst jb)%nat acc)
          acc (imap pair l) !! k
    = match (if decide (base <= k)%nat then l !! (k - base)%nat else None) with
      | Some b => f b <$> acc !! k
      | None => acc !! k
      end.
Proof.
  induction l as [|b l IH] using rev_ind; intros acc k.
  - simpl. destruct (decide _); reflexivity.
  - rewrite imap_app, foldl_app. simpl. rewrite Nat.add_0_r.
    destruct (decide (base + length l = k)%nat) as [Hk|Hk].
    + subst k. rewrite list_lookup_alter.
      destruct (decide (base + length l = base + length l)%nat) as [_|Hne];
        [|contradiction].
      rewrite IH.
      destruct (decide (base <= base + length l)%nat) as [_|Hgt]; [|lia].
      replace (base + length l - base)%nat with (length l) by lia.
      rewrite (lookup_ge_None_2 l (length l)) by lia.
      rewrite list_lookup_middle by reflexivity. reflexivity.
    + rewrite list_lookup_alter_ne by exact Hk. rewrite IH.
      destruct (decide (base <= k)%nat) as [Hle|Hgt]; [|reflexivity].
      destruct (decide (k - base < length l)%nat) as [Hlt|Hge].
      * rewrite lookup_app_l by exact Hlt. reflexivity.
      * rewrite (lookup_ge_None_2 l) by lia.
        rewrite (lookup_ge_None_2 (l ++ [b])) by (rewrite length_app; simpl; lia).
        reflexivity.
Qed.

Section StatsFacts.
Variable BLOCK_REWARD : Z.

(** The entry of the result at index [k]: the record the caller's vector
    held there, written by the query of row [k / hours.size()] and column
    [k % hours.size()] when the key of the row has a day. *)
Lemma _getShareStats_lookup currentHour shareLogParser (hours : list Z)
    (shareStats : list ShareStats.t) (keys : list WorkerKey.t) :
  forall (k : nat),
    (0 < length hours)%nat ->
    _getShareStats BLOCK_REWARD currentHour (mk 0 (Some shareLogParser))
      keys hours shareStats !! k
    = match keys !! (k / length hours)%nat
              ≫= (fun key => ShareLogParserBulk.getShareStatsDayHandler key shareLogParser)
      with
      | Some statsDay =>
          match hours !! (k mod length hours)%nat with
          | Some hour =>
              getShareStatsAt BLOCK_REWARD currentHour statsDay hour
                <$> shareStats !! k
          | None => shareStats !! k
          end
      | None => shareStats !! k
      end.
Proof.
  unfold _getShareStats. simpl. set (m := length hours).
  induction keys as [|key keys IH] using rev_ind; intros k Hm.
  - simpl. reflexivity.
  - rewrite imap_app, foldl_app. simpl. rewrite Nat.add_0_r.
    pose proof (Nat.div_mod_eq k m) as Hdm.
    pose proof (Nat.mod_upper_bound k m ltac:(lia)) as Hmod.
    match goal with
    | |- context [foldl ?f shareStats (imap pair keys)] =>
        set (outer := foldl f shareStats (imap pair keys)) in *
    end.
    destruct (decide (k / m = length keys)%nat) as [Hrow|Hrow].
    + rewrite Hrow, list_lookup_middle by reflexivity. simpl.
      assert (Hold : outer !! k = shareStats !! k).
      { rewrite (IH k Hm), Hrow, (lookup_ge_None_2 keys) by lia. reflexivity. }
      destruct (ShareLogParserBulk.getShareStatsDayHandler key shareLogParser)
        as [statsDay|]; [|exact Hold].
      rewrite (foldl_alter_lookup
                 (getShareStatsAt BLOCK_REWARD currentHour statsDay)
                 (length keys * m) hours).
      destruct (decide (length keys * m <= k)%nat) as [_|Hgt]; [|nia].
      replace (k - length keys * m)%nat with (k mod m)%nat by nia.
      rewrite Hold. reflexivity.
    + assert (Hsame : (keys ++ [key]) !! (k / m)%nat = keys !! (k / m)%nat).
      { destruct (decide (k / m < length keys)%nat) as [Hlt|Hge].
        - apply lookup_app_l, Hlt.
        - rewrite (lookup_ge_None_2 keys) by lia.
          apply lookup_ge_None_2. rewrite length_app. simpl. lia. }
      rewrite Hsame, <- (IH k Hm).
      destruct (ShareLogParserBulk.getShareStatsDayHandler key shareLogParser)
        as [statsDay|]; [|reflexivity].
      rewrite (foldl_alter_lookup
                 (getShareStatsAt BLOCK_REWARD currentHour statsDay)
                 (length keys * m) hours).
      destruct (decide (length keys * m <= k)%nat) as [Hle|Hgt]; [|reflexivity].
      rewrite (lookup_ge_None_2 hours); [reflexivity|].
      fold m.
      destruct (decide (k - length keys * m < m)%nat) as [Hlt|Hge]; [|lia].
      exfalso. apply Hrow. symmetry.
      apply (Nat.div_unique k m (length keys) (k - length keys * m)); lia.
Qed.

Lemma getShareStatsAt_cases currentHour statsDay hour stats :
  0 <= currentHour <= 23 ->
  getShareStatsAt BLOCK_REWARD currentHour statsDay hour stats
  = if decide (hour = 24)
    then ShareStatsDay.getShareStatsDay BLOCK_REWARD statsDay stats
    else if decide (-23 <= hour <= 0 /\ 0 <= currentHour + hour)
         then ShareStatsDay.getShareStatsHour BLOCK_REWARD
                (currentHour + hour) statsDay stats
         else stats.
Proof.
  intros Hcur. unfold getShareStatsAt.
  destruct (decide (hour = 24)) as [_|_]; [reflexivity|].
  destruct (decide (hour <= 0 /\ hour >= -23)) as [Hin|Hout].
  - destruct (decide (-23 <= hour <= 0 /\ 0 <= currentHour + hour)) as [[_ Hpos]|Hneg].
    + unfold u32. rewrite Z.mod_small by lia. reflexivity.
    + unfold ShareStatsDay.getShareStatsHour.
      destruct (decide (u32 (currentHour + hour) > 23)) as [_|Hsmall];
        [reflexivity|].
      exfalso. apply Hsmall. unfold u32.
      replace (currentHour + hour) with (currentHour + hour + 2 ^ 32 + -1 * 2 ^ 32)
        by lia.
      rewrite Z.mod_add, Z.mod_small by lia. lia.
  - destruct (decide (_ /\ _)) as [[? ?]|_]; [lia | reflexivity].
Qed.

(** X22: [_getShareStats] writes the record at index
    [i * hours.size() + j] from the day of key [i] and the hour [j] asked
    for: the day's totals for 24, and for an offset from -23 to 0 the
    hour that lies this far back, provided it is an hour of the current
    day.  The record is left as the caller's vector held it when the
    server has no parser, when the key has no day, when the hour asked
    for is none of these, and when the offset reaches back before
    midnight, where the index of the hour wraps around as a [uint32_t]
    and is beyond 23. *)
Theorem _getShareStats_entry currentHour srv keys hours shareStats
    (i j : nat) key hour stats :
  0 <= currentHour <= 23 ->
  keys !! i = Some key ->
  hours !! j = Some hour ->
  shareStats !! (i * length hours + j)%nat = Some stats ->
  _getShareStats BLOCK_REWARD currentHour srv keys hours shareStats
    !! (i * length hours + j)%nat
  = Some
      (match shareLogParser_ srv
             ≫= ShareLogParserBulk.getShareStatsDayHandler key with
       | None => stats
       | Some statsDay =>
           if decide (hour = 24)
           then ShareStatsDay.getShareStatsDay BLOCK_REWARD statsDay stats
           else if decide (-23 <= hour <= 0 /\ 0 <= currentHour + hour)
                then ShareStatsDay.getShareStatsHour BLOCK_REWARD
                       (currentHour + hour) statsDay stats
                else stats
       end).
Proof.
  intros Hcur Hkey Hhour Hstats.
  assert (Hj : (j < length hours)%nat) by (apply lookup_lt_is_Some; eauto).
  destruct srv as [date [shareLogParser|]]; simpl; [|exact Hstats].
  change (_getShareStats BLOCK_REWARD currentHour
            {| date_ := date; shareLogParser_ := Some shareLogParser |})
    with (_getShareStats BLOCK_REWARD currentHour (mk 0 (Some shareLogParser))).
  rewrite _getShareStats_lookup by lia.
  replace ((i * length hours + j) / length hours)%nat with i
    by (apply (Nat.div_unique _ (length hours) i j); lia).
  replace ((i * length hours + j) mod length hours)%nat with j
    by (apply (Nat.mod_unique _ (length hours) i j); lia).
  rewrite Hkey. simpl.
  destruct (ShareLogParserBulk.getShareStatsDayHandler key shareLogParser)
    as [statsDay|]; [|exact Hstats].
  rewrite Hhour, Hstats. simpl.
  rewrite getShareStatsAt_cases by exact Hcur. reflexivity.
Qed.
End StatsFacts.

Lemma _getShareStats_entry_witness :
  _getShareStats 1250000000 5 server_quarter [(0, 0)] hours_3
    [untouched; untouched; untouched] !! (0 * length hours_3 + 2)%nat
  = Some
      (match shareLogParser_ server_quarter
             ≫= ShareLogParserBulk.getShareStatsDayHandler (0, 0) with
       | None => untouched
       | Some statsDay =>
           if decide (-6 = 24)
           then ShareStatsDay.getShareStatsDay 1250000000 statsDay untouched
           else if decide (-23 <= -6 <= 0 /\ 0 <= 5 + -6)
                then ShareStatsDay.getShareStatsHour 1250000000
                       (5 + -6) statsDay untouched
                else untouched
       end).
Proof.
  apply (_getShareStats_entry 1250000000 5 server_quarter [(0, 0)] hours_3
           [untouched; untouched; untouched] 0%nat 2%nat (0, 0) (-6) untouched).
  - lia.
  - reflexivity.
  - reflexivity.
  - reflexivity.
Defined.

(** At five o'clock: the day, the hour three hours back (hour 2), and the
    hour six hours back, which lies in the day before and is not written. *)
Example _getShareStats_example :
  _getShareStats 1250000000 5 server_quarter [(0, 0); (4, 4)] hours_3
    (replicate 6 untouched)
  = [ShareStats.mk 3 1 0.25%float 625000000;
     ShareStats.mk 3 1 0.25%float 625000000;
     untouched; untouched; untouched; untouched].
Proof. vm_compute. reflexivity. Qed.

End ShareLogParserServerFacts.

Module StatsServerReplyFacts.
Import StatsServer StatsServerQuery StatsServerQuerySpec StatsServerReplySpec.

Lemma withCounts_same s : withCounts s (userWorkerCount_ s) = s.
Proof. destruct s. reflexivity. Qed.

Section ReplyFacts.
Variable sum : StatsWindow.t -> Z -> Z -> Z.

(** The loop of the reply without merging, from a server whose counts
    are those of [s] or those of [s] with the entry of the user added. *)
Lemma reply_fold userId s (l : list (Z * WorkerStatus.t)) :
  let count := default 0 (userWorkerCount_ s !! userId) in
  let added := <[userId := count]> (userWorkerCount_ s) in
  forall es counts,
    counts = userWorkerCount_ s \/ counts = added ->
    fst (foldl (replyEntry false userId) (es, withCounts s counts) l)
      = es ++ ((fun ks : Z * WorkerStatus.t =>
                  mkEntry (fst ks) (snd ks)
                    (if decide (fst ks = 0) then Some count else None)) <$> l)
    /\ snd (foldl (replyEntry false userId) (es, withCounts s counts) l)
       = withCounts s (if decide (0 ∈ fst <$> l) then added else counts).
Proof.
  intros count added. induction l as [|ks l IH]; intros es counts Hcounts.
  - simpl. rewrite app_nil_r.
    destruct (decide (0 ∈ [])) as [Hin|_]; [inversion Hin | auto].
  - cbn [foldl]. unfold replyEntry at 2 4. cbn [negb andb fst snd].
    assert (Hc : default 0 (counts !! userId) = count).
    { destruct Hcounts as [-> | ->]; [reflexivity|].
      unfold added. rewrite lookup_insert_eq. reflexivity. }
    destruct (bool_decide (fst ks = 0)) eqn:Hz.
    + apply bool_decide_eq_true in Hz.
      change (userWorkerCount_ (withCounts s counts)) with counts.
      rewrite Hc.
      assert (Hadded : <[userId := count]> counts = added).
      { destruct Hcounts as [-> | ->]; [reflexivity|].
        unfold added. apply insert_insert_eq. }
      change (mk (totalWorkerCount_ (withCounts s counts))
                 (totalUserCount_ (withCounts s counts))
                 (poolWorker_ (withCounts s counts))
                 (workerSet_ (withCounts s counts))
                 (userSet_ (withCounts s counts))
                 (<[userId := count]> counts)
                 (lastShareTime_ (withCounts s counts)))
        with (withCounts s (<[userId := count]> counts)).
      rewrite Hadded.
      destruct (IH (es ++ [mkEntry (fst ks) (snd ks) (Some count)]) added)
        as [He Hs]; [right; reflexivity|].
      rewrite He, Hs. split.
      * rewrite fmap_cons, <- app_assoc. simpl.
        destruct (decide (fst ks = 0)) as [_|Hne]; [reflexivity | contradiction].
      * f_equal. rewrite fmap_cons.
        destruct (decide (0 ∈ fst ks :: (fst <$> l))) as [_|Hnin].
        -- destruct (decide (0 ∈ fst <$> l)); reflexivity.
        -- exfalso. apply Hnin. rewrite Hz. left.
    + apply bool_decide_eq_false in Hz.
      destruct (IH (es ++ [mkEntry (fst ks) (snd ks) None]) counts Hcounts)
        as [He Hs].
      rewrite He, Hs. split.
      * rewrite fmap_cons, <- app_assoc. simpl.
        destruct (decide (fst ks = 0)) as [Heq|_]; [contradiction | reflexivity].
      * f_equal. rewrite fmap_cons.
        destruct (decide (0 ∈ fst <$> l)) as [Hin|Hnin];
          destruct (decide (0 ∈ fst ks :: (fst <$> l))) as [Hin'|Hnin'];
          try reflexivity.
        -- exfalso. apply Hnin'. right. exact Hin.
        -- exfalso. apply elem_of_cons in Hin' as [Heq|Hin']; [|contradiction].
           apply Hz. symmetry. exact Heq.
Qed.

(** X23: the reply of the status query.  Merged, it holds one object,
    printed under the id 0, with the merge of the statuses of the keys
    and no count of workers, and the server is left as it is.  Not
    merged, it holds one object per worker id of the request, in their
    order, with the status that [getWorkerStatusBatch] gives for the key,
    and the count of the workers of the user for the worker id 0 only.
    The query leaves the aggregates, the two maps and the totals as they
    are; but reading [userWorkerCount_[userId]] for a worker id 0 adds
    the entry 0 to [userWorkerCount_] when the user has none. *)
Theorem getWorkerStatusReply_entries now userId workerIds s :
  let batch := getWorkerStatusBatch sum now s (pair userId <$> workerIds) [] in
  let count := default 0 (userWorkerCount_ s !! userId) in
  getWorkerStatusReply sum now userId workerIds true s
    = ([mkEntry 0 (mergeWorkerStatus batch) None], s)
  /\ fst (getWorkerStatusReply sum now userId workerIds false s)
     = (fun ks : Z * WorkerStatus.t =>
          mkEntry (fst ks) (snd ks)
            (if decide (fst ks = 0) then Some count else None))
         <$> zip workerIds batch
  /\ length (fst (getWorkerStatusReply sum now userId workerIds false s))
     = length workerIds
  /\ snd (getWorkerStatusReply sum now userId workerIds false s)
     = withCounts s (if decide (0 ∈ workerIds)
                     then <[userId := count]> (userWorkerCount_ s)
                     else userWorkerCount_ s).
Proof.
  intros batch count.
  assert (Hlen : length batch = length workerIds).
  { unfold batch. rewrite StatsServerQueryFacts.getWorkerStatusBatch_length.
    apply length_fmap. }
  split; [reflexivity|].
  unfold getWorkerStatusReply. fold batch.
  replace (@nil entry, s) with (@nil entry, withCounts s (userWorkerCount_ s))
    by (rewrite withCounts_same; reflexivity).
  destruct (reply_fold userId s (zip workerIds batch) [] (userWorkerCount_ s))
    as [He Hs]; [left; reflexivity|].
  rewrite He, Hs. split; [reflexivity|]. split.
  - simpl. rewrite length_fmap, length_zip_with_l_eq; [reflexivity | lia].
  - rewrite fst_zip by lia. reflexivity.
Qed.
End ReplyFacts.

(** A user that the server has never seen is asked about: the reply
    shows 0 workers and the map has gained the entry. *)
Example getWorkerStatusReply_unknown :
  entry_workers <$> fst (getWorkerStatusReply sum_len 1100 9 [0; 5] false new)
    = [Some 0; None]
  /\ userWorkerCount_ new !! 9 = None
  /\ userWorkerCount_ (snd (getWorkerStatusReply sum_len 1100 9 [0; 5] false new)) !! 9
     = Some 0.
Proof. vm_compute. repeat split; reflexivity. Qed.

End StatsServerReplyFacts.

Module ShareLogParserSwitchFacts.
Import ShareLogParserServer ShareLogParserServerSpec ShareLogParserSpec.

Lemma day_start now :
  0 <= now ->
  (now - Z.rem now 86400) mod 86400 = 0
  /\ now - Z.rem now 86400 <= now < now - Z.rem now 86400 + 86400.
Proof. intros Hnow. Z.to_euclidean_division_equations. lia. Qed.

Lemma day_start_unique now date :
  0 <= now -> date mod 86400 = 0 -> date <= now < date + 86400 ->
  now - Z.rem now 86400 = date.
Proof. intros Hnow Hd Hr. Z.to_euclidean_division_equations. lia. Qed.

Section SwitchFacts.
Variable BLOCK_REWARD : Z.

(** X24: [trySwithBinFile] either leaves the server as it is, without a
    flush, or switches: this happens only on a day other than [date_],
    more than five seconds after its midnight, when the old file has been
    read to its end and the new file exists.  The rows of the old parser
    are generated first, none when the ping of the database fails, in
    which case the hours it had not flushed go with it.  After the switch
    [date_] is the midnight of the day of [now], the parser is the fresh
    one (or none, when its [init] failed), and no call on the same day
    switches again. *)
Theorem trySwithBinFile_switch now oldFile newFileExists ping init_ok
    shareLogParser srv :
  0 <= now ->
  let r := trySwithBinFile BLOCK_REWARD now oldFile newFileExists ping init_ok
             shareLogParser srv in
  match fst r with
  | None => snd r = srv
  | Some v =>
      v = snd (fst (ShareLogParserFlush.flushToDB BLOCK_REWARD ping shareLogParser))
      /\ (ping = false -> v = ShareLogParserFlush.noValues)
      /\ now - Z.rem now 86400 <> date_ srv
      /\ now > now - Z.rem now 86400 + 5
      /\ ShareLogParserBulk.isReachEOF oldFile shareLogParser = true
      /\ newFileExists = true
      /\ date_ (snd r) mod 86400 = 0
      /\ date_ (snd r) <= now < date_ (snd r) + 86400
      /\ shareLogParser_ (snd r)
         = (if init_ok then Some ShareLogParser.new else None)
      /\ forall now' oldFile' newFileExists' ping' init_ok' shareLogParser',
           date_ (snd r) <= now' < date_ (snd r) + 86400 ->
           trySwithBinFile BLOCK_REWARD now' oldFile' newFileExists' ping' init_ok'
             shareLogParser' (snd r) = (None, snd r)
  end.
Proof.
  intros Hnow. unfold trySwithBinFile.
  destruct (day_start now Hnow) as [Hal Hday].
  destruct (decide (now - Z.rem now 86400 = date_ srv)) as [Heq|Hne];
    [reflexivity|].
  destruct (bool_decide (now > now - Z.rem now 86400 + 5)) eqn:Hfive;
    [|reflexivity].
  destruct (ShareLogParserBulk.isReachEOF oldFile shareLogParser) eqn:Heof;
    [|reflexivity].
  destruct newFileExists; [|reflexivity].
  apply bool_decide_eq_true in Hfive. cbn [andb fst snd].
  assert (Hdate : date_ (snd (initShareLogParser init_ok now srv))
                  = now - Z.rem now 86400)
    by (unfold initShareLogParser; destruct init_ok; reflexivity).
  rewrite Hdate.
  split; [reflexivity|]. split; [intros ->; reflexivity|].
  split; [exact Hne|]. split; [exact Hfive|]. split; [reflexivity|].
  split; [reflexivity|]. split; [exact Hal|]. split; [exact Hday|].
  split; [unfold initShareLogParser; destruct init_ok; reflexivity|].
  intros now' oldFile' newFileExists' ping' init_ok' shareLogParser' Hsame.
  rewrite (day_start_unique now' (now - Z.rem now 86400))
    by (try assumption; Z.to_euclidean_division_equations; lia).
  destruct (decide _) as [_|Hn]; [reflexivity | contradiction].
Qed.
End SwitchFacts.

Lemma trySwithBinFile_switch_witness :
  let r := trySwithBinFile 1250000000 172806 (Some (zeros 96)) true false true
             (ShareLogParser.mk None 96 (ShareLogParser.workersStats_
                ShareLogParserFlushSpec.parser_2))
             server_quarter in
  match fst r with
  | None => snd r = server_quarter
  | Some v =>
      v = snd (fst (ShareLogParserFlush.flushToDB 1250000000 false
                      (ShareLogParser.mk None 96 (ShareLogParser.workersStats_
                         ShareLogParserFlushSpec.parser_2))))
      /\ (false = false -> v = ShareLogParserFlush.noValues)
      /\ 172806 - Z.rem 172806 86400 <> date_ server_quarter
      /\ 172806 > 172806 - Z.rem 172806 86400 + 5
      /\ ShareLogParserBulk.isReachEOF (Some (zeros 96))
           (ShareLogParser.mk None 96 (ShareLogParser.workersStats_
              ShareLogParserFlushSpec.parser_2)) = true
      /\ true = true
      /\ date_ (snd r) mod 86400 = 0
      /\ date_ (snd r) <= 172806 < date_ (snd r) + 86400
      /\ shareLogParser_ (snd r)
         = (if true then Some ShareLogParser.new else None)
      /\ forall now' oldFile' newFileExists' ping' init_ok' shareLogParser',
           date_ (snd r) <= now' < date_ (snd r) + 86400 ->
           trySwithBinFile 1250000000 now' oldFile' newFileExists' ping' init_ok'
             shareLogParser' (snd r) = (None, snd r)
  end.
Proof.
  apply (trySwithBinFile_switch 1250000000 172806 (Some (zeros 96)) true false true
           (ShareLogParser.mk None 96 (ShareLogParser.workersStats_
              ShareLogParserFlushSpec.parser_2))
           server_quarter).
  lia.
Defined.

(** Five seconds after midnight nothing happens yet; a second later the
    server switches to the new day. *)
Example trySwithBinFile_example :
  trySwithBinFile 1250000000 172805 (Some (zeros 96)) true true true
    (ShareLogParser.mk None 96 ∅) server_quarter = (None, server_quarter)
  /\ snd (trySwithBinFile 1250000000 172806 (Some (zeros 96)) true true true
            (ShareLogParser.mk None 96 ∅) server_quarter)
     = mk 172800 (Some ShareLogParser.new)
  /\ trySwithBinFile 1250000000 172806 (Some (zeros 100)) true true true
       (ShareLogParser.mk None 96 ∅) server_quarter = (None, server_quarter).
Proof. vm_compute. repeat split; reflexivity. Qed.

End ShareLogParserSwitchFacts.

Module StatsServerRedisUsersFacts.
Import String StatsServer StatsServerRedis StatsServerRedisUsers
  StatsServerRedisUsersSpec.

Section FlushFacts.
Variable sum : StatsWindow.t -> Z -> Z -> Z.
Variable inet_ntop : Z -> string.
Variable redisKeyPrefix_ : string.
Variable redisKeyExpire_ : Z.
Variable redisPublishPolicy_ : Z.
Variable REDIS_PUBLISH_USER_UPDATE : Z.
Variable redisConcurrency_ : nat.

Local Abbreviation flushUser :=
  (flushUser sum inet_ntop redisKeyPrefix_ redisKeyExpire_ redisPublishPolicy_
     REDIS_PUBLISH_USER_UPDATE).
Local Abbreviation readUser :=
  (readUser redisKeyExpire_ redisPublishPolicy_ REDIS_PUBLISH_USER_UPDATE).

(** The names of the commands of one user. *)
Local Abbreviation names :=
  (["HMSET"%string]
     ++ (if decide (redisKeyExpire_ > 0) then ["EXPIRE"%string] else [])
     ++ (if decide (Z.land redisPublishPolicy_ REDIS_PUBLISH_USER_UPDATE <> 0)
         then ["PUBLISH"%string] else [])).

Lemma flushUser_calls now acc itr :
  omap prepared (fst (flushUser now acc itr)) = omap prepared (fst acc) ++ names
  /\ omap checked (fst (flushUser now acc itr)) = omap checked (fst acc)
  /\ omap keyOf (fst (flushUser now acc itr))
     = omap keyOf (fst acc) ++ [getRedisKeyMiningWorkerAll redisKeyPrefix_ (fst itr)]
  /\ workerSet_ (snd (flushUser now acc itr)) = workerSet_ (snd acc)
  /\ userSet_ (snd (flushUser now acc itr)) = userSet_ (snd acc)
  /\ totalWorkerCount_ (snd (flushUser now acc itr)) = totalWorkerCount_ (snd acc)
  /\ totalUserCount_ (snd (flushUser now acc itr)) = totalUserCount_ (snd acc).
Proof.
  unfold StatsServerRedisUsers.flushUser. cbn [fst snd].
  rewrite !omap_app.
  destruct (decide (redisKeyExpire_ > 0));
    destruct (decide (Z.land redisPublishPolicy_ REDIS_PUBLISH_USER_UPDATE <> 0));
    simpl; rewrite ?app_nil_r; repeat split; reflexivity.
Qed.

Lemma flushUsers_calls now (entries : list (Z * WorkerShares.t)) : forall acc,
  omap prepared (fst (foldl (flushUser now) acc entries))
    = omap prepared (fst acc) ++ mjoin (replicate (List.length entries) names)
  /\ omap checked (fst (foldl (flushUser now) acc entries))
     = omap checked (fst acc)
  /\ omap keyOf (fst (foldl (flushUser now) acc entries))
     = omap keyOf (fst acc)
         ++ ((fun itr => getRedisKeyMiningWorkerAll redisKeyPrefix_ (fst itr))
               <$> entries)
  /\ workerSet_ (snd (foldl (flushUser now) acc entries)) = workerSet_ (snd acc)
  /\ userSet_ (snd (foldl (flushUser now) acc entries)) = userSet_ (snd acc)
  /\ totalWorkerCount_ (snd (foldl (flushUser now) acc entries))
     = totalWorkerCount_ (snd acc)
  /\ totalUserCount_ (snd (foldl (flushUser now) acc entries))
     = totalUserCount_ (snd acc).
Proof.
  induction entries as [|itr entries IH]; intros acc.
  - simpl. rewrite !app_nil_r. repeat split; reflexivity.
  - cbn [foldl].
    destruct (IH (flushUser now acc itr)) as (Hp & Hc & Hk & Hw & Hu & Htw & Htu).
    destruct (flushUser_calls now acc itr) as (Hp1 & Hc1 & Hk1 & Hw1 & Hu1 & Htw1 & Htu1).
    split; [rewrite Hp, Hp1, <- app_assoc; reflexivity|].
    split; [rewrite Hc, Hc1; reflexivity|].
    split; [rewrite Hk, Hk1, <- app_assoc; reflexivity|].
    split; [rewrite Hw, Hw1; reflexivity|].
    split; [rewrite Hu, Hu1; reflexivity|].
    split; [rewrite Htw, Htw1; reflexivity|].
    rewrite Htu, Htu1; reflexivity.
Qed.

Lemma mjoin_replicate_S {A} (n : nat) (l : list A) :
  mjoin (replicate (S n) l) = l ++ mjoin (replicate n l).
Proof. reflexivity. Qed.

Lemma readUsers_calls (n : nat) :
  omap prepared (mjoin (replicate n readUser)) = []
  /\ omap checked (mjoin (replicate n readUser)) = mjoin (replicate n names)
  /\ omap keyOf (mjoin (replicate n readUser)) = [].
Proof.
  induction n as [|n (Hp & Hc & Hk)]; [repeat split; reflexivity|].
  rewrite !mjoin_replicate_S, !omap_app, Hp, Hc, Hk.
  unfold StatsServerRedisUsers.readUser.
  destruct (decide (redisKeyExpire_ > 0));
    destruct (decide (Z.land redisPublishPolicy_ REDIS_PUBLISH_USER_UPDATE <> 0));
    repeat split; reflexivity.
Qed.

(** X25: the pipeline of [flushUsersToRedis] is balanced: the replies
    that the second loop reads are checked as the replies of the commands
    that the first loop prepared, one for one and in the same order
    ([HMSET], then [EXPIRE] when keys expire, then [PUBLISH] when user
    updates are published, for each user).  One [HMSET] goes out for
    every user of the part of the thread, under the key of that user, in
    the order of the map.  The flush leaves the two maps and the totals
    as they are. *)
Theorem flushUsersToRedis_pipeline now threadStep s :
  let r := flushUsersToRedis sum inet_ntop redisKeyPrefix_ redisKeyExpire_
             redisPublishPolicy_ REDIS_PUBLISH_USER_UPDATE redisConcurrency_
             now threadStep s in
  omap checked (fst r) = omap prepared (fst r)
  /\ omap keyOf (fst r)
     = (fun itr : Z * WorkerShares.t =>
          getRedisKeyMiningWorkerAll redisKeyPrefix_ (fst itr))
         <$> flushedEntries (map_to_list (userSet_ s)) redisConcurrency_ threadStep
  /\ workerSet_ (snd r) = workerSet_ s
  /\ userSet_ (snd r) = userSet_ s
  /\ totalWorkerCount_ (snd r) = totalWorkerCount_ s
  /\ totalUserCount_ (snd r) = totalUserCount_ s.
Proof.
  unfold flushUsersToRedis.
  set (entries := flushedEntries (map_to_list (userSet_ s)) redisConcurrency_ threadStep).
  destruct (flushUsers_calls now entries ([], s)) as (Hp & Hc & Hk & Hrest).
  destruct (readUsers_calls (List.length entries)) as (Hp' & Hc' & Hk').
  cbn [fst snd omap app] in Hp, Hc, Hk, Hrest.
  destruct (decide (List.length entries = 0)%nat) as [Hz|Hnz]; cbv zeta.
  - rewrite Hp, Hc, Hk, Hz. split; [reflexivity|]. split; [reflexivity|].
    exact Hrest.
  - cbn [fst snd]. rewrite !omap_app, Hp, Hc, Hk, Hp', Hc', Hk', !app_nil_r.
    split; [reflexivity|]. split; [reflexivity|]. exact Hrest.
Qed.
End FlushFacts.

(** Three users and two threads, keys that expire and no publishing:
    thread 0 flushes two users, thread 1 one. *)
Example flushUsersToRedis_example :
  List.length
    (omap keyOf
       (fst (flushUsersToRedis StatsServerQuerySpec.sum_len
               (fun _ => "10.0.0.1"%string) "btc/" 60 0 2 2 1100 1 registry_3)))
  = 1%nat
  /\ omap checked
       (fst (flushUsersToRedis StatsServerQuerySpec.sum_len
               (fun _ => "10.0.0.1"%string) "btc/" 60 0 2 2 1100 0 registry_3))
     = ["HMSET"%string; "EXPIRE"%string; "HMSET"%string; "EXPIRE"%string].
Proof. vm_compute. split; reflexivity. Qed.

End StatsServerRedisUsersFacts.
